(** * jit_kernel_emitter (intel_cpu snippets, x64): offsets, registers, pointers

    A shallow embedding of
    [src/plugins/intel_cpu/src/emitters/snippets/x64/jit_kernel_emitter.cpp]
    and the properties of its offset calculation, register allocation and
    data-pointer initialisation.

    Conventions.
    - [size_t] values are integers in [0, 2^64); arithmetic on them is
      written with its wrap-around ([wrap]).
    - A [std::vector] is a list.  [operator[]] outside the bounds,
      [pop_back] on an empty vector and dereferencing an end iterator have
      no defined behaviour in C++: the embedding returns [Undefined] there.
    - A failed [OV_CPU_JIT_EMITTER_ASSERT] and a library exception are
      [Throw e].
    - The code buffer behind [h] is the list of instructions emitted; every
      emitting function returns the instructions it appends. *)

From stdpp Require Import base numbers list gmap sorting.

Local Open Scope Z_scope.

(** ** size_t and int *)

Definition size_t_modulus : Z := 2 ^ 64.

Definition wrap (x : Z) : Z := x mod size_t_modulus.

(** [static_cast<int>(x)] for a [size_t] x (two's complement, 32 bits). *)
Definition static_cast_int (x : Z) : Z := (x + 2 ^ 31) mod 2 ^ 32 - 2 ^ 31.

Definition sizeof_size_t : Z := 8.
Definition sizeof_void_ptr : Z := 8.

(** ** Outcomes *)

Inductive exception : Type :=
  | InvalidOpArgument          (* "invoked with invalid op argument" *)
  | EmptyBody                  (* "invoked with empty body" *)
  | NoCompileParams            (* "... contains no compile_params" *)
  | UnsupportedIoType          (* "detected unsupported io_type" *)
  | ShapeLayoutLength          (* "Shape and layout must have the same length" *)
  | MaxLayoutIndex             (* "Max layout index can't be larger than the shape size" *)
  | InvalidNumberOfInputs (got : Z)   (* "got invalid number of inputs. Expected 0, got " *)
  | InvalidNumberOfOutputs (got : Z)  (* "got invalid number of outputs. Expected 0, got " *)
  | InconsistentRegisters (num_params regs : Z)
                               (* "number of inputs and outputs is inconsistent ..." *)
  | NotEnoughRegisters         (* the pool cannot serve a request *)
  | LengthError.               (* std::length_error of std::vector::insert *)

Inductive result (A : Type) : Type :=
  | Ok (a : A)
  | Throw (e : exception)
  | Undefined.

Arguments Ok {A} a.
Arguments Throw {A} e.
Arguments Undefined {A}.

#[global] Instance result_ret : MRet result := fun A a => Ok a.

#[global] Instance result_bind : MBind result := fun A B k r =>
  match r with
  | Ok a => k a
  | Throw e => Throw e
  | Undefined => Undefined
  end.

Definition assert (b : bool) (e : exception) : result unit :=
  if b then Ok tt else Throw e.

(** ** std::vector *)

(** [v.size()]. *)
Definition vec_size {A : Type} (v : list A) : Z := Z.of_nat (length v).

(** [v[i]] as an rvalue. *)
Definition vec_get {A : Type} (v : list A) (i : Z) : result A :=
  if bool_decide (0 <= i < vec_size v) then
    match v !! Z.to_nat i with
    | Some x => Ok x
    | None => Undefined
    end
  else Undefined.

(** [v[i] = x]. *)
Definition vec_set {A : Type} (v : list A) (i : Z) (x : A) : result (list A) :=
  if bool_decide (0 <= i < vec_size v) then Ok (<[Z.to_nat i := x]> v) else Undefined.

(** [v.pop_back()]. *)
Definition pop_back {A : Type} (v : list A) : result (list A) :=
  match v with
  | [] => Undefined
  | _ => Ok (removelast v)
  end.

(** [v.max_size()] of a vector of [size_t]: PTRDIFF_MAX / sizeof(size_t). *)
Definition vector_max_size : Z := (2 ^ 63 - 1) / sizeof_size_t.

(** [v.insert(v.begin(), count, x)], with [count] a [size_t]. *)
Definition insert_front {A : Type} (v : list A) (count : Z) (x : A) : result (list A) :=
  if vector_max_size - vec_size v <? count then Throw LengthError
  else Ok (replicate (Z.to_nat count) x ++ v).

(** ** Offset calculation (the lambda of init_data_pointers) *)

(** Lines 164-167: the body of the loop at index [k = cnt - 1], then the
    remaining iterations down to [k = 0]. *)
Fixpoint strides_loop (shape : list Z) (data_size : Z) (cnt : nat)
    (dim_step : Z) (strides : list Z) : result (list Z) :=
  match cnt with
  | O => Ok strides
  | S k' =>
      let k := Z.of_nat k' in
      s_next ← vec_get shape (k + 1);
      let dim_step := wrap (dim_step * s_next) in
      s_k ← vec_get shape k;
      strides ← vec_set strides k
                   (if bool_decide (s_k <> 1) then wrap (dim_step * data_size) else 0);
      strides_loop shape data_size k' dim_step strides
  end.

(** Lines 161-167.  [int k = static_cast<int>(shape.size()) - 2] overflows
    [int] only for a vector of 2^31 elements or more. *)
Definition raw_strides (shape : list Z) (data_size : Z) : result (list Z) :=
  let strides := replicate (length shape) 0 in
  let dim_step := 1 in
  strides ← vec_set strides (wrap (vec_size shape - 1)) 1;
  let k0 := static_cast_int (vec_size shape) - 2 in
  if k0 <? - 2 ^ 31 then Undefined
  else strides_loop shape data_size (Z.to_nat (k0 + 1)) dim_step strides.

(** Lines 171-175: iterations [i], [i+1], ... over the rest of the layout. *)
Fixpoint reorder_loop (strides : list Z) (is_input : bool) (rest : list Z)
    (i : Z) (reordered_strides : list Z) : result (list Z) :=
  match rest with
  | [] => Ok reordered_strides
  | layout_i :: rest' =>
      let src_idx := if is_input then layout_i else i in
      let dst_idx := if is_input then i else layout_i in
      s ← vec_get strides src_idx;
      reordered_strides ← vec_set reordered_strides dst_idx s;
      reorder_loop strides is_input rest' (i + 1) reordered_strides
  end.

(** Lines 170-176. *)
Definition reorder_strides (strides layout : list Z) (is_input : bool)
    : result (list Z) :=
  let reordered_strides := replicate (length strides) 0 in
  reorder_loop strides is_input layout 0 reordered_strides.

(** Lines 152-185; [offset_rank] is captured by value. *)
Definition offset_calculation (offset_rank : Z) (shape layout : list Z)
    (data_size : Z) (is_input : bool) : result (list Z) :=
  strides ← raw_strides shape data_size;
  strides ← match layout with
             | [] => Ok strides
             | _ => reorder_strides strides layout is_input
             end;
  strides ← pop_back strides;
  insert_front strides (wrap (offset_rank - vec_size strides)) 0.


(** ** The lowered kernel, as the constructor reads it *)

(** snippets::RegType and snippets::Reg. *)
Inductive RegType : Type := gpr | vec.

Record Reg : Type := { type : RegType; idx : Z }.

(** snippets::lowered::IOExpression::io_type. *)
Inductive io_type : Type := INPUT | OUTPUT | UNDEFINED.

(** snippets::lowered::PortDescriptor. *)
Record PortDescriptor : Type := { get_shape : list Z; get_layout : list Z }.

(** A consumer of an input's output port: whether its node is a
    RankNormalization, and the descriptor of its output port 0. *)
Record Consumer : Type :=
  { is_rank_normalization : bool;
    consumer_output_port_descriptor : PortDescriptor }.

(** An IO expression: its descriptor is that of output port 0 for an input
    and of input port 0 for an output; likewise the element type. *)
Record IOExpression : Type :=
  { get_type : io_type;
    get_port_descriptor : PortDescriptor;
    element_type_size : Z;
    get_consumers : list Consumer }.

Inductive node : Type :=
  | IO (io : IOExpression)
  | Buffer (id : Z)
  | Other.

Record Expression : Type :=
  { get_node : node;
    get_reg_info : list Reg * list Reg }.

Record jit_snippets_compile_args : Type := { parallel_executor_ndims : Z }.

(** snippets::op::Kernel: [region] with its master shape, and compile_params
    (a null pointer is [None]). *)
Record Kernel : Type :=
  { region : list Expression;
    get_master_shape : list Z;
    compile_params : option jit_snippets_compile_args }.

(** Modelled from the spec: LinearIR::get_IO_ops is not in the source file;
    it yields the kernel's IO nodes, in body order. *)
Definition get_IO_ops (body : list Expression) : list IOExpression :=
  omap (fun expr => match get_node expr with IO io => Some io | _ => None end) body.

(** ** The emitter *)

Definition RSP : Z := 4.   (* Xbyak::Operand::RSP *)
Definition RBP : Z := 5.   (* Xbyak::Operand::RBP *)

Record jit_kernel_emitter : Type :=
  { jcp : jit_snippets_compile_args;
    gp_regs_pool : list Z;
    vec_regs_pool : list Z;
    master_shape : list Z;
    num_inputs : Z;
    num_outputs : Z;
    num_unique_buffers : Z;
    body : list Expression;
    data_ptr_regs_idx : list Z;
    reg_indexes_idx : Z;
    reg_const_params_idx : Z;
    io_shapes : list (list Z);
    io_data_layouts : list (list Z);
    io_data_sizes : list Z }.

(** [*std::max_element(v.begin(), v.end())]: for an empty vector the
    iterator returned is [v.end()]. *)
Definition max_element (v : list Z) : result Z :=
  match v with
  | [] => Undefined
  | x :: v' => Ok (foldl Z.max x v')
  end.

(** Lines 68-72: the checks on one IO descriptor. *)
Definition check_descriptor (shape layout : list Z) : result unit :=
  _ ← assert (bool_decide (vec_size shape = vec_size layout)) ShapeLayoutLength;
  max_dim ← max_element layout;
  assert (bool_decide (max_dim < vec_size shape)) MaxLayoutIndex.

(** What the loop over the IO expressions accumulates. *)
Record io_info : Type :=
  { io_num_inputs : Z;
    io_num_outputs : Z;
    io_info_shapes : list (list Z);
    io_info_layouts : list (list Z);
    io_info_sizes : list Z }.

(** Lines 44-76: one iteration. *)
Definition io_step (acc : io_info) (expr : IOExpression) : result io_info :=
  '(desc, etype, n_in, n_out) ←
    match get_type expr with
    | INPUT =>
        first_consumer ← match get_consumers expr with
                         | [] => Undefined
                         | c :: _ => Ok c
                         end;
        let desc := if is_rank_normalization first_consumer
                    then consumer_output_port_descriptor first_consumer
                    else get_port_descriptor expr in
        Ok (desc, element_type_size expr, wrap (io_num_inputs acc + 1), io_num_outputs acc)
    | OUTPUT =>
        Ok (get_port_descriptor expr, element_type_size expr,
            io_num_inputs acc, wrap (io_num_outputs acc + 1))
    | UNDEFINED => Throw UnsupportedIoType
    end;
  let shape := get_shape desc in
  let layout := get_layout desc in
  _ ← check_descriptor shape layout;
  Ok {| io_num_inputs := n_in;
        io_num_outputs := n_out;
        io_info_shapes := io_info_shapes acc ++ [shape];
        io_info_layouts := io_info_layouts acc ++ [layout];
        io_info_sizes := io_info_sizes acc ++ [etype] |}.

Fixpoint io_loop (acc : io_info) (io_exprs : list IOExpression) : result io_info :=
  match io_exprs with
  | [] => Ok acc
  | expr :: io_exprs' => acc ← io_step acc expr; io_loop acc io_exprs'
  end.

(** Lines 79-83: both pools are 15, 14, ..., 0. *)
Definition initial_pool : list Z := (fun i => 15 - Z.of_nat i) <$> seq 0 16.

(** Lines 86-90. *)
Definition remove_regs_from_pool (pool : list Z) (to_remove : list Z) : list Z :=
  filter (fun x => x ∉ to_remove) pool.

(** ** Register mapping *)

(** [std::map<size_t, size_t>]: the bindings, in ascending order of keys. *)
Fixpoint map_find (k : Z) (m : list (Z * Z)) : option Z :=
  match m with
  | [] => None
  | (k', v') :: m' => if bool_decide (k = k') then Some v' else map_find k m'
  end.

(** [m[k] = v]. *)
Fixpoint map_assign (k v : Z) (m : list (Z * Z)) : list (Z * Z) :=
  match m with
  | [] => [(k, v)]
  | (k', v') :: m' =>
      if bool_decide (k < k') then (k, v) :: m
      else if bool_decide (k = k') then (k, v) :: m'
      else (k', v') :: map_assign k v m'
  end.

(** jit_container_emitter::mapping_info: the abstract-to-physical map and
    the pool it draws from (the pool is held by reference: it is the
    emitter's own pool that shrinks). *)
Definition mapping_info : Type := (list (Z * Z) * list Z)%type.

(** Modelled from the spec: jit_container_emitter::map_abstract_registers is
    not in the source file.  An abstract register met for the first time
    takes a register off the pool (the last one, see the comment at line 81)
    and the request fails on an empty pool; an abstract register met again
    keeps its register. *)
Definition map_reg (mapping : mapping_info) (abstract : Z) : result (mapping_info * Z) :=
  let '(abstract_to_physical, regs_pool) := mapping in
  match map_find abstract abstract_to_physical with
  | Some physical => Ok (mapping, physical)
  | None =>
      match last regs_pool with
      | None => Throw NotEnoughRegisters
      | Some physical =>
          Ok ((map_assign abstract physical abstract_to_physical, removelast regs_pool),
              physical)
      end
  end.

(** Modelled from the spec: the registers of one expression (inputs or
    outputs), each mapped in its class. *)
Fixpoint map_regs (gpr_map_pool vec_map_pool : mapping_info) (abstract_regs : list Reg)
    : result (mapping_info * mapping_info * list Reg) :=
  match abstract_regs with
  | [] => Ok (gpr_map_pool, vec_map_pool, [])
  | r :: abstract_regs' =>
      '(gpr_map_pool, vec_map_pool, physical) ←
        match type r with
        | gpr => '(m, p) ← map_reg gpr_map_pool (idx r); Ok (m, vec_map_pool, p)
        | vec => '(m, p) ← map_reg vec_map_pool (idx r); Ok (gpr_map_pool, m, p)
        end;
      '(gpr_map_pool, vec_map_pool, physical_regs) ←
        map_regs gpr_map_pool vec_map_pool abstract_regs';
      Ok (gpr_map_pool, vec_map_pool, {| type := type r; idx := physical |} :: physical_regs)
  end.

(** Modelled from the spec: jit_container_emitter::map_abstract_registers,
    over the expressions in order; each expression gets its physical
    registers as its register info. *)
Fixpoint map_abstract_registers (gpr_map_pool vec_map_pool : mapping_info)
    (expressions : list Expression)
    : result (mapping_info * mapping_info * list Expression) :=
  match expressions with
  | [] => Ok (gpr_map_pool, vec_map_pool, [])
  | expression :: expressions' =>
      let '(in_abstract_regs, out_abstract_regs) := get_reg_info expression in
      '(gpr_map_pool, vec_map_pool, in_physical_regs) ←
        map_regs gpr_map_pool vec_map_pool in_abstract_regs;
      '(gpr_map_pool, vec_map_pool, out_physical_regs) ←
        map_regs gpr_map_pool vec_map_pool out_abstract_regs;
      let expression := {| get_node := get_node expression;
                           get_reg_info := (in_physical_regs, out_physical_regs) |} in
      '(gpr_map_pool, vec_map_pool, mapped) ←
        map_abstract_registers gpr_map_pool vec_map_pool expressions';
      Ok (gpr_map_pool, vec_map_pool, expression :: mapped)
  end.

(** ** The constructor *)

(** Where the loop at lines 102-116 puts an expression. *)
Inductive expr_class : Type := mem_access | general | skipped.

#[global] Instance expr_class_eq_dec : EqDecision expr_class.
Proof. solve_decision. Defined.

(** Lines 102-116: every expression of the body with the list it joins, and
    the buffer ids met. *)
Fixpoint classify (unique_buffers : gset Z) (body : list Expression)
    : list (expr_class * Expression) * gset Z :=
  match body with
  | [] => ([], unique_buffers)
  | expr :: body' =>
      let '(c, unique_buffers) :=
        match get_node expr with
        | IO _ => (mem_access, unique_buffers)
        | Buffer buffer_id =>
            if bool_decide (buffer_id ∈ unique_buffers) then (skipped, unique_buffers)
            else (mem_access, {[ buffer_id ]} ∪ unique_buffers)
        | Other => (general, unique_buffers)
        end in
      let '(classified, unique_buffers) := classify unique_buffers body' in
      ((c, expr) :: classified, unique_buffers)
  end.

(** [mem_access_exprs] and [general_exprs] hold pointers to the expressions
    of the body: the expressions of one class, in body order ... *)
Definition exprs_of (c : expr_class) (classified : list (expr_class * Expression))
    : list Expression :=
  snd <$> filter (fun ce => fst ce = c) classified.

(** ... and what is written through these pointers is written to the body. *)
Fixpoint write_back (c : expr_class) (classified : list (expr_class * Expression))
    (mapped : list Expression) : list (expr_class * Expression) :=
  match classified with
  | [] => []
  | (c', expr) :: classified' =>
      if bool_decide (c' = c) then
        match mapped with
        | expr' :: mapped' => (c', expr') :: write_back c classified' mapped'
        | [] => (c', expr) :: classified'
        end
      else (c', expr) :: write_back c classified' mapped
  end.

(** Lines 27-129.  [kernel] is the node of [expr] cast to a Kernel (a null
    pointer is [None]); [abi_param1] and [abi_param2] are the indices of the
    two registers of the calling convention. *)
Definition jit_kernel_emitter_ctor (abi_param1 abi_param2 : Z) (kernel : option Kernel)
    : result (jit_kernel_emitter * mapping_info * mapping_info) :=
  let reg_indexes_idx := abi_param1 in
  let reg_const_params_idx := abi_param2 in
  kernel ← match kernel with
           | None => Throw InvalidOpArgument
           | Some kernel => Ok kernel
           end;
  _ ← assert (negb (bool_decide (region kernel = []))) EmptyBody;
  jcp ← match compile_params kernel with
         | None => Throw NoCompileParams
         | Some jcp => Ok jcp
         end;
  let body := region kernel in
  let master_shape := get_master_shape kernel in
  master_shape ← insert_front master_shape
                   (wrap (parallel_executor_ndims jcp - vec_size master_shape)) 1;
  let io_exprs := get_IO_ops body in
  io ← io_loop {| io_num_inputs := 0; io_num_outputs := 0; io_info_shapes := [];
                  io_info_layouts := []; io_info_sizes := [] |} io_exprs;
  let gp_regs_pool := initial_pool in
  let vec_regs_pool := initial_pool in
  let gp_regs_pool :=
    remove_regs_from_pool gp_regs_pool [RSP; RBP; reg_indexes_idx; reg_const_params_idx] in
  let gpr_map_pool : mapping_info := ([], gp_regs_pool) in
  let vec_map_pool : mapping_info := ([], vec_regs_pool) in
  let '(classified, unique_buffers) := classify ∅ body in
  let num_unique_buffers := Z.of_nat (size unique_buffers) in
  '(gpr_map_pool, vec_map_pool, mapped) ←
    map_abstract_registers gpr_map_pool vec_map_pool (exprs_of mem_access classified);
  let classified := write_back mem_access classified mapped in
  let data_ptr_regs_idx := snd <$> fst gpr_map_pool in
  let gpr_map_pool : mapping_info :=
    (fst gpr_map_pool, snd gpr_map_pool ++ [reg_indexes_idx; reg_const_params_idx]) in
  '(gpr_map_pool, vec_map_pool, mapped) ←
    map_abstract_registers gpr_map_pool vec_map_pool (exprs_of general classified);
  let classified := write_back general classified mapped in
  Ok ({| jcp := jcp;
         gp_regs_pool := snd gpr_map_pool;
         vec_regs_pool := snd vec_map_pool;
         master_shape := master_shape;
         num_inputs := io_num_inputs io;
         num_outputs := io_num_outputs io;
         num_unique_buffers := num_unique_buffers;
         body := snd <$> classified;
         data_ptr_regs_idx := data_ptr_regs_idx;
         reg_indexes_idx := reg_indexes_idx;
         reg_const_params_idx := reg_const_params_idx;
         io_shapes := io_info_shapes io;
         io_data_layouts := io_info_layouts io;
         io_data_sizes := io_info_sizes io |},
      gpr_map_pool, vec_map_pool).

(** ** Emission *)

(** Xbyak::Reg64, by its index. *)
Definition Reg64 : Type := Z.

(** [Reg64(static_cast<int>(idx))]. *)
Definition Reg64_of_idx (idx : Z) : Reg64 := static_cast_int idx.

(** Line 15-19. *)
Definition transform_idxs_to_regs (idxs : list Z) : list Reg64 :=
  Reg64_of_idx <$> idxs.

(** Line 21-25. *)
Definition transform_snippets_regs_to_idxs (regs : list Reg) : list Z :=
  idx <$> regs.

(** [h->ptr[base + disp]]; the displacement is summed as a [size_t]. *)
Record Address : Type := { base : Reg64; disp : Z }.

(** What the generator [h] is asked to append. *)
Inductive instruction : Type :=
  | preamble
  | postamble
  | mov_load (dst : Reg64) (src : Address)     (* h->mov(reg, h->ptr[...]) *)
  | mov_imm (dst : Reg64) (imm : Z)            (* h->mov(reg, imm) *)
  | imul_load (dst : Reg64) (src : Address)    (* h->imul(reg, h->ptr[...]) *)
  | add_reg (dst src : Reg64)                  (* h->add(reg, reg) *)
  | emitter_code (in_regs out_regs pool_vec_idxs pool_gpr_idxs : list Z).
                                               (* a body emitter's emit_code *)

(** The fields of jit_snippets_call_args that GET_OFF is applied to. *)
Inductive call_args_field : Type := src_ptrs | dst_ptrs | buffer_scratchpad_ptr.

Section Emission.

(** The macro GET_OFF and the struct it measures are not in the source
    file: the byte offset of each field is a parameter. *)
Variable GET_OFF : call_args_field -> Z.

Variable self : jit_kernel_emitter.

(** Lines 192-198: iterations [j], [j+1], ... of init_ptr_with_offset. *)
Fixpoint init_ptr_loop (reg_indexes pointer : Reg64) (offsets : list Z)
    (reg_tmp : Reg64) (cnt : nat) (j : Z) : result (list instruction) :=
  match cnt with
  | O => Ok []
  | S cnt' =>
      m ← vec_get (master_shape self) j;
      code ← (if bool_decide (m <> 1) then
                o ← vec_get offsets j;
                if bool_decide (o <> 0) then
                  Ok [ mov_imm reg_tmp o;
                       imul_load reg_tmp
                         {| base := reg_indexes; disp := wrap (j * sizeof_size_t) |};
                       add_reg pointer reg_tmp ]
                else Ok []
              else Ok []);
      rest ← init_ptr_loop reg_indexes pointer offsets reg_tmp cnt' (j + 1);
      Ok (code ++ rest)
  end.

(** Lines 191-199. *)
Definition init_ptr_with_offset (offset_rank : Z) (reg_indexes pointer : Reg64)
    (offsets : list Z) (reg_tmp : Reg64) : result (list instruction) :=
  init_ptr_loop reg_indexes pointer offsets reg_tmp (Z.to_nat offset_rank) 0.

(** Lines 186-188: iterations [i], [i+1], ... *)
Fixpoint data_offsets_loop (offset_rank : Z) (cnt : nat) (i : Z)
    : result (list (list Z)) :=
  match cnt with
  | O => Ok []
  | S cnt' =>
      shape ← vec_get (io_shapes self) i;
      layout ← vec_get (io_data_layouts self) i;
      data_size ← vec_get (io_data_sizes self) i;
      offsets ← offset_calculation offset_rank shape layout data_size
                  (bool_decide (i < num_inputs self));
      rest ← data_offsets_loop offset_rank cnt' (i + 1);
      Ok (offsets :: rest)
  end.

(** Lines 211-213: iterations [i], [i+1], ... *)
Fixpoint buffers_loop (reg_const_params : Reg64) (data_ptr_regs : list Reg64)
    (num_params : Z) (cnt : nat) (i : Z) : result (list instruction) :=
  match cnt with
  | O => Ok []
  | S cnt' =>
      r ← vec_get data_ptr_regs (wrap (num_params + i));
      rest ← buffers_loop reg_const_params data_ptr_regs num_params cnt' (i + 1);
      Ok (mov_load r {| base := reg_const_params;
                        disp := wrap (GET_OFF buffer_scratchpad_ptr) |} :: rest)
  end.

(** Lines 215-221: iterations [i], [i+1], ... *)
Fixpoint pointers_loop (offset_rank : Z) (reg_indexes reg_const_params : Reg64)
    (data_ptr_regs : list Reg64) (data_offsets : list (list Z)) (reg_tmp : Reg64)
    (cnt : nat) (i : Z) : result (list instruction) :=
  match cnt with
  | O => Ok []
  | S cnt' =>
      r ← vec_get data_ptr_regs i;
      let load :=
        if bool_decide (i < num_inputs self) then
          mov_load r {| base := reg_const_params;
                        disp := wrap (GET_OFF src_ptrs + wrap (i * sizeof_void_ptr)) |}
        else
          mov_load r {| base := reg_const_params;
                        disp := wrap (GET_OFF dst_ptrs
                                      + wrap (wrap (i - num_inputs self) * sizeof_void_ptr)) |}
      in
      offsets ← vec_get data_offsets i;
      code ← init_ptr_with_offset offset_rank reg_indexes r offsets reg_tmp;
      rest ← pointers_loop offset_rank reg_indexes reg_const_params data_ptr_regs
               data_offsets reg_tmp cnt' (i + 1);
      Ok (load :: code ++ rest)
  end.

(** Lines 146-233. *)
Definition init_data_pointers (reg_indexes reg_const_params : Reg64)
    (data_ptr_regs : list Reg64) : result (list instruction) :=
  let num_params := wrap (num_inputs self + num_outputs self) in
  let offset_rank := wrap (vec_size (master_shape self) - 1) in
  data_offsets ← data_offsets_loop offset_rank (Z.to_nat num_params) 0;
  let spare_corruptable_gpr :=
    find (fun reg => bool_decide (reg <> reg_indexes_idx self)
                     && bool_decide (reg <> reg_const_params_idx self))
      (gp_regs_pool self) in
  let last_iter_explicitly := bool_decide (spare_corruptable_gpr = None) in
  reg_tmp ← match spare_corruptable_gpr with
            | None => vec_get data_ptr_regs (wrap (num_params - 1))
            | Some reg => Ok (Reg64_of_idx reg)
            end;
  buffers ← buffers_loop reg_const_params data_ptr_regs num_params
              (Z.to_nat (num_unique_buffers self)) 0;
  let stop := wrap (num_params - (if last_iter_explicitly then 1 else 0)) in
  pointers ← pointers_loop offset_rank reg_indexes reg_const_params data_ptr_regs
               data_offsets reg_tmp (Z.to_nat stop) 0;
  let i := stop in
  last ← (if last_iter_explicitly then
            r ← vec_get data_ptr_regs i;
            let load :=
              mov_load r {| base := reg_const_params;
                            disp := wrap (GET_OFF dst_ptrs
                                          + wrap (wrap (i - num_inputs self) * sizeof_void_ptr)) |}
            in
            let reg_tmp := reg_const_params in
            offsets ← vec_get data_offsets i;
            code ← init_ptr_with_offset offset_rank reg_indexes r offsets reg_tmp;
            Ok (load :: code)
          else Ok []);
  Ok (buffers ++ pointers ++ last).

(** Lines 243-249. *)
Definition emit_body : list instruction :=
  (fun expression =>
     let reg_info := get_reg_info expression in
     let in_regs := transform_snippets_regs_to_idxs (fst reg_info) in
     let out_regs := transform_snippets_regs_to_idxs (snd reg_info) in
     emitter_code in_regs out_regs (vec_regs_pool self) (gp_regs_pool self))
  <$> body self.

(** Lines 235-251. *)
Definition emit_impl (in_ out : list Z) : result (list instruction) :=
  let reg_indexes := Reg64_of_idx (reg_indexes_idx self) in
  let reg_const_params := Reg64_of_idx (reg_const_params_idx self) in
  let data_ptr_regs := transform_idxs_to_regs (data_ptr_regs_idx self) in
  pointers ← init_data_pointers reg_indexes reg_const_params data_ptr_regs;
  Ok ([preamble] ++ pointers ++ emit_body ++ [postamble]).

(** Lines 137-144. *)
Definition validate_arguments (in_ out : list Z) : result unit :=
  _ ← assert (bool_decide (in_ = [])) (InvalidNumberOfInputs (vec_size in_));
  _ ← assert (bool_decide (out = [])) (InvalidNumberOfOutputs (vec_size out));
  let num_params :=
    wrap (wrap (num_inputs self + num_outputs self) + num_unique_buffers self) in
  assert (bool_decide (vec_size (data_ptr_regs_idx self) = num_params))
    (InconsistentRegisters num_params (vec_size (data_ptr_regs_idx self))).

(** Lines 131-135. *)
Definition emit_code (in_ out pool_vec_idx pool_gpr_idxs : list Z)
    : result (list instruction) :=
  _ ← validate_arguments in_ out;
  emit_impl in_ out.

End Emission.

(** * Vocabulary of the properties *)

(** The product the loop accumulates in [dim_step], before wrap-around. *)
Definition list_prod (l : list Z) : Z := foldr Z.mul 1 l.

(** A layout of rank n is a permutation of 0, ..., n-1. *)
Definition is_permutation (layout : list Z) : Prop :=
  layout ≡ₚ seqZ 0 (vec_size layout).

(** [inverse] undoes [layout]: inverse[layout[i]] = i for every i. *)
Definition is_inverse (layout inverse : list Z) : Prop :=
  length inverse = length layout
  /\ forall (i : nat) (l : Z), layout !! i = Some l ->
       inverse !! Z.to_nat l = Some (Z.of_nat i).

(** What the constructor's checks leave of a layout, as far as the reorder
    needs it: no layout at all, or one of the rank of the shape whose
    entries are valid axes. *)
Definition layout_in_range (n : nat) (layout : list Z) : Prop :=
  layout = []
  \/ (length layout = n /\ Forall (fun x => 0 <= x < Z.of_nat n) layout).

#[global] Instance layout_in_range_dec n layout : Decision (layout_in_range n layout).
Proof. unfold layout_in_range. apply _. Defined.

Definition is_arity_error (e : exception) : Prop :=
  match e with
  | InvalidNumberOfInputs _ | InvalidNumberOfOutputs _ => True
  | _ => False
  end.

Definition is_allocation_consistency_error (e : exception) : Prop :=
  match e with
  | InconsistentRegisters _ _ => True
  | _ => False
  end.

(** The count validate_arguments compares the data-pointer registers with. *)
Definition expected_data_ptr_regs (self : jit_kernel_emitter) : Z :=
  wrap (wrap (num_inputs self + num_outputs self) + num_unique_buffers self).

(** The registers a mapping holds: those assigned and those in its pool. *)
Definition registers_of (mapping : mapping_info) : list Z :=
  (snd <$> fst mapping) ++ snd mapping.

(** The register an instruction writes, and the register it addresses
    memory through. *)
Definition written (ins : instruction) : option Reg64 :=
  match ins with
  | mov_load dst _ | mov_imm dst _ | imul_load dst _ | add_reg dst _ => Some dst
  | _ => None
  end.

Definition loads_from (ins : instruction) : option Reg64 :=
  match ins with
  | mov_load _ src | imul_load _ src => Some (base src)
  | _ => None
  end.

(** The three instructions of one step of offset accumulation into
    [pointer], with [reg_tmp] as the scratch register. *)
Definition accumulation_instr (reg_indexes pointer reg_tmp : Reg64) (ins : instruction)
    : Prop :=
  (exists imm, ins = mov_imm reg_tmp imm)
  \/ (exists d, ins = imul_load reg_tmp {| base := reg_indexes; disp := d |})
  \/ ins = add_reg pointer reg_tmp.

(** What init_data_pointers relies on, tensor by tensor: a rank between 1
    and that of the master shape, and a layout the reorder can follow. *)
Definition tensor_ok (master_shape shape layout : list Z) : Prop :=
  shape <> []
  /\ (length shape <= length master_shape)%nat
  /\ vec_size shape < 2 ^ 31
  /\ layout_in_range (length shape) layout.

#[global] Instance tensor_ok_dec m s l : Decision (tensor_ok m s l).
Proof. unfold tensor_ok. apply _. Defined.

Definition tensors_ok (self : jit_kernel_emitter) : Prop :=
  0 <= num_inputs self
  /\ 0 <= num_outputs self
  /\ vec_size (io_shapes self) = num_inputs self + num_outputs self
  /\ length (io_data_sizes self) = length (io_shapes self)
  /\ vec_size (master_shape self) <= vector_max_size
  /\ Forall2 (tensor_ok (master_shape self)) (io_shapes self) (io_data_layouts self).

#[global] Instance tensors_ok_dec self : Decision (tensors_ok self).
Proof. unfold tensors_ok. apply _. Defined.

(** What it relies on for the registers it is given: one register per
    tensor and per buffer, all distinct, none of them one of the two
    registers of the calling convention. *)
Definition registers_ok (self : jit_kernel_emitter)
    (reg_indexes reg_const_params : Reg64) (data_ptr_regs : list Reg64) : Prop :=
  0 <= num_unique_buffers self
  /\ vec_size data_ptr_regs
     = num_inputs self + num_outputs self + num_unique_buffers self
  /\ vec_size data_ptr_regs < size_t_modulus
  /\ NoDup data_ptr_regs
  /\ (reg_indexes ∉ data_ptr_regs)
  /\ (reg_const_params ∉ data_ptr_regs)
  /\ reg_indexes <> reg_const_params.

#[global] Instance registers_ok_dec self ri rc regs : Decision (registers_ok self ri rc regs).
Proof. unfold registers_ok. apply _. Defined.

(** No spare register: every member of the pool is one of the two reserved
    registers. *)
Definition no_spare_gpr (self : jit_kernel_emitter) : Prop :=
  Forall (fun reg => reg = reg_indexes_idx self \/ reg = reg_const_params_idx self)
    (gp_regs_pool self).

#[global] Instance no_spare_gpr_dec self : Decision (no_spare_gpr self).
Proof. unfold no_spare_gpr. apply _. Defined.

(** The instructions for one tensor: the load of its base pointer from the
    parameter block, from the output array or from the input array, then
    the accumulation of its offsets. *)
Definition pointer_block (GET_OFF : call_args_field -> Z) (self : jit_kernel_emitter)
    (reg_indexes reg_const_params : Reg64) (from_dst : bool) (i : Z)
    (r reg_tmp : Reg64) (block : list instruction) : Prop :=
  exists acc,
    block =
      mov_load r
        {| base := reg_const_params;
           disp := if from_dst
                   then wrap (GET_OFF dst_ptrs
                              + wrap (wrap (i - num_inputs self) * sizeof_void_ptr))
                   else wrap (GET_OFF src_ptrs + wrap (i * sizeof_void_ptr)) |}
      :: acc
    /\ Forall (accumulation_instr reg_indexes r reg_tmp) acc.

(** The identity layout of rank n: 0, 1, ..., n-1. *)
Definition identity_layout (n : nat) : list Z := seqZ 0 (Z.of_nat n).

(** The stride vector before its last entry is dropped: the raw strides,
    reordered when there is a layout (lines 161-177). *)
Definition reordered_strides_of (shape layout : list Z) (data_size : Z)
    (is_input : bool) : result (list Z) :=
  strides ← raw_strides shape data_size;
  match layout with
  | [] => Ok strides
  | _ => reorder_strides strides layout is_input
  end.

(** What one dimension contributes to the initialisation of a pointer:
    nothing when the master extent is 1 or the offset is 0, else the offset
    times the runtime index of the dimension, read 8 * j bytes into the
    index vector, added to the pointer through the scratch register. *)
Definition offset_step (reg_indexes pointer reg_tmp : Reg64) (j : nat)
    (extent offset : Z) : list instruction :=
  if bool_decide (extent <> 1) && bool_decide (offset <> 0) then
    [ mov_imm reg_tmp offset;
      imul_load reg_tmp {| base := reg_indexes; disp := 8 * Z.of_nat j |};
      add_reg pointer reg_tmp ]
  else [].

#[global] Instance io_type_eq_dec : EqDecision io_type.
Proof. solve_decision. Defined.

(** The descriptor the constructor takes for an IO expression (lines 47-63):
    that of the first consumer of an input when it is a RankNormalization,
    the expression's own otherwise. *)
Definition resolved_descriptor (expr : IOExpression) : PortDescriptor :=
  match get_type expr, get_consumers expr with
  | INPUT, first_consumer :: _ =>
      if is_rank_normalization first_consumer
      then consumer_output_port_descriptor first_consumer
      else get_port_descriptor expr
  | _, _ => get_port_descriptor expr
  end.

(** How many of the IO expressions have the type [t]. *)
Definition count_io (t : io_type) (io_exprs : list IOExpression) : Z :=
  Z.of_nat (length (filter (fun expr => get_type expr = t) io_exprs)).

(** The ids of the buffer expressions of a body, in body order. *)
Definition buffer_ids (body : list Expression) : list Z :=
  omap (fun expr => match get_node expr with Buffer id => Some id | _ => None end) body.

(** Whether an expression is neither an IO expression nor a buffer. *)
Definition is_other (expr : Expression) : bool :=
  match get_node expr with
  | Other => true
  | _ => false
  end.

(** The offsets init_data_pointers binds [data_offsets] to (lines 148-151
    and 186-188): one offset calculation per tensor, tensor i with the
    role [i < num_inputs]. *)
Definition data_offsets_of (self : jit_kernel_emitter) : result (list (list Z)) :=
  data_offsets_loop self (wrap (vec_size (master_shape self) - 1))
    (Z.to_nat (wrap (num_inputs self + num_outputs self))) 0.

(** The byte offset, in the parameter block, of the entry that holds the
    base pointer of tensor k: entry k of the input array for an input,
    entry k - num_inputs of the output array for an output. *)
Definition tensor_entry (GET_OFF : call_args_field -> Z) (self : jit_kernel_emitter)
    (k : Z) : Z :=
  if bool_decide (k < num_inputs self)
  then wrap (GET_OFF src_ptrs + 8 * k)
  else wrap (GET_OFF dst_ptrs + 8 * (k - num_inputs self)).

(** The accumulation of the offsets of a tensor into its pointer: the steps
    of the outer dimensions, in order. *)
Definition accumulation (master_shape : list Z) (reg_indexes pointer reg_tmp : Reg64)
    (offsets : list Z) : list instruction :=
  mjoin (imap (fun j mo => offset_step reg_indexes pointer reg_tmp j (fst mo) (snd mo))
           (zip master_shape offsets)).

(** The instructions that initialise the pointer of tensor k in the register
    r with the scratch register reg_tmp: the load of the tensor's entry of
    the parameter block, then the accumulation of its offsets. *)
Definition pointer_code (GET_OFF : call_args_field -> Z) (self : jit_kernel_emitter)
    (reg_indexes reg_const_params : Reg64) (k : Z) (r reg_tmp : Reg64)
    (offsets : list Z) : list instruction :=
  mov_load r {| base := reg_const_params; disp := tensor_entry GET_OFF self k |}
  :: accumulation (master_shape self) reg_indexes r reg_tmp offsets.

(** The loads of the buffer pointers into the registers [regs]. *)
Definition buffer_loads (GET_OFF : call_args_field -> Z) (reg_const_params : Reg64)
    (regs : list Reg64) : list instruction :=
  (fun r => mov_load r {| base := reg_const_params;
                          disp := wrap (GET_OFF buffer_scratchpad_ptr) |}) <$> regs.

(** The initialisation of all data pointers, given the offsets of the
    tensors and the scratch register for each tensor: the buffers, in the
    registers after those of the tensors, then tensor after tensor. *)
Definition data_pointers_code (GET_OFF : call_args_field -> Z) (self : jit_kernel_emitter)
    (reg_indexes reg_const_params : Reg64) (data_ptr_regs : list Reg64)
    (data_offsets : list (list Z)) (scratch : nat -> Reg64) : list instruction :=
  buffer_loads GET_OFF reg_const_params (drop (length data_offsets) data_ptr_regs)
  ++ concat (imap (fun k ro => pointer_code GET_OFF self reg_indexes reg_const_params
                                 (Z.of_nat k) (fst ro) (scratch k) (snd ro))
               (zip data_ptr_regs data_offsets)).

(** The emitter with another pool of general-purpose registers. *)
Definition with_gp_regs_pool (self : jit_kernel_emitter) (pool : list Z)
    : jit_kernel_emitter :=
  {| jcp := jcp self;
     gp_regs_pool := pool;
     vec_regs_pool := vec_regs_pool self;
     master_shape := master_shape self;
     num_inputs := num_inputs self;
     num_outputs := num_outputs self;
     num_unique_buffers := num_unique_buffers self;
     body := body self;
     data_ptr_regs_idx := data_ptr_regs_idx self;
     reg_indexes_idx := reg_indexes_idx self;
     reg_const_params_idx := reg_const_params_idx self;
     io_shapes := io_shapes self;
     io_data_layouts := io_data_layouts self;
     io_data_sizes := io_data_sizes self |}.

(** The loads from memory into a register that a code holds, in order: the
    register written and the displacement read. *)
Definition base_pointer_loads (code : list instruction) : list (Reg64 * Z) :=
  omap (fun ins => match ins with
                   | mov_load dst src => Some (dst, disp src)
                   | _ => None
                   end) code.

(** * Kernels and emitter states for the examples *)

(** The offsets of jit_snippets_call_args with arrays of 12 pointers, for
    the examples. *)
Definition GET_OFF_12 (field : call_args_field) : Z :=
  match field with
  | src_ptrs => 0
  | dst_ptrs => 96
  | buffer_scratchpad_ptr => 192
  end.

(** An emitter state with one input, one output and a single data-pointer
    register, as when both IO expressions were given the same abstract
    register (the body is left out). *)
Definition emitter_one_reg_two_tensors : jit_kernel_emitter :=
  {| jcp := {| parallel_executor_ndims := 6 |};
     gp_regs_pool := [15; 14; 13; 12; 11; 10; 9; 8; 3; 2; 1; 7; 6];
     vec_regs_pool := initial_pool;
     master_shape := [1; 1; 1; 2; 3; 4];
     num_inputs := 1;
     num_outputs := 1;
     num_unique_buffers := 0;
     body := [];
     data_ptr_regs_idx := [0];
     reg_indexes_idx := 7;
     reg_const_params_idx := 6;
     io_shapes := [[2; 3; 4]; [2; 3; 4]];
     io_data_layouts := [[0; 1; 2]; [0; 1; 2]];
     io_data_sizes := [4; 4] |}.

(** An emitter state with one input and one output of shape [2; 3; 4] and
    a data-pointer register for each (the body is left out). *)
Definition emitter_two_tensors : jit_kernel_emitter :=
  {| jcp := {| parallel_executor_ndims := 6 |};
     gp_regs_pool := [15; 14; 13; 12; 11; 10; 9; 8; 3; 2; 7; 6];
     vec_regs_pool := initial_pool;
     master_shape := [1; 1; 1; 2; 3; 4];
     num_inputs := 1;
     num_outputs := 1;
     num_unique_buffers := 0;
     body := [];
     data_ptr_regs_idx := [0; 1];
     reg_indexes_idx := 7;
     reg_const_params_idx := 6;
     io_shapes := [[2; 3; 4]; [2; 3; 4]];
     io_data_layouts := [[0; 1; 2]; [0; 1; 2]];
     io_data_sizes := [4; 4] |}.

(** A kernel whose only tensor, an output, has rank 0. *)
Definition kernel_rank_0 : Kernel :=
  {| region :=
       [ {| get_node := IO {| get_type := OUTPUT;
                              get_port_descriptor := {| get_shape := []; get_layout := [] |};
                              element_type_size := 4;
                              get_consumers := [] |};
            get_reg_info := ([ {| type := gpr; idx := 0 |} ], []) |} ];
     get_master_shape := [];
     compile_params := Some {| parallel_executor_ndims := 6 |} |}.

(** A kernel of one input and one output of shape [2; 3; 4], with a general
    node between them that uses a general-purpose register of its own
    (abstract register 2). *)
Definition kernel_two_tensors : Kernel :=
  let desc := {| get_shape := [2; 3; 4]; get_layout := [0; 1; 2] |} in
  {| region :=
       [ {| get_node := IO {| get_type := INPUT;
                              get_port_descriptor := desc;
                              element_type_size := 4;
                              get_consumers :=
                                [ {| is_rank_normalization := false;
                                     consumer_output_port_descriptor := desc |} ] |};
            get_reg_info := ([], [ {| type := gpr; idx := 0 |} ]) |};
         {| get_node := Other;
            get_reg_info := ([ {| type := gpr; idx := 0 |}; {| type := gpr; idx := 2 |} ],
                             [ {| type := vec; idx := 0 |} ]) |};
         {| get_node := Other;
            get_reg_info := ([ {| type := vec; idx := 0 |} ],
                             [ {| type := gpr; idx := 1 |} ]) |};
         {| get_node := IO {| get_type := OUTPUT;
                              get_port_descriptor := desc;
                              element_type_size := 4;
                              get_consumers := [] |};
            get_reg_info := ([ {| type := gpr; idx := 1 |} ], []) |} ];
     get_master_shape := [2; 3; 4];
     compile_params := Some {| parallel_executor_ndims := 6 |} |}.

(** The indices of abi_param1 (rdi) and abi_param2 (rsi) in the System V
    calling convention, for the examples. *)
Definition rdi : Z := 7.
Definition rsi : Z := 6.

(** An IO expression of shape [2; 3; 4] and element size 4 that holds its
    pointer in the abstract register [a]. *)
Definition io_expression (t : io_type) (a : Z) : Expression :=
  let desc := {| get_shape := [2; 3; 4]; get_layout := [0; 1; 2] |} in
  {| get_node :=
       IO {| get_type := t;
             get_port_descriptor := desc;
             element_type_size := 4;
             get_consumers :=
               match t with
               | INPUT => [ {| is_rank_normalization := false;
                               consumer_output_port_descriptor := desc |} ]
               | _ => []
               end |};
     get_reg_info :=
       match t with
       | INPUT => ([], [ {| type := gpr; idx := a |} ])
       | _ => ([ {| type := gpr; idx := a |} ], [])
       end |}.

(** A node that computes in vector registers only. *)
Definition vector_node : Expression :=
  {| get_node := Other;
     get_reg_info := ([ {| type := vec; idx := 0 |} ], [ {| type := vec; idx := 1 |} ]) |}.

(** Ten inputs, a buffer and an output: twelve data pointers, as many as the
    pool holds once the four reserved registers are gone. *)
Definition kernel_starved : Kernel :=
  {| region :=
       (io_expression INPUT <$> seqZ 0 10)
       ++ [ {| get_node := Buffer 0;
               get_reg_info := ([ {| type := gpr; idx := 11 |} ],
                                [ {| type := gpr; idx := 11 |} ]) |};
            vector_node;
            io_expression OUTPUT 10 ];
     get_master_shape := [2; 3; 4];
     compile_params := Some {| parallel_executor_ndims := 6 |} |}.

(** Eleven inputs and a buffer, and no output. *)
Definition kernel_starved_inputs_only : Kernel :=
  {| region :=
       (io_expression INPUT <$> seqZ 0 11)
       ++ [ {| get_node := Buffer 0;
               get_reg_info := ([ {| type := gpr; idx := 11 |} ],
                                [ {| type := gpr; idx := 11 |} ]) |};
            vector_node ];
     get_master_shape := [2; 3; 4];
     compile_params := Some {| parallel_executor_ndims := 6 |} |}.

(** Twelve buffers of distinct ids and no tensor at all. *)
Definition kernel_buffers_only : Kernel :=
  {| region :=
       (fun id => {| get_node := Buffer id;
                     get_reg_info := ([ {| type := gpr; idx := id |} ],
                                      [ {| type := gpr; idx := id |} ]) |})
       <$> seqZ 0 12;
     get_master_shape := [2; 3; 4];
     compile_params := Some {| parallel_executor_ndims := 6 |} |}.

(** A kernel whose master shape has more dimensions than the parallel
    executor. *)
Definition kernel_long_master : Kernel :=
  {| region := [ io_expression OUTPUT 0 ];
     get_master_shape := [1; 1; 1; 1; 2; 3; 4];
     compile_params := Some {| parallel_executor_ndims := 6 |} |}.

(** A body with three buffer expressions of two ids between an input and an
    output. *)
Definition kernel_shared_buffer : Kernel :=
  let buffer id a :=
    {| get_node := Buffer id;
       get_reg_info := ([ {| type := gpr; idx := a |} ], [ {| type := gpr; idx := a |} ]) |} in
  {| region := [ io_expression INPUT 0; buffer 7 2; vector_node; buffer 7 2;
                 buffer 8 3; io_expression OUTPUT 1 ];
     get_master_shape := [2; 3; 4];
     compile_params := Some {| parallel_executor_ndims := 6 |} |}.

(** An emitter state with one input and one output of shape [2; 3; 4], both
    with the layout [1; 2; 0] (the body is left out). *)
Definition emitter_transposed : jit_kernel_emitter :=
  {| jcp := {| parallel_executor_ndims := 6 |};
     gp_regs_pool := [15; 14; 13; 12; 11; 10; 9; 8; 3; 2; 7; 6];
     vec_regs_pool := initial_pool;
     master_shape := [1; 1; 1; 2; 3; 4];
     num_inputs := 1;
     num_outputs := 1;
     num_unique_buffers := 0;
     body := [];
     data_ptr_regs_idx := [0; 1];
     reg_indexes_idx := 7;
     reg_const_params_idx := 6;
     io_shapes := [[2; 3; 4]; [2; 3; 4]];
     io_data_layouts := [[1; 2; 0]; [1; 2; 0]];
     io_data_sizes := [4; 4] |}.

(** The state [emitter_two_tensors] once the nodes of the body have taken
    every other register: the pool holds the two reserved registers only. *)
Definition emitter_two_tensors_starved : jit_kernel_emitter :=
  with_gp_regs_pool emitter_two_tensors [7; 6].

(** Twelve inputs, no buffer and no output. *)
Definition kernel_twelve_inputs : Kernel :=
  {| region := (io_expression INPUT <$> seqZ 0 12) ++ [ vector_node ];
     get_master_shape := [2; 3; 4];
     compile_params := Some {| parallel_executor_ndims := 6 |} |}.

(** Eleven inputs and an output of rank 7, one more than the padded master
    shape has. *)
Definition kernel_starved_rank_7 : Kernel :=
  let desc := {| get_shape := [1; 1; 1; 1; 2; 3; 4];
                 get_layout := [0; 1; 2; 3; 4; 5; 6] |} in
  {| region :=
       (io_expression INPUT <$> seqZ 0 11)
       ++ [ vector_node;
            {| get_node := IO {| get_type := OUTPUT;
                                 get_port_descriptor := desc;
                                 element_type_size := 4;
                                 get_consumers := [] |};
               get_reg_info := ([ {| type := gpr; idx := 11 |} ], []) |} ];
     get_master_shape := [2; 3; 4];
     compile_params := Some {| parallel_executor_ndims := 6 |} |}.

(** * Properties *)

(** ** Vectors and size_t *)

Lemma bind_Ok {A B : Type} (r : result A) (k : A -> result B) (b : B) :
  (r ≫= k) = Ok b -> exists a, r = Ok a /\ k a = Ok b.
Proof. destruct r as [a| |]; [|done..]. intros H. by exists a. Qed.

Lemma wrap_small (x : Z) : 0 <= x < size_t_modulus -> wrap x = x.
Proof. intros H. unfold wrap. by apply Z.mod_small. Qed.

Lemma wrap_mul_l (a b : Z) : wrap (wrap a * b) = wrap (a * b).
Proof. unfold wrap. by rewrite Z.mul_mod_idemp_l. Qed.

Lemma size_t_modulus_eq : size_t_modulus = 18446744073709551616.
Proof. reflexivity. Qed.

Lemma vector_max_size_eq : vector_max_size = 1152921504606846975.
Proof. reflexivity. Qed.

Lemma static_cast_int_small (x : Z) : 0 <= x < 2 ^ 31 -> static_cast_int x = x.
Proof.
  intros H. unfold static_cast_int.
  rewrite Z.mod_small; lia.
Qed.

Lemma vec_get_lookup {A : Type} (v : list A) (i : nat) (x : A) :
  v !! i = Some x -> vec_get v (Z.of_nat i) = Ok x.
Proof.
  intros H. unfold vec_get, vec_size.
  pose proof (lookup_lt_Some _ _ _ H).
  rewrite bool_decide_eq_true_2 by lia.
  by rewrite Nat2Z.id, H.
Qed.

Lemma vec_get_lookup_Z {A : Type} (v : list A) (i : Z) (x : A) :
  0 <= i -> v !! Z.to_nat i = Some x -> vec_get v i = Ok x.
Proof.
  intros Hi H. rewrite <- (Z2Nat.id i) by done. by apply vec_get_lookup.
Qed.

Lemma vec_get_Ok {A : Type} (v : list A) (i : Z) (x : A) :
  vec_get v i = Ok x -> 0 <= i /\ v !! Z.to_nat i = Some x.
Proof.
  unfold vec_get. case_bool_decide; [|done].
  destruct (v !! Z.to_nat i) eqn:E; [|done].
  intros [= ->]. split; [lia | done].
Qed.

Lemma vec_set_lt {A : Type} (v : list A) (i : nat) (x : A) :
  (i < length v)%nat -> vec_set v (Z.of_nat i) x = Ok (<[i := x]> v).
Proof.
  intros H. unfold vec_set, vec_size.
  rewrite bool_decide_eq_true_2 by lia.
  by rewrite Nat2Z.id.
Qed.

Lemma vec_set_lt_Z {A : Type} (v : list A) (i : Z) (x : A) :
  0 <= i < vec_size v -> vec_set v i x = Ok (<[Z.to_nat i := x]> v).
Proof.
  intros H. unfold vec_set. by rewrite bool_decide_eq_true_2.
Qed.

Lemma vec_set_Ok {A : Type} (v v' : list A) (i : Z) (x : A) :
  vec_set v i x = Ok v' ->
  0 <= i < vec_size v /\ v' = <[Z.to_nat i := x]> v.
Proof.
  unfold vec_set. case_bool_decide; [|done]. by intros [= <-].
Qed.

Lemma removelast_length {A : Type} (v : list A) :
  length (removelast v) = pred (length v).
Proof.
  induction v as [|x [|y v] IH]; [done..|].
  change (removelast (x :: y :: v)) with (x :: removelast (y :: v)).
  cbn [length] in *. by rewrite IH.
Qed.

Lemma removelast_lookup {A : Type} (v : list A) (i : nat) :
  (S i < length v)%nat -> removelast v !! i = v !! i.
Proof.
  revert i. induction v as [|x [|y v] IH]; intros i H; cbn [length] in H; [lia..|].
  change (removelast (x :: y :: v)) with (x :: removelast (y :: v)).
  destruct i as [|i]; [done|]. cbn. apply IH. cbn [length]. lia.
Qed.

(** ** Raw strides *)

Lemma strides_loop_spec (shape : list Z) (data_size : Z) :
  forall (cnt : nat) (dim_step : Z) (strides : list Z),
    (S cnt <= length shape)%nat ->
    length strides = length shape ->
    dim_step = wrap (list_prod (drop (S cnt) shape)) ->
    exists strides',
      strides_loop shape data_size cnt dim_step strides = Ok strides'
      /\ length strides' = length shape
      /\ (forall k, (cnt <= k)%nat -> strides' !! k = strides !! k)
      /\ (forall k s_k, (k < cnt)%nat -> shape !! k = Some s_k ->
            strides' !! k =
              Some (if bool_decide (s_k <> 1)
                    then wrap (list_prod (drop (S k) shape) * data_size) else 0)).
Proof.
  induction cnt as [|k IH]; intros dim_step strides Hcnt Hlen Hstep.
  - exists strides. cbn. split; [done|]. split; [done|]. split; [done|]. intros; lia.
  - destruct (lookup_lt_is_Some_2 shape (S k)) as [s_next Hnext]; [lia|].
    destruct (lookup_lt_is_Some_2 shape k) as [s_k Hk]; [lia|].
    cbn [strides_loop].
    replace (Z.of_nat k + 1) with (Z.of_nat (S k)) by lia.
    rewrite (vec_get_lookup _ _ _ Hnext). cbn [mbind result_bind].
    rewrite (vec_get_lookup _ _ _ Hk). cbn [mbind result_bind].
    rewrite vec_set_lt by lia. cbn [mbind result_bind].
    assert (Hdrop : drop (S k) shape = s_next :: drop (S (S k)) shape)
      by (by apply drop_S).
    assert (Hstep' : wrap (dim_step * s_next) = wrap (list_prod (drop (S k) shape))).
    { rewrite Hstep, wrap_mul_l, Hdrop. unfold list_prod. cbn [foldr].
      by rewrite Z.mul_comm. }
    edestruct (IH (wrap (dim_step * s_next))
                 (<[k := if bool_decide (s_k <> 1)
                         then wrap (wrap (dim_step * s_next) * data_size) else 0]> strides))
      as (strides' & Hrun & Hlen' & Hkeep & Hnew); [lia| |done|].
    { by rewrite length_insert. }
    exists strides'. split; [done|]. split; [done|]. split.
    + intros j Hj. rewrite Hkeep by lia. apply list_lookup_insert_ne. lia.
    + intros j s_j Hj Hsj. destruct (decide (j = k)) as [->|Hne].
      * rewrite Hkeep by lia. rewrite list_lookup_insert_eq by lia.
        rewrite Hk in Hsj. injection Hsj as <-.
        by rewrite Hstep', wrap_mul_l.
      * apply Hnew; [lia|done].
Qed.

(** The raw stride vector of a shape of rank at least 1. *)
Lemma raw_strides_spec (shape : list Z) (data_size : Z) :
  shape <> [] ->
  vec_size shape < 2 ^ 31 ->
  exists strides,
    raw_strides shape data_size = Ok strides
    /\ length strides = length shape
    /\ strides !! pred (length shape) = Some 1
    /\ (forall k s_k, (S k < length shape)%nat -> shape !! k = Some s_k ->
          strides !! k =
            Some (if bool_decide (s_k <> 1)
                  then wrap (list_prod (drop (S k) shape) * data_size) else 0)).
Proof.
  intros Hne Hsmall. unfold raw_strides, vec_size in *.
  assert (Hpos : (0 < length shape)%nat) by (destruct shape; [done | cbn; lia]).
  rewrite wrap_small by (rewrite size_t_modulus_eq; lia).
  replace (Z.of_nat (length shape) - 1) with (Z.of_nat (pred (length shape))) by lia.
  rewrite vec_set_lt by (rewrite length_replicate; lia).
  cbn [mbind result_bind].
  rewrite static_cast_int_small by lia.
  rewrite (proj2 (Z.ltb_ge _ _)) by lia.
  replace (Z.to_nat (Z.of_nat (length shape) - 2 + 1)) with (pred (length shape)) by lia.
  edestruct (strides_loop_spec shape data_size (pred (length shape)) 1
               (<[pred (length shape) := 1]> (replicate (length shape) 0)))
    as (strides' & Hrun & Hlen' & Hkeep & Hnew); [lia| | |].
  { by rewrite length_insert, length_replicate. }
  { replace (S (pred (length shape))) with (length shape) by lia.
    by rewrite drop_all. }
  exists strides'. split; [done|]. split; [done|]. split.
  - rewrite Hkeep by lia. apply list_lookup_insert_eq.
    rewrite length_replicate. lia.
  - intros k s_k Hk Hsk. apply Hnew; [lia|done].
Qed.

Lemma raw_strides_empty (data_size : Z) : raw_strides [] data_size = Undefined.
Proof. reflexivity. Qed.

(** ** Reordering through the layout *)

Lemma is_permutation_elem_of (layout : list Z) (x : Z) :
  is_permutation layout -> x ∈ layout <-> 0 <= x < vec_size layout.
Proof.
  intros H. unfold is_permutation in H. rewrite H at 1.
  rewrite elem_of_seqZ. lia.
Qed.

Lemma is_permutation_NoDup (layout : list Z) : is_permutation layout -> NoDup layout.
Proof. intros H. unfold is_permutation in H. rewrite H. apply NoDup_seqZ. Qed.

Lemma is_permutation_range (layout : list Z) :
  is_permutation layout -> Forall (fun x => 0 <= x < vec_size layout) layout.
Proof.
  intros H. apply Forall_forall. intros x Hx.
  by apply is_permutation_elem_of.
Qed.

Lemma reorder_loop_input (strides : list Z) :
  forall (rest : list Z) (i : nat) (r : list Z),
    length r = length strides ->
    (i + length rest <= length strides)%nat ->
    Forall (fun x => 0 <= x < vec_size strides) rest ->
    exists r',
      reorder_loop strides true rest (Z.of_nat i) r = Ok r'
      /\ length r' = length strides
      /\ (forall j, (j < i)%nat -> r' !! j = r !! j)
      /\ (forall j l, rest !! j = Some l -> r' !! (i + j)%nat = strides !! Z.to_nat l).
Proof.
  induction rest as [|l rest IH]; intros i r Hlen Hi Hrange.
  - exists r. cbn. split; [done|]. split; [done|]. split; [done|]. intros j l [=].
  - apply Forall_cons in Hrange as [Hl Hrange]. cbn [length] in Hi.
    unfold vec_size in Hl.
    destruct (lookup_lt_is_Some_2 strides (Z.to_nat l)) as [s Hs]; [lia|].
    cbn [reorder_loop].
    rewrite (vec_get_lookup_Z _ _ _ (proj1 Hl) Hs). cbn [mbind result_bind].
    rewrite vec_set_lt by lia. cbn [mbind result_bind].
    replace (Z.of_nat i + 1) with (Z.of_nat (S i)) by lia.
    destruct (IH (S i) (<[i := s]> r)) as (r' & Hrun & Hlen' & Hkeep & Hnew);
      [by rewrite length_insert | lia | done |].
    exists r'. split; [done|]. split; [done|]. split.
    + intros j Hj. rewrite Hkeep by lia. apply list_lookup_insert_ne. lia.
    + intros [|j] l' Hj.
      * injection Hj as <-. rewrite Nat.add_0_r, Hkeep by lia.
        rewrite list_lookup_insert_eq by lia. done.
      * replace (i + S j)%nat with (S i + j)%nat by lia. by apply Hnew.
Qed.

Lemma reorder_loop_output (strides : list Z) :
  forall (rest : list Z) (i : nat) (r : list Z),
    length r = length strides ->
    (i + length rest <= length strides)%nat ->
    Forall (fun x => 0 <= x < vec_size strides) rest ->
    NoDup rest ->
    exists r',
      reorder_loop strides false rest (Z.of_nat i) r = Ok r'
      /\ length r' = length strides
      /\ (forall p, Z.of_nat p ∉ rest -> r' !! p = r !! p)
      /\ (forall j l, rest !! j = Some l -> r' !! Z.to_nat l = strides !! (i + j)%nat).
Proof.
  induction rest as [|l rest IH]; intros i r Hlen Hi Hrange Hnodup.
  - exists r. cbn. split; [done|]. split; [done|]. split; [done|]. intros j l [=].
  - apply Forall_cons in Hrange as [Hl Hrange]. cbn [length] in Hi.
    apply NoDup_cons in Hnodup as [Hfresh Hnodup].
    unfold vec_size in Hl.
    destruct (lookup_lt_is_Some_2 strides i) as [s Hs]; [lia|].
    cbn [reorder_loop].
    rewrite (vec_get_lookup _ _ _ Hs). cbn [mbind result_bind].
    rewrite vec_set_lt_Z by (unfold vec_size; lia). cbn [mbind result_bind].
    replace (Z.of_nat i + 1) with (Z.of_nat (S i)) by lia.
    destruct (IH (S i) (<[Z.to_nat l := s]> r)) as (r' & Hrun & Hlen' & Hkeep & Hnew);
      [by rewrite length_insert | lia | done | done |].
    exists r'. split; [done|]. split; [done|]. split.
    + intros p Hp. apply not_elem_of_cons in Hp as [Hpl Hp].
      rewrite Hkeep by done. apply list_lookup_insert_ne. lia.
    + intros [|j] l' Hj.
      * injection Hj as <-. rewrite Nat.add_0_r, Hkeep.
        -- rewrite list_lookup_insert_eq by lia. done.
        -- by rewrite Z2Nat.id by lia.
      * replace (i + S j)%nat with (S i + j)%nat by lia. by apply Hnew.
Qed.

(** The reorder of a stride vector through a layout of the same rank:
    it returns, and each entry is where the direction puts it. *)
Lemma reorder_strides_spec (strides layout : list Z) (is_input : bool) :
  length layout = length strides ->
  is_permutation layout ->
  exists reordered,
    reorder_strides strides layout is_input = Ok reordered
    /\ length reordered = length strides
    /\ (forall i l, layout !! i = Some l ->
          if is_input then reordered !! i = strides !! Z.to_nat l
          else reordered !! Z.to_nat l = strides !! i).
Proof.
  intros Hlen Hperm. unfold reorder_strides.
  pose proof (is_permutation_range _ Hperm) as Hrange.
  unfold vec_size in Hrange. rewrite Hlen in Hrange.
  destruct is_input.
  - destruct (reorder_loop_input strides layout 0 (replicate (length strides) 0))
      as (r' & Hrun & Hlen' & _ & Hnew); [by rewrite length_replicate | lia | done |].
    exists r'. split; [done|]. split; [done|]. intros i l Hi. by apply (Hnew i).
  - destruct (reorder_loop_output strides layout 0 (replicate (length strides) 0))
      as (r' & Hrun & Hlen' & _ & Hnew);
      [by rewrite length_replicate | lia | done | by apply is_permutation_NoDup |].
    exists r'. split; [done|]. split; [done|]. intros i l Hi. by apply (Hnew i).
Qed.

(** ** The raw stride vector (claims C1 and C2) *)

(** C1, as stated, fails on the code: in the shape [3; 1] the innermost
    dimension has extent 1 and the raw stride vector gives it stride 1; an
    input layout [1; 0] carries that 1 into the final offsets. *)
Lemma unit_innermost_dim_stride_not_zero :
  ~ (forall (k : nat) (strides : list Z),
       raw_strides [3; 1] 4 = Ok strides ->
       [3; 1] !! k = Some 1 ->
       strides !! k = Some 0)
  /\ offset_calculation 1 [3; 1] [1; 0] 4 true = Ok [1].
Proof.
  split; [|reflexivity].
  intros H. specialize (H 1%nat [4; 1] eq_refl eq_refl). discriminate H.
Qed.

(** C1 (amended): every dimension other than the innermost whose extent is 1
    gets raw stride 0, wherever it stands among the outer dimensions and
    whatever its neighbours; the innermost raw stride is 1 whatever its
    extent. *)
Theorem raw_strides_outer_unit_dim (shape : list Z) (data_size : Z) (k : nat) :
  vec_size shape < 2 ^ 31 ->
  (S k < length shape)%nat ->
  shape !! k = Some 1 ->
  exists strides,
    raw_strides shape data_size = Ok strides
    /\ strides !! k = Some 0
    /\ strides !! pred (length shape) = Some 1.
Proof.
  intros Hsmall Hk Hunit.
  destruct (raw_strides_spec shape data_size) as (strides & Hrun & _ & Hlast & Hrest);
    [by destruct shape | done |].
  exists strides. split; [done|]. split; [|done].
  by rewrite (Hrest k 1 Hk Hunit).
Qed.

Lemma raw_strides_outer_unit_dim_witness :
  vec_size [5; 1; 7] < 2 ^ 31
  /\ (2 < length [5; 1; 7])%nat
  /\ [5; 1; 7] !! 1%nat = Some 1
  /\ exists strides,
       raw_strides [5; 1; 7] 8 = Ok strides
       /\ strides !! 1%nat = Some 0
       /\ strides !! 2%nat = Some 1.
Proof.
  split; [reflexivity|]. split; [cbn; lia|]. split; [reflexivity|].
  apply (raw_strides_outer_unit_dim [5; 1; 7] 8 1);
    [reflexivity | cbn; lia | reflexivity].
Defined.

(** C2, as stated, fails on the code: the innermost raw stride is 1, not
    the element size; the shape [2; 3; 4] with element size 4 has raw
    strides [48; 16; 1]. *)
Lemma raw_strides_2_3_4_not_48_16_4 :
  raw_strides [2; 3; 4] 4 = Ok [48; 16; 1]
  /\ raw_strides [2; 3; 4] 4 <> Ok [48; 16; 4].
Proof. split; [reflexivity | discriminate]. Qed.

(** C2 (amended): for a non-empty shape s[0..n-1] and element size e the raw
    stride vector has stride[n-1] = 1 and, for k < n-1, stride[k] is the
    product of s[k+1..n-1] times e (in size_t arithmetic, modulo 2^64) when
    s[k] != 1 and 0 otherwise; the shape [2; 3; 4] with element size 4 has
    raw strides [48; 16; 1]. *)
Theorem raw_strides_formula :
  (forall (shape : list Z) (data_size : Z),
     shape <> [] ->
     vec_size shape < 2 ^ 31 ->
     exists strides,
       raw_strides shape data_size = Ok strides
       /\ length strides = length shape
       /\ strides !! pred (length shape) = Some 1
       /\ (forall k s_k, (S k < length shape)%nat -> shape !! k = Some s_k ->
             strides !! k =
               Some (if bool_decide (s_k <> 1)
                     then (list_prod (drop (S k) shape) * data_size) mod 2 ^ 64
                     else 0)))
  /\ raw_strides [2; 3; 4] 4 = Ok [48; 16; 1].
Proof.
  split; [|reflexivity].
  intros shape data_size Hne Hsmall. by apply raw_strides_spec.
Qed.

Lemma raw_strides_formula_witness :
  [5; 1; 7] <> []
  /\ vec_size [5; 1; 7] < 2 ^ 31
  /\ exists strides,
       raw_strides [5; 1; 7] 8 = Ok strides
       /\ length strides = 3%nat
       /\ strides !! 2%nat = Some 1
       /\ (forall k s_k, (S k < 3)%nat -> [5; 1; 7] !! k = Some s_k ->
             strides !! k =
               Some (if bool_decide (s_k <> 1)
                     then (list_prod (drop (S k) [5; 1; 7]) * 8) mod 2 ^ 64
                     else 0)).
Proof.
  split; [discriminate|]. split; [reflexivity|].
  apply (proj1 raw_strides_formula [5; 1; 7] 8); [discriminate | reflexivity].
Defined.

(** ** The round trip of the reorder (claim C8) *)

Lemma is_permutation_1_2_0 : is_permutation [1; 2; 0].
Proof.
  unfold is_permutation. change (seqZ 0 (vec_size [1; 2; 0])) with [0; 1; 2].
  apply (bool_decide_unpack _). by vm_compute.
Qed.

(** C8, as stated, fails on the code: with the layout [1; 2; 0], whose
    inverse is [2; 0; 1], the input reorder followed by the output reorder
    with the inverse turns [10; 20; 30] into [30; 10; 20]. *)
Lemma round_trip_with_inverse_fails :
  is_permutation [1; 2; 0]
  /\ is_inverse [1; 2; 0] [2; 0; 1]
  /\ (reordered ← reorder_strides [10; 20; 30] [1; 2; 0] true;
      reorder_strides reordered [2; 0; 1] false) = Ok [30; 10; 20]
  /\ (reordered ← reorder_strides [10; 20; 30] [1; 2; 0] true;
      reorder_strides reordered [2; 0; 1] false) <> Ok [10; 20; 30].
Proof.
  split; [exact is_permutation_1_2_0|]. split.
  - split; [reflexivity|]. intros [|[|[|i]]] l [=]; subst; reflexivity.
  - split; [reflexivity | discriminate].
Qed.

(** C8 (amended): for every stride vector and every permutation layout of
    the same length, the input-direction reorder followed by the
    output-direction reorder with the same layout gives the stride vector
    back. *)
Theorem reorder_round_trip (strides layout : list Z) :
  length layout = length strides ->
  is_permutation layout ->
  exists reordered,
    reorder_strides strides layout true = Ok reordered
    /\ reorder_strides reordered layout false = Ok strides.
Proof.
  intros Hlen Hperm.
  destruct (reorder_strides_spec strides layout true Hlen Hperm)
    as (r1 & Hrun1 & Hlen1 & Hdir1).
  assert (Hlen1' : length layout = length r1) by congruence.
  destruct (reorder_strides_spec r1 layout false Hlen1' Hperm)
    as (r2 & Hrun2 & Hlen2 & Hdir2).
  exists r1. split; [done|]. rewrite Hrun2. f_equal.
  apply list_eq. intros p.
  destruct (decide (p < length strides)%nat) as [Hp|Hp].
  - assert (Hin : Z.of_nat p ∈ layout).
    { apply is_permutation_elem_of; [done|]. unfold vec_size. lia. }
    apply list_elem_of_lookup in Hin as [i Hi].
    specialize (Hdir1 i _ Hi). specialize (Hdir2 i _ Hi). cbn in Hdir1, Hdir2.
    rewrite Nat2Z.id in Hdir1, Hdir2. congruence.
  - rewrite !lookup_ge_None_2; [done | lia | lia].
Qed.

Lemma reorder_round_trip_witness :
  length [1; 2; 0] = length [10; 20; 30]
  /\ is_permutation [1; 2; 0]
  /\ exists reordered,
       reorder_strides [10; 20; 30] [1; 2; 0] true = Ok reordered
       /\ reorder_strides reordered [1; 2; 0] false = Ok [10; 20; 30].
Proof.
  split; [reflexivity|]. split; [exact is_permutation_1_2_0|].
  apply (reorder_round_trip [10; 20; 30] [1; 2; 0]);
    [reflexivity | exact is_permutation_1_2_0].
Defined.

(** ** The final offsets (claim C4) *)

Lemma reorder_loop_ok (strides : list Z) (is_input : bool) :
  forall (rest : list Z) (i : nat) (r : list Z),
    length r = length strides ->
    (i + length rest <= length strides)%nat ->
    Forall (fun x => 0 <= x < vec_size strides) rest ->
    exists r',
      reorder_loop strides is_input rest (Z.of_nat i) r = Ok r'
      /\ length r' = length strides.
Proof.
  induction rest as [|l rest IH]; intros i r Hlen Hi Hrange.
  - by exists r.
  - apply Forall_cons in Hrange as [Hl Hrange]. cbn [length] in Hi.
    unfold vec_size in Hl.
    destruct (lookup_lt_is_Some_2 strides (Z.to_nat l)) as [s Hs]; [lia|].
    destruct (lookup_lt_is_Some_2 strides i) as [s' Hs']; [lia|].
    cbn [reorder_loop].
    replace (Z.of_nat i + 1) with (Z.of_nat (S i)) by lia.
    destruct is_input.
    + rewrite (vec_get_lookup_Z _ _ _ (proj1 Hl) Hs). cbn [mbind result_bind].
      rewrite vec_set_lt by lia. cbn [mbind result_bind].
      apply IH; [by rewrite length_insert | lia | done].
    + rewrite (vec_get_lookup _ _ _ Hs'). cbn [mbind result_bind].
      rewrite vec_set_lt_Z by (unfold vec_size; lia). cbn [mbind result_bind].
      apply IH; [by rewrite length_insert | lia | done].
Qed.

Lemma offset_calculation_ok (master_shape shape layout : list Z) (data_size : Z)
    (is_input : bool) :
  shape <> [] ->
  (length shape <= length master_shape)%nat ->
  vec_size shape < 2 ^ 31 ->
  vec_size master_shape <= vector_max_size ->
  layout_in_range (length shape) layout ->
  exists offsets,
    offset_calculation (wrap (vec_size master_shape - 1)) shape layout data_size is_input
      = Ok offsets
    /\ vec_size offsets = vec_size master_shape - 1.
Proof.
  intros Hne Hrank Hsmall Hmax Hlayout. unfold offset_calculation.
  destruct (raw_strides_spec shape data_size Hne Hsmall) as (strides & -> & Hlen & _).
  cbn [mbind result_bind].
  assert (Hpos : (0 < length shape)%nat) by (destruct shape; [done | cbn; lia]).
  assert (exists strides',
            match layout with
            | [] => Ok strides
            | _ :: _ => reorder_strides strides layout is_input
            end = Ok strides'
            /\ length strides' = length shape) as (strides' & -> & Hlen').
  { destruct Hlayout as [-> | [Hl Hrange]]; [by exists strides|].
    destruct layout as [|l0 layout]; [by exists strides|].
    unfold reorder_strides.
    destruct (reorder_loop_ok strides is_input (l0 :: layout) 0
                (replicate (length strides) 0)) as (r' & Hrun & Hr');
      [by rewrite length_replicate | lia | by unfold vec_size; rewrite Hlen |].
    exists r'. split; [done | congruence]. }
  cbn [mbind result_bind]. unfold pop_back.
  destruct strides' as [|s0 strides']; [cbn in Hlen'; lia|].
  cbn [mbind result_bind]. unfold insert_front, vec_size in *.
  rewrite removelast_length, Hlen'.
  rewrite vector_max_size_eq in *.
  rewrite (wrap_small (Z.of_nat (length master_shape) - 1))
    by (rewrite size_t_modulus_eq; lia).
  rewrite wrap_small by (rewrite size_t_modulus_eq; lia).
  rewrite (proj2 (Z.ltb_ge _ _)) by lia.
  eexists. split; [done|].
  rewrite length_app, length_replicate, removelast_length, Hlen'. lia.
Qed.

(** C4, as stated, fails on the code: for a shape of rank 3 under a master
    shape of rank 2 the count of padding zeros underflows and the insertion
    throws, so no stride vector of length 1 is produced. *)
Lemma offsets_of_longer_shape_throw :
  offset_calculation (wrap (vec_size [6; 4] - 1)) [2; 3; 4] [0; 1; 2] 4 true
    = Throw LengthError
  /\ ~ (exists offsets,
          offset_calculation (wrap (vec_size [6; 4] - 1)) [2; 3; 4] [0; 1; 2] 4 true
            = Ok offsets
          /\ vec_size offsets = vec_size [6; 4] - 1).
Proof.
  split; [reflexivity|]. intros (offsets & H & _). discriminate H.
Qed.

Lemma offset_calculation_length (master_shape shape layout : list Z) (data_size : Z)
    (is_input : bool) (offsets : list Z) :
  vec_size master_shape <= vector_max_size ->
  offset_calculation (wrap (vec_size master_shape - 1)) shape layout data_size is_input
    = Ok offsets ->
  vec_size offsets = vec_size master_shape - 1.
Proof.
  intros Hmax H. unfold offset_calculation in H.
  apply bind_Ok in H as (strides & _ & H).
  apply bind_Ok in H as (strides' & _ & H).
  apply bind_Ok in H as (strides'' & _ & H).
  unfold insert_front in H.
  destruct (Z.ltb_spec (vector_max_size - vec_size strides'')
              (wrap (wrap (vec_size master_shape - 1) - vec_size strides'')))
    as [|Hfit]; [done|].
  injection H as <-.
  unfold vec_size in *. rewrite length_app, length_replicate.
  unfold wrap in *. rewrite Zminus_mod_idemp_l in *.
  rewrite vector_max_size_eq in *. rewrite size_t_modulus_eq in *.
  pose proof (Z.mod_pos_bound
                (Z.of_nat (length master_shape) - 1 - Z.of_nat (length strides''))
                18446744073709551616 ltac:(lia)) as Hbound.
  pose proof (Z.div_mod
                (Z.of_nat (length master_shape) - 1 - Z.of_nat (length strides''))
                18446744073709551616 ltac:(lia)) as Hdiv.
  lia.
Qed.

(** C4 (amended): whenever the offset calculation returns a stride vector
    (after dropping the innermost entry and left-padding with zeros), whatever
    the tensor's own shape length, the vector has length exactly
    len(master_shape) - 1; and it returns one for every tensor of rank at
    least 1 and at most len(master_shape). *)
Theorem offsets_length (master_shape shape layout : list Z) (data_size : Z)
    (is_input : bool) :
  vec_size master_shape <= vector_max_size ->
  (forall offsets,
     offset_calculation (wrap (vec_size master_shape - 1)) shape layout data_size is_input
       = Ok offsets ->
     vec_size offsets = vec_size master_shape - 1)
  /\ (shape <> [] ->
      (length shape <= length master_shape)%nat ->
      vec_size shape < 2 ^ 31 ->
      layout_in_range (length shape) layout ->
      exists offsets,
        offset_calculation (wrap (vec_size master_shape - 1)) shape layout data_size is_input
          = Ok offsets
        /\ vec_size offsets = vec_size master_shape - 1).
Proof.
  intros Hmax. split.
  - intros offsets. by apply offset_calculation_length.
  - intros Hne Hrank Hsmall Hlayout. by apply offset_calculation_ok.
Qed.

Lemma offsets_length_witness :
  vec_size [1; 1; 1; 2; 3; 4] <= vector_max_size
  /\ [2; 3; 4] <> []
  /\ (length [2; 3; 4] <= length [1; 1; 1; 2; 3; 4])%nat
  /\ vec_size [2; 3; 4] < 2 ^ 31
  /\ layout_in_range (length [2; 3; 4]) [0; 2; 1]
  /\ offset_calculation (wrap (vec_size [1; 1; 1; 2; 3; 4] - 1)) [2; 3; 4] [0; 2; 1] 4 false
     = Ok [0; 0; 0; 48; 1]
  /\ vec_size [0; 0; 0; 48; 1] = vec_size [1; 1; 1; 2; 3; 4] - 1
  /\ exists offsets,
       offset_calculation (wrap (vec_size [1; 1; 1; 2; 3; 4] - 1)) [2; 3; 4] [0; 2; 1] 4 false
         = Ok offsets
       /\ vec_size offsets = vec_size [1; 1; 1; 2; 3; 4] - 1.
Proof.
  assert (Hmax : vec_size [1; 1; 1; 2; 3; 4] <= vector_max_size)
    by (vm_compute; discriminate).
  assert (Hlayout : layout_in_range (length [2; 3; 4]) [0; 2; 1])
    by (apply (bool_decide_unpack _); vm_compute; exact I).
  split; [exact Hmax|]. split; [discriminate|]. split; [cbn; lia|].
  split; [reflexivity|]. split; [exact Hlayout|]. split; [reflexivity|].
  split.
  - apply (proj1 (offsets_length [1; 1; 1; 2; 3; 4] [2; 3; 4] [0; 2; 1] 4 false Hmax)).
    reflexivity.
  - apply (proj2 (offsets_length [1; 1; 1; 2; 3; 4] [2; 3; 4] [0; 2; 1] 4 false Hmax));
      [discriminate | cbn; lia | reflexivity | exact Hlayout].
Defined.

(** ** Validation of the arguments (claim C7) *)

(** C7, as stated, fails on the code: with a nonempty input argument list
    and a register count that differs from the expected one, the failure is
    the argument-arity error, not the allocation-consistency error. *)
Lemma arity_error_masks_inconsistent_count :
  vec_size (data_ptr_regs_idx emitter_one_reg_two_tensors)
    <> expected_data_ptr_regs emitter_one_reg_two_tensors
  /\ emit_code GET_OFF_12 emitter_one_reg_two_tensors [0] [] [] []
     = Throw (InvalidNumberOfInputs 1)
  /\ ~ (exists e, validate_arguments emitter_one_reg_two_tensors [0] [] = Throw e
                  /\ is_allocation_consistency_error e).
Proof.
  split; [vm_compute; discriminate|]. split; [reflexivity|].
  intros (e & H & He). vm_compute in H. injection H as <-. exact He.
Qed.

(** C7 (amended): validation fails with an argument-arity error if and only
    if the input or the output argument list is nonempty; it fails with an
    allocation-consistency error if and only if both lists are empty and the
    count of data-pointer registers differs from
    num_inputs + num_outputs + num_unique_buffers; when both checks pass,
    the entry point proceeds to emission. *)
Theorem validate_arguments_outcome (GET_OFF : call_args_field -> Z)
    (self : jit_kernel_emitter) (in_ out pool_vec_idx pool_gpr_idxs : list Z) :
  ((exists e, validate_arguments self in_ out = Throw e /\ is_arity_error e)
     <-> in_ <> [] \/ out <> [])
  /\ ((exists e, validate_arguments self in_ out = Throw e
                 /\ is_allocation_consistency_error e)
        <-> in_ = [] /\ out = []
            /\ vec_size (data_ptr_regs_idx self) <> expected_data_ptr_regs self)
  /\ (forall e, validate_arguments self in_ out = Throw e ->
        emit_code GET_OFF self in_ out pool_vec_idx pool_gpr_idxs = Throw e)
  /\ (in_ = [] -> out = [] ->
      vec_size (data_ptr_regs_idx self) = expected_data_ptr_regs self ->
      validate_arguments self in_ out = Ok tt
      /\ emit_code GET_OFF self in_ out pool_vec_idx pool_gpr_idxs
         = emit_impl GET_OFF self in_ out).
Proof.
  unfold emit_code, validate_arguments, expected_data_ptr_regs, assert.
  destruct (decide (in_ = [])) as [Hin|Hin].
  2: { rewrite (bool_decide_eq_false_2 _ Hin). cbn [mbind result_bind].
       split_and!.
       - split; [intros _; by left | intros _; by eexists].
       - split; [intros (e & [= <-] & []) | intros (? & _); done].
       - intros e [= <-]. done.
       - intros ?. done. }
  rewrite (bool_decide_eq_true_2 _ Hin). cbn [mbind result_bind].
  destruct (decide (out = [])) as [Hout|Hout].
  2: { rewrite (bool_decide_eq_false_2 _ Hout). cbn [mbind result_bind].
       split_and!.
       - split; [intros _; by right | intros _; by eexists].
       - split; [intros (e & [= <-] & []) | intros (_ & ? & _); done].
       - intros e [= <-]. done.
       - intros _ ?. done. }
  rewrite (bool_decide_eq_true_2 _ Hout). cbn [mbind result_bind].
  case_bool_decide as Hcount; cbn [mbind result_bind].
  - split_and!.
    + split; [intros (e & [=] & _) | intros [|]; done].
    + split; [intros (e & [=] & _) | intros (_ & _ & ?); done].
    + intros e [=].
    + intros _ _ _. done.
  - split_and!.
    + split; [intros (e & [= <-] & []) | intros [|]; done].
    + split; [done | intros _; by eexists].
    + intros e [= <-]. done.
    + intros _ _ ?. done.
Qed.

Lemma validate_arguments_outcome_witness :
  vec_size (data_ptr_regs_idx emitter_two_tensors)
    = expected_data_ptr_regs emitter_two_tensors
  /\ validate_arguments emitter_two_tensors [] [] = Ok tt
  /\ emit_code GET_OFF_12 emitter_two_tensors [] [] [] []
     = emit_impl GET_OFF_12 emitter_two_tensors [] []
  /\ validate_arguments emitter_two_tensors [] [3] = Throw (InvalidNumberOfOutputs 1)
  /\ emit_code GET_OFF_12 emitter_two_tensors [] [3] [] []
     = Throw (InvalidNumberOfOutputs 1).
Proof.
  split; [reflexivity|].
  destruct (validate_arguments_outcome GET_OFF_12 emitter_two_tensors [] [] [] [])
    as (_ & _ & _ & Hpass).
  destruct (validate_arguments_outcome GET_OFF_12 emitter_two_tensors [] [3] [] [])
    as (_ & _ & Hthrow & _).
  destruct (Hpass eq_refl eq_refl eq_refl) as [Hvalid Hemit].
  split; [exact Hvalid|]. split; [exact Hemit|]. split; [reflexivity|].
  apply Hthrow. reflexivity.
Defined.

(** ** Rank at least 1 (claim C10) *)

Lemma check_descriptor_Ok (shape layout : list Z) :
  check_descriptor shape layout = Ok tt ->
  shape <> [] /\ layout <> [] /\ length layout = length shape
  /\ Forall (fun x => x < vec_size shape) layout.
Proof.
  unfold check_descriptor, assert, vec_size.
  case_bool_decide as Hlen; [|done]. cbn [mbind result_bind].
  destruct layout as [|l0 layout]; [done|]. cbn [max_element mbind result_bind].
  case_bool_decide as Hmax; [|done]. intros _.
  split; [destruct shape; [cbn in Hlen; lia | done]|].
  split; [done|]. split; [lia|].
  clear Hlen. revert l0 Hmax.
  induction layout as [|l1 layout IH]; intros l0 Hmax; cbn [foldl] in Hmax.
  - by repeat constructor.
  - specialize (IH _ Hmax). apply Forall_cons in IH as [H1 IH].
    constructor; [lia|]. constructor; [lia | done].
Qed.

Lemma io_step_shapes (acc io : io_info) (expr : IOExpression) :
  io_step acc expr = Ok io ->
  exists shape layout,
    io_info_shapes io = io_info_shapes acc ++ [shape]
    /\ io_info_layouts io = io_info_layouts acc ++ [layout]
    /\ check_descriptor shape layout = Ok tt.
Proof.
  unfold io_step. intros H.
  apply bind_Ok in H as ([[[desc etype] n_in] n_out] & _ & H).
  apply bind_Ok in H as ([] & Hcheck & [= <-]).
  by exists (get_shape desc), (get_layout desc).
Qed.

Lemma io_loop_shapes (io_exprs : list IOExpression) :
  forall (acc io : io_info),
    io_loop acc io_exprs = Ok io ->
    Forall2 (fun shape layout => check_descriptor shape layout = Ok tt)
      (io_info_shapes acc) (io_info_layouts acc) ->
    Forall2 (fun shape layout => check_descriptor shape layout = Ok tt)
      (io_info_shapes io) (io_info_layouts io).
Proof.
  induction io_exprs as [|expr io_exprs IH]; intros acc io H Hacc.
  - by injection H as <-.
  - cbn [io_loop] in H. apply bind_Ok in H as (acc' & Hstep & H).
    apply (IH _ _ H).
    destruct (io_step_shapes _ _ _ Hstep) as (shape & layout & -> & -> & Hcheck).
    apply Forall2_app; [done|]. by repeat constructor.
Qed.

Lemma ctor_descriptors_checked (abi_param1 abi_param2 : Z) (kernel : option Kernel)
    (emitter : jit_kernel_emitter) (gpr_map_pool vec_map_pool : mapping_info) :
  jit_kernel_emitter_ctor abi_param1 abi_param2 kernel
    = Ok (emitter, gpr_map_pool, vec_map_pool) ->
  Forall2 (fun shape layout => check_descriptor shape layout = Ok tt)
    (io_shapes emitter) (io_data_layouts emitter).
Proof.
  unfold jit_kernel_emitter_ctor. intros H.
  apply bind_Ok in H as (k & _ & H).
  apply bind_Ok in H as (_ & _ & H).
  apply bind_Ok in H as (jcp0 & _ & H).
  apply bind_Ok in H as (ms & _ & H).
  apply bind_Ok in H as (io & Hio & H).
  destruct (classify ∅ (region k)) as [classified unique_buffers].
  apply bind_Ok in H as ([[g1 v1] mapped1] & _ & H).
  apply bind_Ok in H as ([[g2 v2] mapped2] & _ & H).
  injection H as <- _ _. cbn.
  apply (io_loop_shapes _ _ _ Hio). constructor.
Qed.

(** C10: every IO tensor must have rank at least 1.  The descriptor checks
    take the maximum of the layout, which is undefined for an empty layout,
    so that a descriptor of rank 0 has no defined outcome and a descriptor
    that passes has rank at least 1; the stride computation writes position
    shape.size() - 1, which underflows for an empty shape, so that the offset
    calculation has no defined outcome there; and whenever the constructor
    returns, every tensor it recorded has rank at least 1. *)
Theorem rank_at_least_one :
  max_element [] = Undefined
  /\ check_descriptor [] [] = Undefined
  /\ (forall shape layout,
        check_descriptor shape layout = Ok tt -> (1 <= length shape)%nat)
  /\ wrap (vec_size (@nil Z) - 1) = 2 ^ 64 - 1
  /\ (forall offset_rank layout data_size is_input,
        offset_calculation offset_rank [] layout data_size is_input = Undefined)
  /\ (forall offset_rank shape layout data_size is_input offsets,
        offset_calculation offset_rank shape layout data_size is_input = Ok offsets ->
        (1 <= length shape)%nat)
  /\ jit_kernel_emitter_ctor 7 6 (Some kernel_rank_0) = Undefined
  /\ (forall abi_param1 abi_param2 kernel emitter gpr_map_pool vec_map_pool,
        jit_kernel_emitter_ctor abi_param1 abi_param2 kernel
          = Ok (emitter, gpr_map_pool, vec_map_pool) ->
        Forall (fun shape => (1 <= length shape)%nat) (io_shapes emitter)).
Proof.
  split_and!; try reflexivity.
  - intros shape layout H. apply check_descriptor_Ok in H as [H _].
    destruct shape; [done | cbn; lia].
  - intros offset_rank [|s shape] layout data_size is_input offsets H;
      [discriminate H | cbn; lia].
  - intros abi_param1 abi_param2 kernel emitter gpr_map_pool vec_map_pool H.
    apply ctor_descriptors_checked in H.
    induction H as [|shape layout shapes layouts Hcheck _ IH]; constructor; [|done].
    apply check_descriptor_Ok in Hcheck as [Hne _].
    destruct shape; [done | cbn; lia].
Qed.

Lemma rank_at_least_one_witness :
  check_descriptor [2; 3; 4] [0; 2; 1] = Ok tt
  /\ (1 <= length [2; 3; 4])%nat
  /\ offset_calculation 5 [2; 3; 4] [0; 2; 1] 4 true = Ok [0; 0; 0; 48; 1]
  /\ exists emitter gpr_map_pool vec_map_pool,
       jit_kernel_emitter_ctor rdi rsi (Some kernel_two_tensors)
         = Ok (emitter, gpr_map_pool, vec_map_pool)
       /\ Forall (fun shape => (1 <= length shape)%nat) (io_shapes emitter).
Proof.
  destruct rank_at_least_one as (_ & _ & Hcheck & _ & _ & Hoffsets & _ & Hctor).
  split; [reflexivity|]. split; [|split; [reflexivity|]].
  - apply (Hoffsets 5 [2; 3; 4] [0; 2; 1] 4 true [0; 0; 0; 48; 1]). reflexivity.
  - eexists _, _, _. split; [vm_compute; reflexivity|].
    eapply (Hctor rdi rsi (Some kernel_two_tensors)). vm_compute. reflexivity.
Defined.

(** ** Register allocation (claim C6) *)

Lemma map_find_elem_of (m : list (Z * Z)) (a p : Z) :
  map_find a m = Some p -> p ∈ snd <$> m.
Proof.
  induction m as [|[k v] m IH]; [done|]. cbn [map_find fmap list_fmap snd].
  case_bool_decide.
  - intros [= ->]. apply list_elem_of_here.
  - intros H'. apply list_elem_of_further. by apply IH.
Qed.

Lemma map_find_inj (m : list (Z * Z)) (a1 a2 p : Z) :
  NoDup (snd <$> m) ->
  map_find a1 m = Some p -> map_find a2 m = Some p -> a1 = a2.
Proof.
  induction m as [|[k v] m IH]; [done|]. cbn [map_find fmap list_fmap snd].
  intros [Hfresh Hnodup]%NoDup_cons.
  do 2 case_bool_decide; intros H1 H2.
  - congruence.
  - injection H1 as ->. by apply map_find_elem_of in H2.
  - injection H2 as ->. by apply map_find_elem_of in H1.
  - by apply IH.
Qed.

Lemma map_assign_values (k v : Z) (m : list (Z * Z)) :
  map_find k m = None -> snd <$> map_assign k v m ≡ₚ v :: (snd <$> m).
Proof.
  induction m as [|[k' v'] m IH]; [done|]. cbn [map_find map_assign].
  case_bool_decide as Heq; [done|]. intros Hfind.
  case_bool_decide; [done|]. cbn [fmap list_fmap snd].
  rewrite (IH Hfind). apply perm_swap.
Qed.

Lemma map_reg_registers (mapping mapping' : mapping_info) (abstract physical : Z) :
  map_reg mapping abstract = Ok (mapping', physical) ->
  registers_of mapping' ≡ₚ registers_of mapping.
Proof.
  destruct mapping as [m pool]. unfold map_reg, registers_of.
  destruct (map_find abstract m) eqn:Hfind; [by intros [= <- _]|].
  destruct (last pool) as [r|] eqn:Hlast; [|done]. intros [= <- _].
  apply last_Some in Hlast as [pool' ->]. cbn [fst snd].
  rewrite removelast_last, (map_assign_values _ _ _ Hfind).
  cbn [app]. rewrite (Permutation_app_comm pool' [r]). cbn [app].
  by rewrite <- Permutation_middle.
Qed.

Lemma map_regs_registers (abstract_regs : list Reg) :
  forall (g v g' v' : mapping_info) (physical_regs : list Reg),
    map_regs g v abstract_regs = Ok (g', v', physical_regs) ->
    registers_of g' ≡ₚ registers_of g /\ registers_of v' ≡ₚ registers_of v.
Proof.
  induction abstract_regs as [|r regs IH]; intros g v g' v' physical_regs H.
  - by injection H as <- <- _.
  - cbn [map_regs] in H.
    apply bind_Ok in H as ([[g1 v1] p] & Hone & H).
    apply bind_Ok in H as ([[g2 v2] ps] & Hrest & [= <- <- _]).
    destruct (IH _ _ _ _ _ Hrest) as [-> ->].
    destruct (type r).
    + apply bind_Ok in Hone as ([m q] & Hreg & [= <- <- _]).
      by rewrite (map_reg_registers _ _ _ _ Hreg).
    + apply bind_Ok in Hone as ([m q] & Hreg & [= <- <- _]).
      by rewrite (map_reg_registers _ _ _ _ Hreg).
Qed.

Lemma map_abstract_registers_registers (expressions : list Expression) :
  forall (g v g' v' : mapping_info) (mapped : list Expression),
    map_abstract_registers g v expressions = Ok (g', v', mapped) ->
    registers_of g' ≡ₚ registers_of g /\ registers_of v' ≡ₚ registers_of v.
Proof.
  induction expressions as [|expression expressions IH]; intros g v g' v' mapped H.
  - by injection H as <- <- _.
  - cbn [map_abstract_registers] in H.
    destruct (get_reg_info expression) as [ins outs].
    apply bind_Ok in H as ([[g1 v1] ps1] & Hin & H).
    apply bind_Ok in H as ([[g2 v2] ps2] & Hout & H).
    apply bind_Ok in H as ([[g3 v3] es] & Hrest & [= <- <- _]).
    destruct (IH _ _ _ _ _ Hrest) as [-> ->].
    destruct (map_regs_registers _ _ _ _ _ _ Hout) as [-> ->].
    by destruct (map_regs_registers _ _ _ _ _ _ Hin) as [-> ->].
Qed.

Lemma initial_pool_NoDup : NoDup initial_pool.
Proof. apply (bool_decide_unpack _). by vm_compute. Qed.

Lemma remove_regs_from_pool_NoDup (pool to_remove : list Z) :
  NoDup pool -> NoDup (remove_regs_from_pool pool to_remove).
Proof. apply NoDup_filter. Qed.

Lemma elem_of_remove_regs_from_pool (pool to_remove : list Z) (x : Z) :
  x ∈ remove_regs_from_pool pool to_remove <-> (x ∉ to_remove) /\ (x ∈ pool).
Proof. unfold remove_regs_from_pool. apply (list_elem_of_filter (fun x => x ∉ to_remove)). Qed.

(** What the constructor's two rounds of mapping leave. *)
Lemma ctor_registers (abi_param1 abi_param2 : Z) (kernel : option Kernel)
    (emitter : jit_kernel_emitter) (gpr_map_pool vec_map_pool : mapping_info) :
  jit_kernel_emitter_ctor abi_param1 abi_param2 kernel
    = Ok (emitter, gpr_map_pool, vec_map_pool) ->
  let pool := remove_regs_from_pool initial_pool [RSP; RBP; abi_param1; abi_param2] in
  registers_of gpr_map_pool ≡ₚ pool ++ [abi_param1; abi_param2]
  /\ registers_of vec_map_pool ≡ₚ initial_pool
  /\ (forall r, r ∈ data_ptr_regs_idx emitter -> r ∈ pool)
  /\ NoDup (data_ptr_regs_idx emitter)
  /\ gp_regs_pool emitter = snd gpr_map_pool
  /\ reg_indexes_idx emitter = abi_param1
  /\ reg_const_params_idx emitter = abi_param2.
Proof.
  unfold jit_kernel_emitter_ctor. intros H.
  apply bind_Ok in H as (k & _ & H).
  apply bind_Ok in H as (_ & _ & H).
  apply bind_Ok in H as (jcp0 & _ & H).
  apply bind_Ok in H as (ms & _ & H).
  apply bind_Ok in H as (io & _ & H).
  destruct (classify ∅ (region k)) as [classified unique_buffers].
  apply bind_Ok in H as ([[g1 v1] mapped1] & Hmap1 & H).
  apply bind_Ok in H as ([[g2 v2] mapped2] & Hmap2 & H).
  injection H as <- <- <-. cbn [fst snd].
  apply map_abstract_registers_registers in Hmap1 as [Hg1 Hv1].
  apply map_abstract_registers_registers in Hmap2 as [Hg2 Hv2].
  unfold registers_of in *. cbn [fst snd fmap list_fmap app] in *.
  assert (Hpool : NoDup (remove_regs_from_pool initial_pool
                           [RSP; RBP; abi_param1; abi_param2]))
    by apply remove_regs_from_pool_NoDup, initial_pool_NoDup.
  generalize dependent (remove_regs_from_pool initial_pool
                          [RSP; RBP; abi_param1; abi_param2]).
  intros pool Hg1 Hpool.
  cbn [data_ptr_regs_idx gp_regs_pool reg_indexes_idx reg_const_params_idx].
  split_and!; [| | | |reflexivity..].
  - by rewrite Hg2, app_assoc, Hg1.
  - by rewrite Hv2, Hv1.
  - intros r Hr. rewrite <- Hg1. apply elem_of_app. by left.
  - rewrite <- Hg1 in Hpool. by apply NoDup_app in Hpool as [? _].
Qed.

(** C6, as stated, fails on the code: the constructor returns abi_param1 and
    abi_param2 to the pool before it maps the general nodes, and the general
    node of the kernel above gets the parameter-block register for its
    abstract register 2. *)
Lemma general_node_gets_reserved_register :
  exists emitter gpr_map_pool vec_map_pool,
    jit_kernel_emitter_ctor rdi rsi (Some kernel_two_tensors)
      = Ok (emitter, gpr_map_pool, vec_map_pool)
    /\ map_find 2 (fst gpr_map_pool) = Some (reg_const_params_idx emitter)
    /\ reg_const_params_idx emitter
         ∈ [RSP; RBP; reg_indexes_idx emitter; reg_const_params_idx emitter].
Proof.
  eexists _, _, _. split; [vm_compute; reflexivity|].
  split; [reflexivity|]. cbn. apply (bool_decide_unpack _). by vm_compute.
Qed.

(** C6 (amended): after allocation completes, the abstract-to-physical
    mapping is injective within each register class; the data-pointer
    registers, assigned to the memory-access nodes, are distinct and disjoint
    from the four reserved registers (stack pointer, frame pointer, runtime
    index-vector register, parameter-block register); and every assigned
    general-purpose register differs from the stack pointer and the frame
    pointer. *)
Theorem allocation_injective (abi_param1 abi_param2 : Z) (kernel : option Kernel)
    (emitter : jit_kernel_emitter) (gpr_map_pool vec_map_pool : mapping_info) :
  abi_param1 <> abi_param2 ->
  abi_param1 ∉ [RSP; RBP] ->
  abi_param2 ∉ [RSP; RBP] ->
  jit_kernel_emitter_ctor abi_param1 abi_param2 kernel
    = Ok (emitter, gpr_map_pool, vec_map_pool) ->
  (forall a1 a2 p, map_find a1 (fst gpr_map_pool) = Some p ->
                   map_find a2 (fst gpr_map_pool) = Some p -> a1 = a2)
  /\ (forall a1 a2 p, map_find a1 (fst vec_map_pool) = Some p ->
                      map_find a2 (fst vec_map_pool) = Some p -> a1 = a2)
  /\ NoDup (data_ptr_regs_idx emitter)
  /\ (forall r, r ∈ data_ptr_regs_idx emitter ->
                r ∉ [RSP; RBP; reg_indexes_idx emitter; reg_const_params_idx emitter])
  /\ (forall a p, map_find a (fst gpr_map_pool) = Some p -> p <> RSP /\ p <> RBP).
Proof.
  intros Hne H1 H2 Hctor.
  destruct (ctor_registers _ _ _ _ _ _ Hctor)
    as (Hg & Hv & Hdata & Hnodup & _ & -> & ->).
  assert (Hpool : NoDup (remove_regs_from_pool initial_pool
                           [RSP; RBP; abi_param1; abi_param2] ++ [abi_param1; abi_param2])).
  { apply NoDup_app. split; [apply remove_regs_from_pool_NoDup, initial_pool_NoDup|].
    split.
    - intros x [Hx _]%elem_of_remove_regs_from_pool Hx'. apply Hx.
      by do 2 apply list_elem_of_further.
    - apply NoDup_cons. split; [|apply NoDup_singleton].
      by intros ->%list_elem_of_singleton. }
  rewrite <- Hg in Hpool. apply NoDup_app in Hpool as (Hvalues & _ & _).
  assert (Hvec : NoDup (registers_of vec_map_pool))
    by (rewrite Hv; apply initial_pool_NoDup).
  apply NoDup_app in Hvec as (Hvvalues & _ & _).
  split_and!; [by eauto using map_find_inj..|done| |].
  - intros r Hr. by apply Hdata, elem_of_remove_regs_from_pool in Hr as [? _].
  - intros a p Hp. apply map_find_elem_of in Hp.
    assert (Hin : p ∈ registers_of gpr_map_pool) by (apply elem_of_app; by left).
    rewrite Hg in Hin. apply elem_of_app in Hin as [Hin|Hin].
    + apply elem_of_remove_regs_from_pool in Hin as [Hin _].
      split; intros ->; apply Hin; [apply list_elem_of_here|].
      apply list_elem_of_further, list_elem_of_here.
    + split; intros ->; apply elem_of_cons in Hin as [<-|Hin].
      * apply H1, list_elem_of_here.
      * apply list_elem_of_singleton in Hin as <-. apply H2, list_elem_of_here.
      * apply H1, list_elem_of_further, list_elem_of_here.
      * apply list_elem_of_singleton in Hin as <-.
        apply H2, list_elem_of_further, list_elem_of_here.
Qed.

Lemma allocation_injective_witness :
  exists emitter gpr_map_pool vec_map_pool,
    jit_kernel_emitter_ctor rdi rsi (Some kernel_two_tensors)
      = Ok (emitter, gpr_map_pool, vec_map_pool)
    /\ (forall a1 a2 p, map_find a1 (fst gpr_map_pool) = Some p ->
                        map_find a2 (fst gpr_map_pool) = Some p -> a1 = a2)
    /\ (forall a1 a2 p, map_find a1 (fst vec_map_pool) = Some p ->
                        map_find a2 (fst vec_map_pool) = Some p -> a1 = a2)
    /\ NoDup (data_ptr_regs_idx emitter)
    /\ (forall r, r ∈ data_ptr_regs_idx emitter ->
                  r ∉ [RSP; RBP; reg_indexes_idx emitter; reg_const_params_idx emitter])
    /\ (forall a p, map_find a (fst gpr_map_pool) = Some p -> p <> RSP /\ p <> RBP).
Proof.
  eexists _, _, _. split; [vm_compute; reflexivity|].
  apply (allocation_injective rdi rsi (Some kernel_two_tensors)).
  - discriminate.
  - apply (bool_decide_unpack _). by vm_compute.
  - apply (bool_decide_unpack _). by vm_compute.
  - vm_compute. reflexivity.
Defined.

(** ** Initialisation of the data pointers (claim C9) *)

Lemma no_spare_gpr_find (self : jit_kernel_emitter) :
  no_spare_gpr self <->
  find (fun reg => bool_decide (reg <> reg_indexes_idx self)
                   && bool_decide (reg <> reg_const_params_idx self))
    (gp_regs_pool self) = None.
Proof.
  unfold no_spare_gpr. induction (gp_regs_pool self) as [|reg pool IH]; cbn [find].
  - split; [done | constructor].
  - rewrite Forall_cons, IH.
    destruct (decide (reg = reg_indexes_idx self)) as [->|H1].
    + rewrite (bool_decide_eq_false_2 (_ <> _)) by (intros H; by apply H).
      cbn. tauto.
    + rewrite (bool_decide_eq_true_2 _ H1). cbn [andb].
      destruct (decide (reg = reg_const_params_idx self)) as [->|H2].
      * rewrite (bool_decide_eq_false_2 (_ <> _)) by (intros H; by apply H). tauto.
      * rewrite (bool_decide_eq_true_2 _ H2). split; [tauto | done].
Qed.

Section Pointers.

Variable GET_OFF : call_args_field -> Z.
Variable self : jit_kernel_emitter.
Variables reg_indexes reg_const_params : Reg64.
Variable data_ptr_regs : list Reg64.

Lemma init_ptr_loop_ok (pointer reg_tmp : Reg64) (offsets : list Z) :
  forall (cnt j : nat),
    (j + cnt <= length (master_shape self))%nat ->
    (j + cnt <= length offsets)%nat ->
    exists code,
      init_ptr_loop self reg_indexes pointer offsets reg_tmp cnt (Z.of_nat j) = Ok code
      /\ Forall (accumulation_instr reg_indexes pointer reg_tmp) code.
Proof.
  induction cnt as [|cnt IH]; intros j Hm Ho.
  - by exists [].
  - destruct (lookup_lt_is_Some_2 (master_shape self) j) as [m Hmj]; [lia|].
    destruct (lookup_lt_is_Some_2 offsets j) as [o Hoj]; [lia|].
    cbn [init_ptr_loop].
    rewrite (vec_get_lookup _ _ _ Hmj). cbn [mbind result_bind].
    replace (Z.of_nat j + 1) with (Z.of_nat (S j)) by lia.
    destruct (IH (S j)) as (rest & -> & Hrest); [lia..|].
    case_bool_decide; [|by exists rest].
    rewrite (vec_get_lookup _ _ _ Hoj). cbn [mbind result_bind].
    case_bool_decide; [|by exists rest].
    cbn [mbind result_bind]. eexists. split; [done|].
    cbn [app]. constructor; [left; by eexists|].
    constructor; [right; left; by eexists|].
    constructor; [by right; right | done].
Qed.

Lemma init_ptr_with_offset_ok (pointer reg_tmp : Reg64) (offsets : list Z) :
  master_shape self <> [] ->
  vec_size (master_shape self) <= vector_max_size ->
  vec_size offsets = vec_size (master_shape self) - 1 ->
  exists code,
    init_ptr_with_offset self (wrap (vec_size (master_shape self) - 1))
      reg_indexes pointer offsets reg_tmp = Ok code
    /\ Forall (accumulation_instr reg_indexes pointer reg_tmp) code.
Proof.
  intros Hne Hmax Hlen. unfold init_ptr_with_offset, vec_size in *.
  assert ((0 < length (master_shape self))%nat)
    by (destruct (master_shape self); [done | cbn; lia]).
  rewrite vector_max_size_eq in Hmax.
  rewrite wrap_small by (rewrite size_t_modulus_eq; lia).
  apply (init_ptr_loop_ok pointer reg_tmp offsets _ 0); lia.
Qed.

Lemma data_offsets_loop_ok :
  tensors_ok self ->
  forall (cnt i : nat),
    (i + cnt <= length (io_shapes self))%nat ->
    exists data_offsets,
      data_offsets_loop self (wrap (vec_size (master_shape self) - 1)) cnt (Z.of_nat i)
        = Ok data_offsets
      /\ length data_offsets = cnt
      /\ Forall (fun offsets => vec_size offsets = vec_size (master_shape self) - 1)
           data_offsets.
Proof.
  intros (_ & _ & _ & Hsizes & Hmax & Htensors).
  induction cnt as [|cnt IH]; intros i Hi.
  - by exists [].
  - destruct (lookup_lt_is_Some_2 (io_shapes self) i) as [shape Hshape]; [lia|].
    destruct (lookup_lt_is_Some_2 (io_data_layouts self) i) as [layout Hlayout].
    { rewrite <- (Forall2_length _ _ _ Htensors). lia. }
    destruct (lookup_lt_is_Some_2 (io_data_sizes self) i) as [data_size Hsize]; [lia|].
    destruct (Forall2_lookup_lr _ _ _ _ _ _ Htensors Hshape Hlayout)
      as (Hne & Hrank & Hsmall & Hrange).
    cbn [data_offsets_loop].
    rewrite (vec_get_lookup _ _ _ Hshape). cbn [mbind result_bind].
    rewrite (vec_get_lookup _ _ _ Hlayout). cbn [mbind result_bind].
    rewrite (vec_get_lookup _ _ _ Hsize). cbn [mbind result_bind].
    destruct (offset_calculation_ok (master_shape self) shape layout data_size
                (bool_decide (Z.of_nat i < num_inputs self)) Hne Hrank Hsmall Hmax Hrange)
      as (offsets & -> & Hlen).
    cbn [mbind result_bind].
    replace (Z.of_nat i + 1) with (Z.of_nat (S i)) by lia.
    destruct (IH (S i)) as (rest & -> & Hlen' & Hall); [lia|].
    cbn [mbind result_bind]. eexists. split; [done|].
    split; [cbn; lia | by constructor].
Qed.

Lemma buffers_loop_ok (num_params : Z) :
  0 <= num_params ->
  vec_size data_ptr_regs < size_t_modulus ->
  forall (cnt i : nat),
    num_params + Z.of_nat i + Z.of_nat cnt <= vec_size data_ptr_regs ->
    exists code,
      buffers_loop GET_OFF reg_const_params data_ptr_regs num_params cnt (Z.of_nat i)
        = Ok code
      /\ Forall (fun ins =>
                   exists r, r ∈ data_ptr_regs
                     /\ ins = mov_load r {| base := reg_const_params;
                                            disp := wrap (GET_OFF buffer_scratchpad_ptr) |})
           code.
Proof.
  intros Hn Hsize. induction cnt as [|cnt IH]; intros i Hi.
  - by exists [].
  - cbn [buffers_loop]. unfold vec_size in *.
    rewrite (wrap_small (num_params + Z.of_nat i)) by lia.
    destruct (lookup_lt_is_Some_2 data_ptr_regs (Z.to_nat (num_params + Z.of_nat i)))
      as [r Hr]; [lia|].
    assert (Hnn : 0 <= num_params + Z.of_nat i) by lia.
    rewrite (vec_get_lookup_Z _ _ _ Hnn Hr). cbn [mbind result_bind].
    replace (Z.of_nat i + 1) with (Z.of_nat (S i)) by lia.
    destruct (IH (S i)) as (rest & -> & Hrest); [lia|].
    cbn [mbind result_bind]. eexists. split; [done|].
    constructor; [|done]. exists r. split; [|done].
    by apply list_elem_of_lookup_2 in Hr.
Qed.

Lemma pointers_loop_ok (data_offsets : list (list Z)) (reg_tmp : Reg64) :
  master_shape self <> [] ->
  vec_size (master_shape self) <= vector_max_size ->
  Forall (fun offsets => vec_size offsets = vec_size (master_shape self) - 1)
    data_offsets ->
  forall (cnt i : nat),
    (i + cnt <= length data_offsets)%nat ->
    (i + cnt <= length data_ptr_regs)%nat ->
    exists blocks,
      pointers_loop GET_OFF self (wrap (vec_size (master_shape self) - 1))
        reg_indexes reg_const_params data_ptr_regs data_offsets reg_tmp cnt (Z.of_nat i)
        = Ok (concat blocks)
      /\ length blocks = cnt
      /\ (forall (k : nat) block, blocks !! k = Some block ->
            exists r, data_ptr_regs !! (i + k)%nat = Some r
              /\ pointer_block GET_OFF self reg_indexes reg_const_params
                 (bool_decide (num_inputs self <= Z.of_nat (i + k)))
                   (Z.of_nat (i + k)) r reg_tmp block).
Proof.
  intros Hne Hmax Hall. induction cnt as [|cnt IH]; intros i Ho Hr.
  - exists []. split; [done|]. split; [done|]. intros k block [=].
  - destruct (lookup_lt_is_Some_2 data_ptr_regs i) as [r Hri]; [lia|].
    destruct (lookup_lt_is_Some_2 data_offsets i) as [offsets Hoi]; [lia|].
    cbn [pointers_loop].
    rewrite (vec_get_lookup _ _ _ Hri). cbn [mbind result_bind].
    rewrite (vec_get_lookup _ _ _ Hoi). cbn [mbind result_bind].
    destruct (init_ptr_with_offset_ok r reg_tmp offsets Hne Hmax) as (acc & -> & Hacc).
    { by apply (Forall_lookup_1 _ _ _ _ Hall Hoi). }
    cbn [mbind result_bind].
    replace (Z.of_nat i + 1) with (Z.of_nat (S i)) by lia.
    destruct (IH (S i)) as (blocks & -> & Hlen & Hblocks); [lia..|].
    cbn [mbind result_bind].
    eexists ((_ :: acc) :: blocks). split; [done|]. split; [cbn; lia|].
    intros [|k] block Hk.
    + injection Hk as <-. rewrite Nat.add_0_r. exists r. split; [done|].
      exists acc. split; [|done].
      case_bool_decide; case_bool_decide; (done || lia).
    + replace (i + S k)%nat with (S i + k)%nat by lia. by apply Hblocks.
Qed.

(** The code init_data_pointers emits when no spare register is left: the
    loads for the buffers, one block per tensor but the last with the last
    tensor's register as scratch, and the block of the last tensor, loaded
    from the output array, with the parameter-block register as scratch. *)
Lemma init_data_pointers_starved :
  tensors_ok self ->
  registers_ok self reg_indexes reg_const_params data_ptr_regs ->
  no_spare_gpr self ->
  1 <= num_inputs self + num_outputs self ->
  exists buffers blocks last_block r_last,
    init_data_pointers GET_OFF self reg_indexes reg_const_params data_ptr_regs
      = Ok (buffers ++ concat blocks ++ last_block)
    /\ data_ptr_regs !! Z.to_nat (num_inputs self + num_outputs self - 1) = Some r_last
    /\ Forall (fun ins =>
                 exists r, r ∈ data_ptr_regs
                   /\ ins = mov_load r {| base := reg_const_params;
                                          disp := wrap (GET_OFF buffer_scratchpad_ptr) |})
         buffers
    /\ length blocks = Z.to_nat (num_inputs self + num_outputs self - 1)
    /\ (forall (k : nat) block, blocks !! k = Some block ->
          exists r, data_ptr_regs !! k = Some r
            /\ pointer_block GET_OFF self reg_indexes reg_const_params
                 (bool_decide (num_inputs self <= Z.of_nat k))
                 (Z.of_nat k) r r_last block)
    /\ pointer_block GET_OFF self reg_indexes reg_const_params true
         (num_inputs self + num_outputs self - 1)
         r_last reg_const_params last_block.
Proof.
  intros Htensors Hregs Hstarved Hn.
  pose proof Htensors as (Hni & Hno & Hshapes & Hsizes & Hmax & Hall).
  destruct Hregs as (Hnb & Hlen & Hsmall & Hnodup & Hri & Hrc & Hne).
  set (n := num_inputs self + num_outputs self) in *.
  unfold vec_size in Hshapes, Hlen, Hsmall.
  assert (Hmaster : master_shape self <> []).
  { destruct (io_shapes self) as [|shape shapes] eqn:E; [cbn in Hshapes; lia|].
    apply Forall2_cons_inv_l in Hall as (layout & layouts & (Hs & Hrank & _) & _).
    intros Hnil. rewrite Hnil in Hrank. destruct shape; [done | cbn in Hrank; lia]. }
  unfold init_data_pointers. cbv zeta. fold n.
  rewrite (wrap_small n) by lia.
  destruct (data_offsets_loop_ok Htensors (Z.to_nat n) 0)
    as (data_offsets & Hdo & Hdo_len & Hdo_all); [lia|].
  change (Z.of_nat 0) with 0 in Hdo. rewrite Hdo. cbn [mbind result_bind].
  rewrite (proj1 (no_spare_gpr_find self) Hstarved).
  rewrite (bool_decide_eq_true_2 (None = None)) by done.
  rewrite (wrap_small (n - 1)) by lia.
  destruct (lookup_lt_is_Some_2 data_ptr_regs (Z.to_nat (n - 1))) as [r_last Hlast]; [lia|].
  assert (Hn1 : 0 <= n - 1) by lia.
  rewrite (vec_get_lookup_Z _ _ _ Hn1 Hlast). cbn [mbind result_bind].
  destruct (buffers_loop_ok n ltac:(lia) Hsmall
              (Z.to_nat (num_unique_buffers self)) 0)
    as (buffers & Hb & Hbuffers); [unfold vec_size; lia|].
  change (Z.of_nat 0) with 0 in Hb. rewrite Hb. cbn [mbind result_bind].
  destruct (pointers_loop_ok data_offsets r_last Hmaster Hmax Hdo_all (Z.to_nat (n - 1)) 0)
    as (blocks & Hp & Hblen & Hblocks); [lia..|].
  change (Z.of_nat 0) with 0 in Hp. rewrite Hp. cbn [mbind result_bind].
  destruct (lookup_lt_is_Some_2 data_offsets (Z.to_nat (n - 1))) as [offsets Hoffs]; [lia|].
  rewrite (vec_get_lookup_Z _ _ _ Hn1 Hoffs). cbn [mbind result_bind].
  destruct (init_ptr_with_offset_ok r_last reg_const_params offsets Hmaster Hmax)
    as (acc & -> & Hacc).
  { by apply (Forall_lookup_1 _ _ _ _ Hdo_all Hoffs). }
  cbn [mbind result_bind].
  eexists buffers, blocks, _, r_last. split; [done|].
  split; [done|]. split; [done|]. split; [done|]. split.
  - intros k block Hk. by apply (Hblocks k block) in Hk.
  - exists acc. by split.
Qed.

End Pointers.

Lemma Forall_concat_lookup {A : Type} (P : A -> Prop) (blocks : list (list A)) :
  (forall (k : nat) block, blocks !! k = Some block -> Forall P block) ->
  Forall P (concat blocks).
Proof.
  induction blocks as [|block blocks IH]; intros H; [constructor|].
  cbn [concat]. apply Forall_app. split.
  - by apply (H 0%nat).
  - apply IH. intros k b Hk. by apply (H (S k)).
Qed.

Lemma wrap_add_cancel (x y c : Z) : wrap (x + c) = wrap (y + c) <-> wrap x = wrap y.
Proof.
  unfold wrap. split; intros H.
  - replace x with (x + c - c) by lia. replace y with (y + c - c) by lia.
    by rewrite <- (Zminus_mod_idemp_l (x + c)), H, Zminus_mod_idemp_l.
  - by rewrite <- (Zplus_mod_idemp_l x), H, Zplus_mod_idemp_l.
Qed.

Lemma accumulation_instr_written (reg_indexes pointer reg_tmp : Reg64) ins :
  accumulation_instr reg_indexes pointer reg_tmp ins ->
  written ins = Some reg_tmp \/ written ins = Some pointer.
Proof. intros [[imm ->]|[[d ->]| ->]]; cbn; auto. Qed.

Lemma accumulation_instr_loads_from (reg_indexes pointer reg_tmp : Reg64) ins :
  accumulation_instr reg_indexes pointer reg_tmp ins ->
  loads_from ins = None \/ loads_from ins = Some reg_indexes.
Proof. intros [[imm ->]|[[d ->]| ->]]; cbn; auto. Qed.

(** C9 (amended): in the starved path the base pointer of the last tensor,
    of index i = num_inputs + num_outputs - 1, is always loaded from the
    output array at index i - num_inputs.  With at least one output that
    index is num_outputs - 1, the entry of the last output; with no output
    the subtraction underflows to 2^64 - 1 and the load reads 8 bytes before
    the output array, which is the entry of the tensor in the input array
    exactly when the output array starts num_inputs pointers after the input
    array, and another entry otherwise. *)
Theorem starved_last_pointer_from_dst_ptrs (GET_OFF : call_args_field -> Z)
    (self : jit_kernel_emitter) (reg_indexes reg_const_params : Reg64)
    (data_ptr_regs : list Reg64) :
  tensors_ok self ->
  registers_ok self reg_indexes reg_const_params data_ptr_regs ->
  no_spare_gpr self ->
  1 <= num_inputs self + num_outputs self ->
  let i := num_inputs self + num_outputs self - 1 in
  let index := wrap (i - num_inputs self) in
  let disp_emitted := wrap (GET_OFF dst_ptrs + wrap (index * sizeof_void_ptr)) in
  exists before r_last last_acc,
    init_data_pointers GET_OFF self reg_indexes reg_const_params data_ptr_regs
      = Ok (before
            ++ mov_load r_last {| base := reg_const_params; disp := disp_emitted |}
            :: last_acc)
    /\ data_ptr_regs !! Z.to_nat i = Some r_last
    /\ Forall (accumulation_instr reg_indexes r_last reg_const_params) last_acc
    /\ (1 <= num_outputs self -> index = num_outputs self - 1)
    /\ (num_outputs self = 0 ->
        i - num_inputs self < 0
        /\ index = 2 ^ 64 - 1
        /\ disp_emitted = wrap (GET_OFF dst_ptrs - 8)
        /\ (disp_emitted = wrap (GET_OFF src_ptrs + wrap (i * sizeof_void_ptr))
            <-> wrap (GET_OFF dst_ptrs)
                = wrap (GET_OFF src_ptrs + 8 * num_inputs self))).
Proof.
  intros Htensors Hregs Hstarved Hn i index disp_emitted.
  destruct (init_data_pointers_starved GET_OFF self reg_indexes reg_const_params
              data_ptr_regs Htensors Hregs Hstarved Hn)
    as (buffers & blocks & last_block & r_last & Hrun & Hlast & _ & _
        & _ & (last_acc & -> & Hlast_acc)).
  destruct Htensors as (Hni & Hno & _).
  destruct Hregs as (Hnb & Hsize & Hsmall & _).
  exists (buffers ++ concat blocks), r_last, last_acc.
  split; [by rewrite <- app_assoc|]. split; [done|]. split; [done|].
  subst disp_emitted index i. unfold sizeof_void_ptr. split.
  - intros Hout. unfold vec_size in *.
    replace (num_inputs self + num_outputs self - 1 - num_inputs self)
      with (num_outputs self - 1) by lia.
    apply wrap_small. lia.
  - intros Hout. rewrite Hout.
    replace (num_inputs self + 0 - 1 - num_inputs self) with (-1) by lia.
    assert (Hidx : wrap (-1) = 2 ^ 64 - 1) by reflexivity.
    rewrite Hidx.
    assert (Hdisp : wrap (GET_OFF dst_ptrs + wrap ((2 ^ 64 - 1) * 8))
                    = wrap (GET_OFF dst_ptrs - 8)).
    { unfold wrap. rewrite Zplus_mod_idemp_r.
      replace (GET_OFF dst_ptrs + (2 ^ 64 - 1) * 8)
        with (GET_OFF dst_ptrs - 8 + 8 * size_t_modulus)
        by (rewrite size_t_modulus_eq; lia).
      by rewrite Z_mod_plus_full. }
    split; [lia|]. split; [done|]. split; [done|].
    rewrite Hdisp.
    assert (Hright : wrap (GET_OFF src_ptrs + wrap ((num_inputs self + 0 - 1) * 8))
                     = wrap (GET_OFF src_ptrs + 8 * num_inputs self - 8)).
    { unfold wrap. rewrite Zplus_mod_idemp_r. f_equal. lia. }
    rewrite Hright. apply (wrap_add_cancel _ _ (-8)).
Qed.

Lemma starved_last_pointer_from_dst_ptrs_witness :
  exists emitter gpr_map_pool vec_map_pool,
    jit_kernel_emitter_ctor rdi rsi (Some kernel_starved_inputs_only)
      = Ok (emitter, gpr_map_pool, vec_map_pool)
    /\ tensors_ok emitter
    /\ registers_ok emitter rdi rsi (transform_idxs_to_regs (data_ptr_regs_idx emitter))
    /\ no_spare_gpr emitter
    /\ 1 <= num_inputs emitter + num_outputs emitter
    /\ num_inputs emitter = 11
    /\ num_outputs emitter = 0
    /\ exists before r_last last_acc,
         init_data_pointers GET_OFF_12 emitter rdi rsi
           (transform_idxs_to_regs (data_ptr_regs_idx emitter))
           = Ok (before ++ mov_load r_last {| base := rsi; disp := 88 |} :: last_acc)
         /\ transform_idxs_to_regs (data_ptr_regs_idx emitter) !! 10%nat = Some r_last
         /\ Forall (accumulation_instr rdi r_last rsi) last_acc
         /\ wrap (10 - 11) = 2 ^ 64 - 1
         /\ 88 <> wrap (GET_OFF_12 src_ptrs + wrap (10 * sizeof_void_ptr)).
Proof.
  eexists _, _, _. split; [vm_compute; reflexivity|].
  match goal with
  | |- tensors_ok ?e /\ _ =>
      assert (Ht : tensors_ok e)
        by (apply (bool_decide_unpack _); vm_compute; exact I);
      assert (Hr : registers_ok e rdi rsi (transform_idxs_to_regs (data_ptr_regs_idx e)))
        by (apply (bool_decide_unpack _); vm_compute; exact I);
      assert (Hs : no_spare_gpr e)
        by (apply (bool_decide_unpack _); vm_compute; exact I);
      assert (Hn : 1 <= num_inputs e + num_outputs e) by (vm_compute; discriminate);
      destruct (starved_last_pointer_from_dst_ptrs GET_OFF_12 e rdi rsi
                  (transform_idxs_to_regs (data_ptr_regs_idx e)) Ht Hr Hs Hn)
        as (before & r_last & last_acc & Hrun & Hlast & Hacc & _ & Hunderflow)
  end.
  destruct (Hunderflow eq_refl) as (_ & Hindex & _ & _).
  split; [exact Ht|]. split; [exact Hr|]. split; [exact Hs|]. split; [exact Hn|].
  split; [reflexivity|]. split; [reflexivity|].
  exists before, r_last, last_acc.
  split; [exact Hrun|]. split; [exact Hlast|]. split; [exact Hacc|].
  split; [exact Hindex|]. vm_compute. discriminate.
Defined.

(** * Further properties of the offset calculation *)

Lemma strides_loop_length (shape : list Z) (data_size : Z) :
  forall (cnt : nat) (dim_step : Z) (strides strides' : list Z),
    strides_loop shape data_size cnt dim_step strides = Ok strides' ->
    length strides' = length strides.
Proof.
  induction cnt as [|k IH]; intros dim_step strides strides' H.
  - by injection H as <-.
  - cbn [strides_loop] in H.
    apply bind_Ok in H as (s_next & _ & H).
    apply bind_Ok in H as (s_k & _ & H).
    apply bind_Ok in H as (strides1 & Hset & H).
    apply vec_set_Ok in Hset as [_ ->].
    rewrite (IH _ _ _ H). apply length_insert.
Qed.

Lemma raw_strides_length (shape : list Z) (data_size : Z) (strides : list Z) :
  raw_strides shape data_size = Ok strides -> length strides = length shape.
Proof.
  unfold raw_strides. intros H.
  apply bind_Ok in H as (strides0 & Hset & H).
  apply vec_set_Ok in Hset as [_ ->].
  destruct (_ <? _); [done|].
  rewrite (strides_loop_length _ _ _ _ _ _ H).
  by rewrite length_insert, length_replicate.
Qed.

Lemma is_permutation_identity (n : nat) : is_permutation (identity_layout n).
Proof.
  unfold is_permutation, identity_layout, vec_size.
  by rewrite length_seqZ, Z2Nat.id by lia.
Qed.

Lemma reorder_strides_identity (strides : list Z) (is_input : bool) :
  reorder_strides strides (identity_layout (length strides)) is_input = Ok strides.
Proof.
  assert (Hl0 : length (identity_layout (length strides)) = length strides)
    by (unfold identity_layout; rewrite length_seqZ; lia).
  destruct (reorder_strides_spec strides (identity_layout (length strides)) is_input
              Hl0 (is_permutation_identity _))
    as (r & Hrun & Hlen & Hdir).
  rewrite Hrun. f_equal. apply list_eq. intros p.
  destruct (decide (p < length strides)%nat) as [Hp|Hp].
  - assert (Hl : identity_layout (length strides) !! p = Some (Z.of_nat p)).
    { unfold identity_layout. by rewrite lookup_seqZ_lt by lia. }
    specialize (Hdir p _ Hl). rewrite Nat2Z.id in Hdir. by destruct is_input.
  - rewrite !lookup_ge_None_2; [done | lia | lia].
Qed.

Lemma offset_calculation_identity (offset_rank : Z) (shape : list Z) (data_size : Z)
    (is_input : bool) :
  offset_calculation offset_rank shape (identity_layout (length shape)) data_size is_input
  = offset_calculation offset_rank shape [] data_size is_input.
Proof.
  unfold offset_calculation.
  destruct (raw_strides shape data_size) as [strides'| |] eqn:Hraw; [|done..].
  cbn [mbind result_bind].
  rewrite <- (raw_strides_length _ _ _ Hraw), reorder_strides_identity.
  by destruct (identity_layout (length strides')).
Qed.

(** X1: reordering through the identity layout changes nothing, in the
    input direction and in the output direction; the offsets of a tensor
    with the identity layout are those of a tensor with no layout. *)
Theorem reorder_identity_layout (strides : list Z) (is_input : bool) :
  reorder_strides strides (identity_layout (length strides)) is_input = Ok strides
  /\ forall offset_rank shape data_size,
       offset_calculation offset_rank shape (identity_layout (length shape))
         data_size is_input
       = offset_calculation offset_rank shape [] data_size is_input.
Proof.
  split; [apply reorder_strides_identity|].
  intros. apply offset_calculation_identity.
Qed.

(** X2: reordering through a permutation layout only moves the strides:
    the reordered vector is a permutation of the stride vector, in both
    directions. *)
Theorem reorder_is_permutation (strides layout : list Z) (is_input : bool) :
  length layout = length strides ->
  is_permutation layout ->
  exists reordered,
    reorder_strides strides layout is_input = Ok reordered
    /\ reordered ≡ₚ strides.
Proof.
  intros Hlen Hperm.
  destruct (reorder_strides_spec strides layout is_input Hlen Hperm)
    as (r & Hrun & Hlen' & Hdir).
  exists r. split; [done|].
  assert (Hread : forall v : list Z, length v = length strides ->
            (fun l => default 0 (v !! Z.to_nat l)) <$> seqZ 0 (vec_size layout) = v).
  { intros v Hv. apply list_eq. intros p. rewrite list_lookup_fmap.
    unfold vec_size.
    destruct (decide (p < length strides)%nat) as [Hp|Hp].
    - rewrite lookup_seqZ_lt by lia. cbn. rewrite Z.add_0_l, Nat2Z.id.
      destruct (lookup_lt_is_Some_2 v p) as [x ->]; [lia | done].
    - rewrite lookup_seqZ_ge by lia. cbn. by rewrite lookup_ge_None_2 by lia. }
  assert (Hrange := is_permutation_range _ Hperm). unfold vec_size in Hrange.
  unfold is_permutation in Hperm.
  set (ids := seqZ 0 (vec_size layout)) in *.
  destruct is_input.
  - assert (E : r = (fun l => default 0 (strides !! Z.to_nat l)) <$> layout).
    { apply list_eq. intros p. rewrite list_lookup_fmap.
      destruct (layout !! p) as [l|] eqn:Hl.
      + rewrite (Hdir p l Hl). cbn.
        pose proof (Forall_lookup_1 _ _ _ _ Hrange Hl) as Hlr. cbn in Hlr.
        destruct (lookup_lt_is_Some_2 strides (Z.to_nat l)) as [x ->]; [lia | done].
      + cbn. apply lookup_ge_None_2. apply lookup_ge_None_1 in Hl. lia. }
    rewrite E, Hperm. by rewrite (Hread strides eq_refl).
  - assert (E : strides = (fun l => default 0 (r !! Z.to_nat l)) <$> layout).
    { apply list_eq. intros p. rewrite list_lookup_fmap.
      destruct (layout !! p) as [l|] eqn:Hl.
      + rewrite <- (Hdir p l Hl). cbn.
        pose proof (Forall_lookup_1 _ _ _ _ Hrange Hl) as Hlr. cbn in Hlr.
        destruct (lookup_lt_is_Some_2 r (Z.to_nat l)) as [x ->]; [lia | done].
      + cbn. apply lookup_ge_None_2. apply lookup_ge_None_1 in Hl. lia. }
    rewrite E, Hperm. by rewrite (Hread r Hlen').
Qed.

Lemma reorder_is_permutation_witness :
  length [1; 2; 0] = length [10; 20; 30]
  /\ is_permutation [1; 2; 0]
  /\ exists reordered,
       reorder_strides [10; 20; 30] [1; 2; 0] false = Ok reordered
       /\ reordered ≡ₚ [10; 20; 30].
Proof.
  split; [reflexivity|]. split; [exact is_permutation_1_2_0|].
  apply (reorder_is_permutation [10; 20; 30] [1; 2; 0] false);
    [reflexivity | exact is_permutation_1_2_0].
Defined.

(** X3: the output-direction reorder followed by the input-direction
    reorder with the same layout gives the stride vector back (the round
    trip in the order opposite to that of C8). *)
Theorem reorder_round_trip_output_first (strides layout : list Z) :
  length layout = length strides ->
  is_permutation layout ->
  exists reordered,
    reorder_strides strides layout false = Ok reordered
    /\ reorder_strides reordered layout true = Ok strides.
Proof.
  intros Hlen Hperm.
  destruct (reorder_strides_spec strides layout false Hlen Hperm)
    as (r1 & Hrun1 & Hlen1 & Hdir1).
  assert (Hlen1' : length layout = length r1) by congruence.
  destruct (reorder_strides_spec r1 layout true Hlen1' Hperm)
    as (r2 & Hrun2 & Hlen2 & Hdir2).
  exists r1. split; [done|]. rewrite Hrun2. f_equal.
  apply list_eq. intros p.
  destruct (layout !! p) as [l|] eqn:Hl.
  - rewrite (Hdir2 p l Hl). apply (Hdir1 p l Hl).
  - apply lookup_ge_None_1 in Hl. rewrite !lookup_ge_None_2; [done | lia | lia].
Qed.

Lemma reorder_round_trip_output_first_witness :
  length [1; 2; 0] = length [10; 20; 30]
  /\ is_permutation [1; 2; 0]
  /\ exists reordered,
       reorder_strides [10; 20; 30] [1; 2; 0] false = Ok reordered
       /\ reorder_strides reordered [1; 2; 0] true = Ok [10; 20; 30].
Proof.
  split; [reflexivity|]. split; [exact is_permutation_1_2_0|].
  apply (reorder_round_trip_output_first [10; 20; 30] [1; 2; 0]);
    [reflexivity | exact is_permutation_1_2_0].
Defined.

Lemma list_prod_drop_le (l : list Z) (k : nat) :
  Forall (fun s => 1 <= s) l ->
  1 <= list_prod (drop k l) <= list_prod l.
Proof.
  intros Hl. revert k. induction Hl as [|s l Hs Hl IH]; intros k.
  - rewrite drop_nil. cbn. lia.
  - destruct k as [|k]; cbn [drop].
    + specialize (IH 0%nat). rewrite drop_0 in IH. unfold list_prod in *.
      cbn [foldr]. nia.
    + specialize (IH k). unfold list_prod in *. cbn [foldr]. nia.
Qed.

(** X4: for a shape without unit dimensions whose byte size fits size_t,
    the raw strides of the outer dimensions are the row-major byte strides,
    with no wrap-around: stride[k] is the product of s[k+1..n-1] times the
    element size. *)
Theorem raw_strides_row_major (shape : list Z) (data_size : Z) :
  shape <> [] ->
  vec_size shape < 2 ^ 31 ->
  Forall (fun s => 2 <= s) shape ->
  0 <= data_size ->
  list_prod shape * data_size < 2 ^ 64 ->
  exists strides,
    raw_strides shape data_size = Ok strides
    /\ forall k, (S k < length shape)%nat ->
         strides !! k = Some (list_prod (drop (S k) shape) * data_size).
Proof.
  intros Hne Hsmall Hdims He Hfits.
  destruct (raw_strides_spec shape data_size Hne Hsmall)
    as (strides & Hrun & _ & _ & Hrest).
  exists strides. split; [done|]. intros k Hk.
  destruct (lookup_lt_is_Some_2 shape k) as [s_k Hsk]; [lia|].
  rewrite (Hrest k s_k Hk Hsk).
  pose proof (Forall_lookup_1 _ _ _ _ Hdims Hsk) as Hs. cbn in Hs.
  rewrite bool_decide_eq_true_2 by lia. f_equal.
  apply wrap_small. rewrite size_t_modulus_eq.
  assert (Hone : Forall (fun s => 1 <= s) shape)
    by (eapply Forall_impl; [exact Hdims | cbn; intros; lia]).
  pose proof (list_prod_drop_le shape (S k) Hone). nia.
Qed.

Lemma raw_strides_row_major_witness :
  [2; 3; 4] <> []
  /\ vec_size [2; 3; 4] < 2 ^ 31
  /\ Forall (fun s => 2 <= s) [2; 3; 4]
  /\ 0 <= 4
  /\ list_prod [2; 3; 4] * 4 < 2 ^ 64
  /\ exists strides,
       raw_strides [2; 3; 4] 4 = Ok strides
       /\ forall k, (S k < length [2; 3; 4])%nat ->
            strides !! k = Some (list_prod (drop (S k) [2; 3; 4]) * 4).
Proof.
  assert (Hdims : Forall (fun s => 2 <= s) [2; 3; 4])
    by (apply (bool_decide_unpack _); vm_compute; exact I).
  split; [discriminate|]. split; [reflexivity|]. split; [exact Hdims|].
  split; [discriminate|]. split; [reflexivity|].
  apply (raw_strides_row_major [2; 3; 4] 4);
    [discriminate | reflexivity | exact Hdims | discriminate | reflexivity].
Defined.

Lemma pop_back_Ok {A : Type} (v popped : list A) :
  pop_back v = Ok popped -> v <> [] /\ popped = removelast v.
Proof. destruct v; [done|]. by intros [= <-]. Qed.

Lemma reorder_loop_length (strides : list Z) (is_input : bool) :
  forall (rest : list Z) (i : Z) (r r' : list Z),
    reorder_loop strides is_input rest i r = Ok r' -> length r' = length r.
Proof.
  induction rest as [|l rest IH]; intros i r r' H.
  - by injection H as <-.
  - cbn [reorder_loop] in H.
    apply bind_Ok in H as (s & _ & H).
    apply bind_Ok in H as (r1 & Hset & H).
    apply vec_set_Ok in Hset as [_ ->].
    rewrite (IH _ _ _ H). apply length_insert.
Qed.

Lemma reordered_strides_of_length (shape layout : list Z) (data_size : Z)
    (is_input : bool) (strides : list Z) :
  reordered_strides_of shape layout data_size is_input = Ok strides ->
  length strides = length shape.
Proof.
  unfold reordered_strides_of. intros H.
  apply bind_Ok in H as (raw & Hraw & H).
  apply raw_strides_length in Hraw.
  destruct layout as [|l0 layout]; [by injection H as <-|].
  unfold reorder_strides in H. apply reorder_loop_length in H.
  by rewrite H, length_replicate.
Qed.

Lemma offset_calculation_padded (master_shape shape layout : list Z)
    (data_size : Z) (is_input : bool) (offsets : list Z) :
  vec_size master_shape <= vector_max_size ->
  offset_calculation (wrap (vec_size master_shape - 1)) shape layout data_size is_input
    = Ok offsets ->
  exists strides,
    reordered_strides_of shape layout data_size is_input = Ok strides
    /\ (1 <= length shape <= length master_shape)%nat
    /\ offsets
       = replicate (length master_shape - length shape) 0 ++ removelast strides.
Proof.
  intros Hmax H.
  pose proof (offset_calculation_length _ _ _ _ _ _ Hmax H) as Hlen.
  unfold offset_calculation in H.
  apply bind_Ok in H as (raw & Hraw & H).
  apply bind_Ok in H as (strides & Hre & H).
  assert (Hstrides : reordered_strides_of shape layout data_size is_input = Ok strides)
    by (unfold reordered_strides_of; by rewrite Hraw).
  pose proof (reordered_strides_of_length _ _ _ _ _ Hstrides) as Hn.
  apply bind_Ok in H as (popped & Hpop & H).
  apply pop_back_Ok in Hpop as [Hne ->].
  unfold insert_front in H. destruct (_ <? _); [done|]. injection H as <-.
  exists strides. split; [done|].
  unfold vec_size in *.
  rewrite length_app, length_replicate, removelast_length, Hn in Hlen.
  assert ((0 < length shape)%nat)
    by (rewrite <- Hn; destruct strides; [done | cbn; lia]).
  split; [lia|]. f_equal. f_equal.
  rewrite removelast_length, Hn. lia.
Qed.

(** X5: whenever the offset calculation returns, its result is the
    (reordered) stride vector without its last entry, behind
    len(master_shape) - len(shape) zeros: the leading dimensions the master
    shape has in excess get offset 0. *)
Theorem offsets_are_padded_strides (master_shape shape layout : list Z)
    (data_size : Z) (is_input : bool) (offsets : list Z) :
  vec_size master_shape <= vector_max_size ->
  offset_calculation (wrap (vec_size master_shape - 1)) shape layout data_size is_input
    = Ok offsets ->
  exists strides,
    reordered_strides_of shape layout data_size is_input = Ok strides
    /\ (1 <= length shape <= length master_shape)%nat
    /\ offsets
       = replicate (length master_shape - length shape) 0 ++ removelast strides.
Proof. apply offset_calculation_padded. Qed.

Lemma offsets_are_padded_strides_witness :
  vec_size [1; 1; 1; 2; 3; 4] <= vector_max_size
  /\ offset_calculation (wrap (vec_size [1; 1; 1; 2; 3; 4] - 1)) [5; 1; 7] [0; 1; 2] 8 true
     = Ok [0; 0; 0; 56; 0]
  /\ exists strides,
       reordered_strides_of [5; 1; 7] [0; 1; 2] 8 true = Ok strides
       /\ (1 <= length [5; 1; 7] <= length [1; 1; 1; 2; 3; 4])%nat
       /\ [0; 0; 0; 56; 0]
          = replicate (length [1; 1; 1; 2; 3; 4] - length [5; 1; 7]) 0
            ++ removelast strides.
Proof.
  assert (Hmax : vec_size [1; 1; 1; 2; 3; 4] <= vector_max_size)
    by (vm_compute; discriminate).
  split; [exact Hmax|]. split; [reflexivity|].
  apply (offsets_are_padded_strides [1; 1; 1; 2; 3; 4] [5; 1; 7] [0; 1; 2] 8 true
           [0; 0; 0; 56; 0] Hmax).
  reflexivity.
Defined.

(** * Further properties of the emission *)

Lemma init_ptr_loop_steps (self : jit_kernel_emitter)
    (reg_indexes pointer reg_tmp : Reg64) (offsets : list Z) :
  forall (cnt j : nat),
    (j + cnt <= length (master_shape self))%nat ->
    (j + cnt <= length offsets)%nat ->
    8 * Z.of_nat (j + cnt) < size_t_modulus ->
    init_ptr_loop self reg_indexes pointer offsets reg_tmp cnt (Z.of_nat j)
    = Ok (mjoin (imap (fun k mo => offset_step reg_indexes pointer reg_tmp (j + k)
                                     (fst mo) (snd mo))
                   (take cnt (drop j (zip (master_shape self) offsets))))).
Proof.
  induction cnt as [|cnt IH]; intros j Hm Ho Hsmall.
  - by rewrite take_0.
  - destruct (lookup_lt_is_Some_2 (master_shape self) j) as [m Hmj]; [lia|].
    destruct (lookup_lt_is_Some_2 offsets j) as [o Hoj]; [lia|].
    assert (Hzip : zip (master_shape self) offsets !! j = Some (m, o))
      by (by rewrite lookup_zip_with, Hmj, Hoj).
    rewrite (drop_S _ _ _ Hzip). cbn [take]. rewrite imap_cons. cbn [mjoin list_join].
    cbn [init_ptr_loop].
    rewrite (vec_get_lookup _ _ _ Hmj). cbn [mbind result_bind].
    replace (Z.of_nat j + 1) with (Z.of_nat (S j)) by lia.
    rewrite (IH (S j)) by lia.
    rewrite (imap_ext _ ((fun k mo => offset_step reg_indexes pointer reg_tmp (j + k)
                                        (fst mo) (snd mo)) ∘ S))
      by (intros k mo _; cbn; by rewrite Nat.add_succ_r).
    unfold offset_step at 2. cbn [fst snd]. rewrite Nat.add_0_r.
    unfold sizeof_size_t.
    rewrite (wrap_small (Z.of_nat j * 8)) by lia.
    replace (Z.of_nat j * 8) with (8 * Z.of_nat j) by lia.
    case_bool_decide; cbn [andb]; [|done].
    rewrite (vec_get_lookup _ _ _ Hoj). cbn [mbind result_bind].
    by case_bool_decide.
Qed.

(** X6: the code init_ptr_with_offset emits is, dimension by dimension of
    the outer dimensions, nothing where the master extent is 1 or the offset
    is 0 and otherwise the three instructions that add offsets[j] times the
    index at byte 8 * j to the pointer; when every outer dimension has master
    extent 1 or offset 0, no instruction is emitted. *)
Theorem init_ptr_with_offset_steps (self : jit_kernel_emitter)
    (reg_indexes pointer reg_tmp : Reg64) (offsets : list Z) :
  master_shape self <> [] ->
  vec_size (master_shape self) <= vector_max_size ->
  vec_size offsets = vec_size (master_shape self) - 1 ->
  init_ptr_with_offset self (wrap (vec_size (master_shape self) - 1))
    reg_indexes pointer offsets reg_tmp
  = Ok (mjoin (imap (fun j mo => offset_step reg_indexes pointer reg_tmp j
                                   (fst mo) (snd mo))
                 (zip (master_shape self) offsets)))
  /\ (Forall2 (fun extent offset => extent = 1 \/ offset = 0)
        (removelast (master_shape self)) offsets ->
      init_ptr_with_offset self (wrap (vec_size (master_shape self) - 1))
        reg_indexes pointer offsets reg_tmp = Ok []).
Proof.
  intros Hne Hmax Hlen. unfold init_ptr_with_offset, vec_size in *.
  assert ((0 < length (master_shape self))%nat)
    by (destruct (master_shape self); [done | cbn; lia]).
  rewrite vector_max_size_eq in Hmax.
  rewrite wrap_small by (rewrite size_t_modulus_eq; lia).
  change 0 with (Z.of_nat 0).
  rewrite init_ptr_loop_steps by (rewrite ?size_t_modulus_eq; lia).
  rewrite drop_0, take_ge by (rewrite length_zip; lia).
  cbn [Nat.add]. split; [done|]. intros Hall. f_equal.
  set (f := fun (j : nat) (mo : Z * Z) =>
              offset_step reg_indexes pointer reg_tmp j (fst mo) (snd mo)).
  assert (Hnil : forall j mo, zip (master_shape self) offsets !! j = Some mo ->
                              f j mo = []).
  { intros j [m o] Hj. rewrite lookup_zip_with in Hj.
    destruct (master_shape self !! j) as [m'|] eqn:Hm; [|done].
    destruct (offsets !! j) as [o'|] eqn:Ho; [|done]. injection Hj as -> ->.
    assert (Hm' : removelast (master_shape self) !! j = Some m).
    { rewrite removelast_lookup; [done|]. apply lookup_lt_Some in Ho. lia. }
    destruct (Forall2_lookup_lr _ _ _ _ _ _ Hall Hm' Ho) as [-> | ->];
      unfold f, offset_step; cbn [fst snd].
    - by rewrite (bool_decide_eq_false_2 (1 <> 1)) by (intros E; by apply E).
    - rewrite (bool_decide_eq_false_2 (0 <> 0)) by (intros E; by apply E).
      by rewrite andb_false_r. }
  clearbody f. revert f Hnil. generalize (zip (master_shape self) offsets).
  intros l. induction l as [|x l IH]; intros f Hf; [done|].
  rewrite imap_cons. cbn [mjoin list_join].
  rewrite (Hf 0%nat x eq_refl). cbn [app].
  apply IH. intros j mo Hj. apply (Hf (S j) mo Hj).
Qed.

Lemma init_ptr_with_offset_steps_witness :
  master_shape emitter_two_tensors <> []
  /\ vec_size (master_shape emitter_two_tensors) <= vector_max_size
  /\ vec_size [0; 0; 0; 48; 16] = vec_size (master_shape emitter_two_tensors) - 1
  /\ init_ptr_with_offset emitter_two_tensors
       (wrap (vec_size (master_shape emitter_two_tensors) - 1)) rdi 0 [0; 0; 0; 48; 16] 15
     = Ok [ mov_imm 15 48; imul_load 15 {| base := rdi; disp := 24 |}; add_reg 0 15;
            mov_imm 15 16; imul_load 15 {| base := rdi; disp := 32 |}; add_reg 0 15 ]
  /\ Forall2 (fun extent offset => extent = 1 \/ offset = 0)
       (removelast (master_shape emitter_two_tensors)) [0; 0; 0; 0; 0]
  /\ init_ptr_with_offset emitter_two_tensors
       (wrap (vec_size (master_shape emitter_two_tensors) - 1)) rdi 0 [0; 0; 0; 0; 0] 15
     = Ok [].
Proof.
  assert (Hne : master_shape emitter_two_tensors <> []) by discriminate.
  assert (Hmax : vec_size (master_shape emitter_two_tensors) <= vector_max_size)
    by (vm_compute; discriminate).
  assert (Hall : Forall2 (fun extent offset => extent = 1 \/ offset = 0)
                   (removelast (master_shape emitter_two_tensors)) [0; 0; 0; 0; 0])
    by (apply (bool_decide_unpack _); vm_compute; exact I).
  split; [exact Hne|]. split; [exact Hmax|]. split; [reflexivity|].
  split; [|split; [exact Hall|]].
  - apply (proj1 (init_ptr_with_offset_steps emitter_two_tensors rdi 0 15
                    [0; 0; 0; 48; 16] Hne Hmax eq_refl)).
  - apply (proj2 (init_ptr_with_offset_steps emitter_two_tensors rdi 0 15
                    [0; 0; 0; 0; 0] Hne Hmax eq_refl) Hall).
Defined.

Lemma wrap_disp (off idx : Z) :
  wrap (off + wrap (wrap idx * sizeof_void_ptr)) = wrap (off + 8 * idx).
Proof.
  unfold wrap, sizeof_void_ptr.
  rewrite Z.mul_mod_idemp_l by (rewrite size_t_modulus_eq; lia).
  rewrite Zplus_mod_idemp_r. f_equal. lia.
Qed.

Lemma buffers_loop_inv (GET_OFF : call_args_field -> Z) (reg_const_params : Reg64)
    (data_ptr_regs : list Reg64) (num_params : Z) :
  0 <= num_params ->
  forall (cnt i : nat) (code : list instruction),
    num_params + Z.of_nat i + Z.of_nat cnt <= size_t_modulus ->
    buffers_loop GET_OFF reg_const_params data_ptr_regs num_params cnt (Z.of_nat i)
      = Ok code ->
    length code = cnt
    /\ forall k, (k < cnt)%nat ->
         exists r,
           data_ptr_regs !! Z.to_nat (num_params + Z.of_nat i + Z.of_nat k) = Some r
           /\ code !! k
              = Some (mov_load r {| base := reg_const_params;
                                    disp := wrap (GET_OFF buffer_scratchpad_ptr) |}).
Proof.
  intros Hn. induction cnt as [|cnt IH]; intros i code Hsmall H.
  - injection H as <-. split; [done|]. intros; lia.
  - cbn [buffers_loop] in H.
    apply bind_Ok in H as (r & Hr & H).
    apply bind_Ok in H as (rest & Hrest & [= <-]).
    rewrite (wrap_small (num_params + Z.of_nat i)) in Hr by lia.
    apply vec_get_Ok in Hr as [_ Hr].
    replace (Z.of_nat i + 1) with (Z.of_nat (S i)) in Hrest by lia.
    apply IH in Hrest as [Hlen Hrest]; [|lia].
    split; [cbn; lia|]. intros [|k] Hk.
    + exists r. split; [|done]. by rewrite Z.add_0_r.
    + destruct (Hrest k) as (r' & Hr' & Hk'); [lia|].
      exists r'. split; [|done].
      by replace (num_params + Z.of_nat i + Z.of_nat (S k))
        with (num_params + Z.of_nat (S i) + Z.of_nat k) by lia.
Qed.



(** X8: a starved emitter without any IO tensor has no defined behaviour: the
    scratch register is read at data_ptr_regs[num_params - 1] with
    num_params = 0, far beyond the end of the vector. *)
Theorem starved_without_tensors_undefined (GET_OFF : call_args_field -> Z)
    (self : jit_kernel_emitter) (reg_indexes reg_const_params : Reg64)
    (data_ptr_regs : list Reg64) :
  wrap (num_inputs self + num_outputs self) = 0 ->
  no_spare_gpr self ->
  vec_size data_ptr_regs <= vector_max_size ->
  init_data_pointers GET_OFF self reg_indexes reg_const_params data_ptr_regs = Undefined.
Proof.
  intros Hn Hstarved Hsmall. unfold init_data_pointers. cbv zeta.
  rewrite Hn. cbn [Z.to_nat data_offsets_loop mbind result_bind].
  rewrite (proj1 (no_spare_gpr_find self) Hstarved).
  assert (E : vec_get data_ptr_regs (wrap (0 - 1)) = Undefined).
  { unfold vec_get. rewrite bool_decide_eq_false_2; [done|].
    rewrite vector_max_size_eq in Hsmall.
    change (wrap (0 - 1)) with 18446744073709551615. lia. }
  by rewrite E.
Qed.

Lemma starved_without_tensors_undefined_witness :
  exists emitter gpr_map_pool vec_map_pool,
    jit_kernel_emitter_ctor rdi rsi (Some kernel_buffers_only)
      = Ok (emitter, gpr_map_pool, vec_map_pool)
    /\ wrap (num_inputs emitter + num_outputs emitter) = 0
    /\ no_spare_gpr emitter
    /\ vec_size (transform_idxs_to_regs (data_ptr_regs_idx emitter)) <= vector_max_size
    /\ validate_arguments emitter [] [] = Ok tt
    /\ init_data_pointers GET_OFF_12 emitter rdi rsi
         (transform_idxs_to_regs (data_ptr_regs_idx emitter)) = Undefined.
Proof.
  eexists _, _, _. split; [vm_compute; reflexivity|].
  split; [reflexivity|].
  match goal with
  | |- no_spare_gpr ?e /\ _ =>
      assert (Hs : no_spare_gpr e)
        by (apply (bool_decide_unpack _); vm_compute; exact I)
  end.
  split; [exact Hs|]. split; [vm_compute; discriminate|]. split; [reflexivity|].
  apply starved_without_tensors_undefined;
    [reflexivity | exact Hs | vm_compute; discriminate].
Defined.

(** X9: whenever init_data_pointers returns, its first num_unique_buffers
    instructions load the registers after those of the tensors, one per
    buffer, all from the same place: the scratchpad pointer of the parameter
    block. *)
Theorem buffers_share_scratchpad (GET_OFF : call_args_field -> Z)
    (self : jit_kernel_emitter) (reg_indexes reg_const_params : Reg64)
    (data_ptr_regs : list Reg64) (code : list instruction) :
  0 <= num_unique_buffers self ->
  wrap (num_inputs self + num_outputs self) + num_unique_buffers self
    <= size_t_modulus ->
  init_data_pointers GET_OFF self reg_indexes reg_const_params data_ptr_regs = Ok code ->
  forall i : nat,
    Z.of_nat i < num_unique_buffers self ->
    exists r,
      data_ptr_regs !! Z.to_nat (wrap (num_inputs self + num_outputs self) + Z.of_nat i)
        = Some r
      /\ code !! i
         = Some (mov_load r {| base := reg_const_params;
                               disp := wrap (GET_OFF buffer_scratchpad_ptr) |}).
Proof.
  intros Hnb Hsmall H i Hi. unfold init_data_pointers in H. cbv zeta in H.
  apply bind_Ok in H as (data_offsets & _ & H).
  apply bind_Ok in H as (reg_tmp & _ & H).
  apply bind_Ok in H as (buffers & Hb & H).
  apply bind_Ok in H as (pointers & _ & H).
  apply bind_Ok in H as (last & _ & [= <-]).
  assert (Hn : 0 <= wrap (num_inputs self + num_outputs self)).
  { unfold wrap. apply Z.mod_pos_bound. by rewrite size_t_modulus_eq. }
  change 0 with (Z.of_nat 0) in Hb at 1.
  apply (buffers_loop_inv GET_OFF reg_const_params data_ptr_regs _ Hn) in Hb
    as [Hlen Hall]; [|lia].
  destruct (Hall i) as (r & Hr & Hcode); [lia|].
  exists r. split.
  - by rewrite Z.add_0_r in Hr.
  - rewrite lookup_app_l by lia. done.
Qed.

Lemma buffers_share_scratchpad_witness :
  exists emitter gpr_map_pool vec_map_pool code,
    jit_kernel_emitter_ctor rdi rsi (Some kernel_starved)
      = Ok (emitter, gpr_map_pool, vec_map_pool)
    /\ 0 <= num_unique_buffers emitter
    /\ wrap (num_inputs emitter + num_outputs emitter) + num_unique_buffers emitter
       <= size_t_modulus
    /\ init_data_pointers GET_OFF_12 emitter rdi rsi
         (transform_idxs_to_regs (data_ptr_regs_idx emitter)) = Ok code
    /\ Z.of_nat 0 < num_unique_buffers emitter
    /\ exists r,
         transform_idxs_to_regs (data_ptr_regs_idx emitter)
           !! Z.to_nat (wrap (num_inputs emitter + num_outputs emitter) + Z.of_nat 0)
           = Some r
         /\ code !! 0%nat
            = Some (mov_load r {| base := rsi;
                                  disp := wrap (GET_OFF_12 buffer_scratchpad_ptr) |}).
Proof.
  eexists _, _, _, _. split; [vm_compute; reflexivity|].
  split; [vm_compute; discriminate|]. split; [vm_compute; discriminate|].
  split; [vm_compute; reflexivity|]. split; [reflexivity|].
  eapply (buffers_share_scratchpad GET_OFF_12 _ rdi rsi);
    [vm_compute; discriminate | vm_compute; discriminate | vm_compute; reflexivity
    | reflexivity].
Defined.

(** * Further properties of the constructor *)

Lemma foldl_max_lt (bound x : Z) (l : list Z) :
  foldl Z.max x l < bound <-> Forall (fun y => y < bound) (x :: l).
Proof.
  revert x. induction l as [|y l IH]; intros x; cbn [foldl].
  - split; [intros; by repeat constructor | by intros [? _]%Forall_cons].
  - rewrite IH, !Forall_cons. split.
    + intros [Hmax Hl]. split_and!; [lia | lia | done].
    + intros (Hx & Hy & Hl). split; [lia | done].
Qed.

(** X10: the four outcomes of the checks on an IO descriptor.  They pass
    exactly for a non-empty layout of the rank of the shape whose entries
    are all below that rank; different lengths throw the length error; equal
    lengths with an entry at or above the rank throw the index error; and
    the outcome is undefined exactly for an empty shape with an empty
    layout. *)
Theorem check_descriptor_outcome (shape layout : list Z) :
  (check_descriptor shape layout = Ok tt
     <-> layout <> [] /\ length layout = length shape
         /\ Forall (fun x => x < vec_size shape) layout)
  /\ (check_descriptor shape layout = Throw ShapeLayoutLength
        <-> length layout <> length shape)
  /\ (check_descriptor shape layout = Throw MaxLayoutIndex
        <-> length layout = length shape
            /\ Exists (fun x => vec_size shape <= x) layout)
  /\ (check_descriptor shape layout = Undefined <-> shape = [] /\ layout = []).
Proof.
  unfold check_descriptor, assert, vec_size.
  case_bool_decide as Hlen; cbn [mbind result_bind].
  2: { split_and!.
       - split; [done|]. intros (_ & E & _). lia.
       - split; [intros _ E; lia | done].
       - split; [done|]. intros [E _]. lia.
       - split; [done|]. intros [-> ->]. done. }
  destruct layout as [|l0 layout]; cbn [max_element mbind result_bind].
  { destruct shape; [|cbn in Hlen; lia].
    split_and!.
    - split; [done|]. by intros [? _].
    - split; [done|]. intros E. done.
    - split; [done|]. intros [_ H]. by apply Exists_nil in H.
    - done. }
  assert (Hshape : shape <> []) by (destruct shape; [cbn in Hlen; lia | done]).
  pose proof (foldl_max_lt (Z.of_nat (length shape)) l0 layout) as Hmax.
  case_bool_decide as Hlt.
  - split_and!.
    + split; [|done]. intros _. split; [done|]. split; [lia|]. by apply Hmax.
    + split; [done|]. intros E. lia.
    + split; [done|]. intros [_ Hex]. apply Hmax in Hlt.
      apply Exists_exists in Hex as (x & Hx & Hge).
      pose proof (proj1 (Forall_forall _ _) Hlt x Hx). cbn in *. exfalso. lia.
    + split; [done|]. by intros [? _].
  - split_and!.
    + split; [done|]. intros (_ & _ & Hall). by apply Hmax in Hall.
    + split; [done|]. intros E. lia.
    + split; [|done]. intros _. split; [lia|].
      destruct (decide (Exists (fun x => Z.of_nat (length shape) <= x) (l0 :: layout)))
        as [Hex|Hex]; [done|].
      exfalso. apply Hlt, Hmax. apply Forall_forall. intros x Hx.
      destruct (decide (x < Z.of_nat (length shape))) as [|Hge]; [done|].
      exfalso. apply Hex. apply Exists_exists. exists x. split; [done | lia].
    + split; [done|]. by intros [_ ?].
Qed.

(** X11: the constructor left-pads the master shape of the body with 1s up
    to parallel_executor_ndims; when the master shape is longer than that,
    the count of 1s underflows and the constructor throws. *)
Theorem ctor_master_shape (abi_param1 abi_param2 : Z) (kernel : Kernel)
    (args : jit_snippets_compile_args) :
  compile_params kernel = Some args ->
  region kernel <> [] ->
  0 <= parallel_executor_ndims args < size_t_modulus ->
  vec_size (get_master_shape kernel) <= vector_max_size ->
  (forall emitter gpr_map_pool vec_map_pool,
     jit_kernel_emitter_ctor abi_param1 abi_param2 (Some kernel)
       = Ok (emitter, gpr_map_pool, vec_map_pool) ->
     master_shape emitter
       = replicate (Z.to_nat (parallel_executor_ndims args)
                    - length (get_master_shape kernel)) 1
         ++ get_master_shape kernel
     /\ vec_size (master_shape emitter) = parallel_executor_ndims args)
  /\ (parallel_executor_ndims args < vec_size (get_master_shape kernel) ->
      jit_kernel_emitter_ctor abi_param1 abi_param2 (Some kernel) = Throw LengthError).
Proof.
  intros Hargs Hregion Hndims Hmax.
  rewrite size_t_modulus_eq in Hndims. rewrite vector_max_size_eq in Hmax.
  unfold vec_size in *. split.
  - intros emitter gpr_map_pool vec_map_pool H.
    unfold jit_kernel_emitter_ctor in H.
    apply bind_Ok in H as (k & [= <-] & H).
    apply bind_Ok in H as (_ & _ & H).
    rewrite Hargs in H. cbn [mbind result_bind] in H.
    apply bind_Ok in H as (ms & Hms & H).
    apply bind_Ok in H as (io & _ & H).
    destruct (classify ∅ (region kernel)) as [classified unique_buffers].
    apply bind_Ok in H as ([[g1 v1] mapped1] & _ & H).
    apply bind_Ok in H as ([[g2 v2] mapped2] & _ & H).
    injection H as <- _ _. cbn [master_shape].
    unfold insert_front, vec_size, wrap in Hms.
    rewrite vector_max_size_eq, size_t_modulus_eq in Hms.
    destruct (Z.ltb_spec
                (1152921504606846975 - Z.of_nat (length (get_master_shape kernel)))
                ((parallel_executor_ndims args
                  - Z.of_nat (length (get_master_shape kernel)))
                 mod 18446744073709551616)) as [|Hfit]; [done|].
    injection Hms as <-.
    pose proof (Z.mod_pos_bound
                  (parallel_executor_ndims args
                   - Z.of_nat (length (get_master_shape kernel)))
                  18446744073709551616 ltac:(lia)) as Hbound.
    pose proof (Z.div_mod
                  (parallel_executor_ndims args
                   - Z.of_nat (length (get_master_shape kernel)))
                  18446744073709551616 ltac:(lia)) as Hdiv.
    split.
    + f_equal. f_equal. lia.
    + rewrite length_app, length_replicate. lia.
  - intros Hlong. unfold jit_kernel_emitter_ctor.
    cbn [mbind result_bind]. unfold assert.
    rewrite (bool_decide_eq_false_2 _ Hregion). cbn [negb mbind result_bind].
    rewrite Hargs. cbn [mbind result_bind].
    unfold insert_front, vec_size, wrap.
    rewrite vector_max_size_eq, size_t_modulus_eq.
    pose proof (Z.mod_pos_bound
                  (parallel_executor_ndims args
                   - Z.of_nat (length (get_master_shape kernel)))
                  18446744073709551616 ltac:(lia)) as Hbound.
    pose proof (Z.div_mod
                  (parallel_executor_ndims args
                   - Z.of_nat (length (get_master_shape kernel)))
                  18446744073709551616 ltac:(lia)) as Hdiv.
    rewrite (proj2 (Z.ltb_lt _ _)) by lia. done.
Qed.

Lemma ctor_master_shape_witness :
  exists emitter gpr_map_pool vec_map_pool,
    compile_params kernel_two_tensors = Some {| parallel_executor_ndims := 6 |}
    /\ region kernel_two_tensors <> []
    /\ 0 <= 6 < size_t_modulus
    /\ vec_size (get_master_shape kernel_two_tensors) <= vector_max_size
    /\ jit_kernel_emitter_ctor rdi rsi (Some kernel_two_tensors)
       = Ok (emitter, gpr_map_pool, vec_map_pool)
    /\ master_shape emitter = [1; 1; 1; 2; 3; 4]
    /\ vec_size (master_shape emitter) = 6
    /\ 6 < vec_size (get_master_shape kernel_long_master)
    /\ jit_kernel_emitter_ctor rdi rsi (Some kernel_long_master) = Throw LengthError.
Proof.
  eexists _, _, _.
  split; [reflexivity|]. split; [discriminate|]. split; [split; [discriminate | reflexivity]|].
  split; [vm_compute; discriminate|]. split; [vm_compute; reflexivity|].
  destruct (ctor_master_shape rdi rsi kernel_two_tensors
              {| parallel_executor_ndims := 6 |} eq_refl)
    as [Hok _]; [discriminate | split; [discriminate | reflexivity]
                | vm_compute; discriminate |].
  destruct (ctor_master_shape rdi rsi kernel_long_master
              {| parallel_executor_ndims := 6 |} eq_refl)
    as [_ Hthrow]; [discriminate | split; [discriminate | reflexivity]
                   | vm_compute; discriminate |].
  edestruct Hok as [Hshape Hsize]; [vm_compute; reflexivity|].
  split; [exact Hshape|]. split; [exact Hsize|]. split; [reflexivity|].
  apply Hthrow. reflexivity.
Defined.

Lemma wrap_add_l (a b : Z) : wrap (wrap a + b) = wrap (a + b).
Proof. unfold wrap. by rewrite Zplus_mod_idemp_l. Qed.

Lemma io_step_resolved (acc io : io_info) (expr : IOExpression) :
  io_step acc expr = Ok io ->
  get_type expr <> UNDEFINED
  /\ io_info_shapes io = io_info_shapes acc ++ [get_shape (resolved_descriptor expr)]
  /\ io_info_layouts io = io_info_layouts acc ++ [get_layout (resolved_descriptor expr)]
  /\ io_info_sizes io = io_info_sizes acc ++ [element_type_size expr]
  /\ io_num_inputs io
     = (if decide (get_type expr = INPUT) then wrap (io_num_inputs acc + 1)
        else io_num_inputs acc)
  /\ io_num_outputs io
     = (if decide (get_type expr = OUTPUT) then wrap (io_num_outputs acc + 1)
        else io_num_outputs acc).
Proof.
  unfold io_step, resolved_descriptor. intros H.
  apply bind_Ok in H as ([[[desc etype] n_in] n_out] & Hsel & H).
  apply bind_Ok in H as ([] & _ & [= <-]). cbn.
  destruct (get_type expr); [| |done].
  - destruct (get_consumers expr) as [|c cs]; [done|].
    injection Hsel as <- <- <- <-. by split_and!.
  - injection Hsel as <- <- <- <-. by split_and!.
Qed.

Lemma count_io_cons (t : io_type) (expr : IOExpression) (io_exprs : list IOExpression) :
  count_io t (expr :: io_exprs)
  = (if decide (get_type expr = t) then 1 else 0) + count_io t io_exprs.
Proof.
  unfold count_io. rewrite filter_cons.
  destruct (decide (get_type expr = t)); cbn [length]; lia.
Qed.

Lemma io_loop_resolved (io_exprs : list IOExpression) :
  forall (acc io : io_info),
    wrap (io_num_inputs acc) = io_num_inputs acc ->
    wrap (io_num_outputs acc) = io_num_outputs acc ->
    io_loop acc io_exprs = Ok io ->
    Forall (fun expr => get_type expr <> UNDEFINED) io_exprs
    /\ io_info_shapes io
       = io_info_shapes acc ++ ((get_shape ∘ resolved_descriptor) <$> io_exprs)
    /\ io_info_layouts io
       = io_info_layouts acc ++ ((get_layout ∘ resolved_descriptor) <$> io_exprs)
    /\ io_info_sizes io = io_info_sizes acc ++ (element_type_size <$> io_exprs)
    /\ io_num_inputs io = wrap (io_num_inputs acc + count_io INPUT io_exprs)
    /\ io_num_outputs io = wrap (io_num_outputs acc + count_io OUTPUT io_exprs).
Proof.
  induction io_exprs as [|expr io_exprs IH]; intros acc io Hni Hno H.
  - injection H as <-. unfold count_io. cbn. rewrite !app_nil_r, !Z.add_0_r.
    by split_and!.
  - cbn [io_loop] in H. apply bind_Ok in H as (acc' & Hstep & H).
    apply io_step_resolved in Hstep as (Ht & Hs & Hl & Hz & Hi & Ho).
    apply IH in H as (Hts & Hs' & Hl' & Hz' & Hi' & Ho').
    + rewrite !count_io_cons, !fmap_cons.
      split_and!.
      * by constructor.
      * by rewrite Hs', Hs, <- app_assoc.
      * by rewrite Hl', Hl, <- app_assoc.
      * by rewrite Hz', Hz, <- app_assoc.
      * rewrite Hi', Hi. destruct (decide (get_type expr = INPUT)).
        -- rewrite wrap_add_l. f_equal; lia.
        -- f_equal; lia.
      * rewrite Ho', Ho. destruct (decide (get_type expr = OUTPUT)).
        -- rewrite wrap_add_l. f_equal; lia.
        -- f_equal; lia.
    + rewrite Hi. destruct (decide (get_type expr = INPUT)); [|done].
      unfold wrap. by rewrite Zmod_mod.
    + rewrite Ho. destruct (decide (get_type expr = OUTPUT)); [|done].
      unfold wrap. by rewrite Zmod_mod.
Qed.

Lemma count_io_total (io_exprs : list IOExpression) :
  Forall (fun expr => get_type expr <> UNDEFINED) io_exprs ->
  count_io INPUT io_exprs + count_io OUTPUT io_exprs = Z.of_nat (length io_exprs).
Proof.
  induction 1 as [|expr io_exprs Ht _ IH]; [done|].
  rewrite !count_io_cons. cbn [length].
  destruct (get_type expr); [| |done]; repeat case_decide; try done; lia.
Qed.

(** X12: when the constructor returns, the shapes, layouts and element
    sizes it recorded are those of the IO expressions of the body, in body
    order, each with the descriptor of its first consumer when that consumer
    normalises the rank of an input; num_inputs and num_outputs count the
    inputs and the outputs, and together they count the recorded tensors. *)
Theorem ctor_io_descriptors (abi_param1 abi_param2 : Z) (kernel : Kernel)
    (emitter : jit_kernel_emitter) (gpr_map_pool vec_map_pool : mapping_info) :
  jit_kernel_emitter_ctor abi_param1 abi_param2 (Some kernel)
    = Ok (emitter, gpr_map_pool, vec_map_pool) ->
  vec_size (get_IO_ops (region kernel)) < size_t_modulus ->
  let io_exprs := get_IO_ops (region kernel) in
  io_shapes emitter = (get_shape ∘ resolved_descriptor) <$> io_exprs
  /\ io_data_layouts emitter = (get_layout ∘ resolved_descriptor) <$> io_exprs
  /\ io_data_sizes emitter = element_type_size <$> io_exprs
  /\ num_inputs emitter = count_io INPUT io_exprs
  /\ num_outputs emitter = count_io OUTPUT io_exprs
  /\ num_inputs emitter + num_outputs emitter = vec_size (io_shapes emitter).
Proof.
  intros H Hsmall io_exprs. unfold jit_kernel_emitter_ctor in H.
  apply bind_Ok in H as (k & [= <-] & H).
  apply bind_Ok in H as (_ & _ & H).
  apply bind_Ok in H as (jcp0 & _ & H).
  apply bind_Ok in H as (ms & _ & H).
  apply bind_Ok in H as (io & Hio & H).
  destruct (classify ∅ (region kernel)) as [classified unique_buffers].
  apply bind_Ok in H as ([[g1 v1] mapped1] & _ & H).
  apply bind_Ok in H as ([[g2 v2] mapped2] & _ & H).
  injection H as <- _ _.
  cbn [io_shapes io_data_layouts io_data_sizes num_inputs num_outputs].
  apply io_loop_resolved in Hio as (Ht & Hs & Hl & Hz & Hi & Ho); [|done..].
  cbn [io_info_shapes io_info_layouts io_info_sizes io_num_inputs io_num_outputs app]
    in *.
  fold io_exprs in Ht, Hs, Hl, Hz, Hi, Ho, Hsmall.
  pose proof (count_io_total io_exprs Ht) as Htotal.
  assert (Hin : 0 <= count_io INPUT io_exprs) by (unfold count_io; lia).
  assert (Hout : 0 <= count_io OUTPUT io_exprs) by (unfold count_io; lia).
  unfold vec_size in *.
  rewrite Z.add_0_l, wrap_small in Hi by lia.
  rewrite Z.add_0_l, wrap_small in Ho by lia.
  split_and!; try done.
  rewrite Hi, Ho, Hs, length_fmap. done.
Qed.

Lemma ctor_io_descriptors_witness :
  exists emitter gpr_map_pool vec_map_pool,
    jit_kernel_emitter_ctor rdi rsi (Some kernel_starved)
      = Ok (emitter, gpr_map_pool, vec_map_pool)
    /\ vec_size (get_IO_ops (region kernel_starved)) < size_t_modulus
    /\ io_shapes emitter
       = (get_shape ∘ resolved_descriptor) <$> get_IO_ops (region kernel_starved)
    /\ num_inputs emitter = 10
    /\ num_outputs emitter = 1
    /\ num_inputs emitter + num_outputs emitter = vec_size (io_shapes emitter).
Proof.
  eexists _, _, _. split; [vm_compute; reflexivity|].
  split; [vm_compute; reflexivity|].
  edestruct (ctor_io_descriptors rdi rsi kernel_starved)
    as (Hs & _ & _ & Hi & Ho & Hn);
    [vm_compute; reflexivity | vm_compute; reflexivity |].
  split; [exact Hs|]. split; [exact Hi|]. split; [exact Ho|]. exact Hn.
Defined.

Lemma exprs_of_cons (c c' : expr_class) (expr : Expression)
    (classified : list (expr_class * Expression)) :
  exprs_of c ((c', expr) :: classified)
  = if decide (c' = c) then expr :: exprs_of c classified else exprs_of c classified.
Proof.
  unfold exprs_of. rewrite filter_cons. cbn [fst].
  by destruct (decide (c' = c)).
Qed.

Lemma classify_spec (body : list Expression) :
  forall (seen : gset Z),
    let classified := fst (classify seen body) in
    let unique_buffers := snd (classify seen body) in
    snd <$> classified = body
    /\ unique_buffers = seen ∪ list_to_set (buffer_ids body)
    /\ NoDup (buffer_ids (exprs_of mem_access classified))
    /\ (forall id, id ∈ buffer_ids (exprs_of mem_access classified)
                   <-> (id ∈ buffer_ids body) /\ (id ∉ seen))
    /\ get_IO_ops (exprs_of mem_access classified) = get_IO_ops body
    /\ exprs_of general classified = filter (fun expr => is_other expr = true) body.
Proof.
  induction body as [|expr body IH]; intros seen.
  - cbn. split_and!; try done; [set_solver | constructor | set_solver].
  - cbn [classify]. unfold buffer_ids, get_IO_ops, is_other in *.
    rewrite filter_cons. cbn [omap list_omap].
    destruct (get_node expr) as [io|id|] eqn:Hnode.
    + specialize (IH seen). destruct (classify seen body) as [cl ub].
      cbn [fst snd] in *. destruct IH as (Hb & Hub & Hnd & Hin & Hio & Hgen).
      rewrite !exprs_of_cons. cbn [omap list_omap fmap list_fmap snd].
      destruct (decide (mem_access = mem_access)); [|done].
      destruct (decide (mem_access = general)); [done|].
      cbn [omap list_omap]. rewrite Hnode.
      destruct (decide (false = true)); [done|].
      split_and!; [by rewrite Hb | done | done | done | by rewrite Hio | done].
    + case_bool_decide as Hseen.
      * specialize (IH seen). destruct (classify seen body) as [cl ub].
        cbn [fst snd] in *. destruct IH as (Hb & Hub & Hnd & Hin & Hio & Hgen).
        rewrite !exprs_of_cons. cbn [omap list_omap fmap list_fmap snd].
        destruct (decide (skipped = mem_access)); [done|].
        destruct (decide (skipped = general)); [done|].
        destruct (decide (false = true)); [done|].
        split_and!; [by rewrite Hb | set_solver | done | | done | done].
        intros id'. rewrite Hin, elem_of_cons. split; [tauto|].
        intros [[->|?] ?]; [done | tauto].
      * specialize (IH ({[id]} ∪ seen)).
        destruct (classify ({[id]} ∪ seen) body) as [cl ub].
        cbn [fst snd] in *. destruct IH as (Hb & Hub & Hnd & Hin & Hio & Hgen).
        rewrite !exprs_of_cons. cbn [omap list_omap fmap list_fmap snd].
        destruct (decide (mem_access = mem_access)); [|done].
        destruct (decide (mem_access = general)); [done|].
        destruct (decide (false = true)); [done|].
        cbn [omap list_omap]. rewrite Hnode.
        split_and!; [by rewrite Hb | set_solver | | | done | done].
        -- apply NoDup_cons. split; [|done]. rewrite Hin. set_solver.
        -- intros id'. rewrite !elem_of_cons, Hin. split.
           ++ intros [->|[? ?]]; [tauto | set_solver].
           ++ intros [[->|?] ?]; [by left|]. 
              destruct (decide (id' = id)) as [->|?]; [by left | right; set_solver].
    + specialize (IH seen). destruct (classify seen body) as [cl ub].
      cbn [fst snd] in *. destruct IH as (Hb & Hub & Hnd & Hin & Hio & Hgen).
      rewrite !exprs_of_cons. cbn [omap list_omap fmap list_fmap snd].
      destruct (decide (general = mem_access)); [done|].
      destruct (decide (general = general)); [|done].
      destruct (decide (true = true)); [|done].
      split_and!; [by rewrite Hb | done | done | done | done | by rewrite Hgen].
Qed.

(** X13: the loop over the body puts every IO expression and the first
    buffer expression of each id among the memory-access expressions, every
    expression that is neither among the general ones, and leaves out the
    later buffer expressions of an id: the buffer ids among the
    memory-access expressions are those of the body, each once, and the set
    of ids met has as many members as there are buffer expressions kept. *)
Theorem classify_buffers (body : list Expression) :
  let classified := fst (classify ∅ body) in
  let unique_buffers := snd (classify ∅ body) in
  snd <$> classified = body
  /\ NoDup (buffer_ids (exprs_of mem_access classified))
  /\ (forall id, id ∈ buffer_ids (exprs_of mem_access classified) <-> id ∈ buffer_ids body)
  /\ size unique_buffers = length (buffer_ids (exprs_of mem_access classified))
  /\ get_IO_ops (exprs_of mem_access classified) = get_IO_ops body
  /\ exprs_of general classified = filter (fun expr => is_other expr = true) body.
Proof.
  destruct (classify_spec body ∅) as (Hb & Hub & Hnd & Hin & Hio & Hgen).
  cbv zeta. split_and!; [done | done | | | done | done].
  - intros id. rewrite Hin. set_solver.
  - rewrite Hub, <- (size_list_to_set (C := gset Z)) by done.
    f_equal. apply set_eq. intros id.
    rewrite elem_of_union, !elem_of_list_to_set, Hin. set_solver.
Qed.

(** X14: when the constructor returns, num_unique_buffers is the number of
    distinct buffer ids in the body, however many buffer expressions share
    an id. *)
Theorem ctor_num_unique_buffers (abi_param1 abi_param2 : Z) (kernel : Kernel)
    (emitter : jit_kernel_emitter) (gpr_map_pool vec_map_pool : mapping_info) :
  jit_kernel_emitter_ctor abi_param1 abi_param2 (Some kernel)
    = Ok (emitter, gpr_map_pool, vec_map_pool) ->
  num_unique_buffers emitter
  = Z.of_nat (size (list_to_set (buffer_ids (region kernel)) : gset Z)).
Proof.
  intros H. unfold jit_kernel_emitter_ctor in H.
  apply bind_Ok in H as (k & [= <-] & H).
  apply bind_Ok in H as (_ & _ & H).
  apply bind_Ok in H as (jcp0 & _ & H).
  apply bind_Ok in H as (ms & _ & H).
  apply bind_Ok in H as (io & _ & H).
  destruct (classify_spec (region kernel) ∅) as (_ & Hub & _).
  destruct (classify ∅ (region kernel)) as [classified unique_buffers].
  apply bind_Ok in H as ([[g1 v1] mapped1] & _ & H).
  apply bind_Ok in H as ([[g2 v2] mapped2] & _ & H).
  injection H as <- _ _. cbn [num_unique_buffers snd] in *.
  rewrite Hub. f_equal. f_equal. set_solver.
Qed.

Lemma ctor_num_unique_buffers_witness :
  exists emitter gpr_map_pool vec_map_pool,
    jit_kernel_emitter_ctor rdi rsi (Some kernel_shared_buffer)
      = Ok (emitter, gpr_map_pool, vec_map_pool)
    /\ buffer_ids (region kernel_shared_buffer) = [7; 7; 8]
    /\ num_unique_buffers emitter = 2
    /\ num_unique_buffers emitter
       = Z.of_nat (size (list_to_set (buffer_ids (region kernel_shared_buffer)) : gset Z)).
Proof.
  eexists _, _, _. split; [vm_compute; reflexivity|].
  split; [reflexivity|]. split; [reflexivity|].
  eapply (ctor_num_unique_buffers rdi rsi kernel_shared_buffer).
  vm_compute. reflexivity.
Defined.

Lemma elem_of_initial_pool (x : Z) : x ∈ initial_pool <-> 0 <= x <= 15.
Proof.
  unfold initial_pool. rewrite list_elem_of_fmap. split.
  - intros (i & -> & Hi). apply elem_of_seq in Hi. lia.
  - intros Hx. exists (Z.to_nat (15 - x)). split; [lia|]. apply elem_of_seq. lia.
Qed.

Lemma StronglySorted_filter {A : Type} (R : relation A) (P : A -> Prop)
    `{forall x, Decision (P x)} (l : list A) :
  StronglySorted R l -> StronglySorted R (filter P l).
Proof.
  induction 1 as [|x l Hl IH Hx]; [constructor|].
  rewrite filter_cons. destruct (decide (P x)); [|done].
  constructor; [done|]. apply Forall_forall. intros y [_ Hy]%list_elem_of_filter.
  by apply (proj1 (Forall_forall _ _) Hx).
Qed.

(** X15: once the four reserved registers are removed (lines 79-94), the
    general-purpose pool holds exactly the registers 0..15 other than the
    stack pointer, the frame pointer and the two ABI registers, in
    descending order, so that taking the last member hands registers out in
    ascending order; when the two ABI registers are distinct members of the
    register file other than the stack and frame pointers, 12 registers are
    left. *)
Theorem reserved_pool (abi_param1 abi_param2 : Z) :
  let pool := remove_regs_from_pool initial_pool [RSP; RBP; abi_param1; abi_param2] in
  (forall x, x ∈ pool <-> 0 <= x <= 15 /\ (x ∉ [RSP; RBP; abi_param1; abi_param2]))
  /\ StronglySorted (fun a b => b < a) pool
  /\ (abi_param1 <> abi_param2 ->
      0 <= abi_param1 <= 15 -> 0 <= abi_param2 <= 15 ->
      abi_param1 ∉ [RSP; RBP] -> abi_param2 ∉ [RSP; RBP] ->
      length pool = 12%nat).
Proof.
  cbv zeta. split_and!.
  - intros x. rewrite elem_of_remove_regs_from_pool, elem_of_initial_pool. tauto.
  - apply StronglySorted_filter. apply (bool_decide_unpack _). by vm_compute.
  - intros Hne H1 H2 H1' H2'.
    set (reserved := [RSP; RBP; abi_param1; abi_param2]).
    pose proof (filter_app_complement (fun x : Z => x ∉ reserved) initial_pool) as Hsplit.
    apply Permutation_length in Hsplit. rewrite length_app in Hsplit.
    assert (Hremoved : filter (fun x : Z => ¬ (x ∉ reserved)) initial_pool ≡ₚ reserved).
    { apply NoDup_Permutation.
      - apply NoDup_filter, initial_pool_NoDup.
      - subst reserved. repeat (apply NoDup_cons; split);
          [set_solver | set_solver | set_solver | set_solver | constructor].
      - intros x. rewrite list_elem_of_filter, elem_of_initial_pool.
        split; [intros [Hx _]; by apply dec_stable in Hx|].
        intros Hx. split; [tauto|]. subst reserved.
        repeat (apply elem_of_cons in Hx as [->|Hx]);
          [unfold RSP; lia | unfold RBP; lia | lia | lia | by apply elem_of_nil in Hx]. }
    apply Permutation_length in Hremoved. unfold remove_regs_from_pool.
    fold reserved. change (length initial_pool) with 16%nat in Hsplit.
    change (length reserved) with 4%nat in Hremoved. lia.
Qed.

Lemma reserved_pool_witness :
  rdi <> rsi
  /\ 0 <= rdi <= 15 /\ 0 <= rsi <= 15
  /\ (rdi ∉ [RSP; RBP]) /\ (rsi ∉ [RSP; RBP])
  /\ remove_regs_from_pool initial_pool [RSP; RBP; rdi; rsi]
     = [15; 14; 13; 12; 11; 10; 9; 8; 3; 2; 1; 0]
  /\ length (remove_regs_from_pool initial_pool [RSP; RBP; rdi; rsi]) = 12%nat.
Proof.
  assert (H1 : rdi ∉ [RSP; RBP]) by (apply (bool_decide_unpack _); vm_compute; exact I).
  assert (H2 : rsi ∉ [RSP; RBP]) by (apply (bool_decide_unpack _); vm_compute; exact I).
  split; [discriminate|]. split; [split; discriminate|]. split; [split; discriminate|].
  split; [exact H1|]. split; [exact H2|]. split; [vm_compute; reflexivity|].
  apply (proj2 (proj2 (reserved_pool rdi rsi)));
    [discriminate | split; discriminate | split; discriminate | exact H1 | exact H2].
Defined.

(** * Further properties, across the offset calculation and the emission *)

(** X16: the broadcast rule on the final offsets.  For a tensor laid out in
    the order of its axes, an outer dimension of extent 1 gets offset 0, and
    so does every leading dimension the master shape has in excess of the
    tensor. *)
Theorem unit_dim_offset_zero (master_shape shape : list Z) (data_size : Z)
    (is_input : bool) (k : nat) :
  (length shape <= length master_shape)%nat ->
  vec_size shape < 2 ^ 31 ->
  vec_size master_shape <= vector_max_size ->
  (S k < length shape)%nat ->
  shape !! k = Some 1 ->
  exists offsets,
    offset_calculation (wrap (vec_size master_shape - 1)) shape
      (identity_layout (length shape)) data_size is_input = Ok offsets
    /\ offsets !! (length master_shape - length shape + k)%nat = Some 0
    /\ forall j, (j < length master_shape - length shape)%nat -> offsets !! j = Some 0.
Proof.
  intros Hrank Hsmall Hmax Hk Hunit.
  assert (Hne : shape <> []) by (intros ->; cbn in Hk; lia).
  rewrite offset_calculation_identity.
  destruct (offset_calculation_ok master_shape shape [] data_size is_input
              Hne Hrank Hsmall Hmax) as (offsets & Hrun & _); [by left|].
  exists offsets. split; [done|].
  destruct (offset_calculation_padded _ _ _ _ _ _ Hmax Hrun)
    as (strides & Hstrides & _ & ->).
  unfold reordered_strides_of in Hstrides.
  destruct (raw_strides_spec shape data_size Hne Hsmall)
    as (raw & Hraw & Hlen & _ & Hrest).
  rewrite Hraw in Hstrides. injection Hstrides as <-.
  split.
  - rewrite lookup_app_r by (rewrite length_replicate; lia).
    rewrite length_replicate.
    replace (length master_shape - length shape + k
             - (length master_shape - length shape))%nat with k by lia.
    rewrite removelast_lookup by lia.
    rewrite (Hrest k 1 Hk Hunit).
    by rewrite (bool_decide_eq_false_2 (1 <> 1)) by (intros E; by apply E).
  - intros j Hj. rewrite lookup_app_l by (rewrite length_replicate; lia).
    by apply lookup_replicate_2.
Qed.

Lemma unit_dim_offset_zero_witness :
  (length [5; 1; 7] <= length [1; 1; 1; 5; 3; 7])%nat
  /\ vec_size [5; 1; 7] < 2 ^ 31
  /\ vec_size [1; 1; 1; 5; 3; 7] <= vector_max_size
  /\ (2 < length [5; 1; 7])%nat
  /\ [5; 1; 7] !! 1%nat = Some 1
  /\ exists offsets,
       offset_calculation (wrap (vec_size [1; 1; 1; 5; 3; 7] - 1)) [5; 1; 7]
         (identity_layout (length [5; 1; 7])) 8 true = Ok offsets
       /\ offsets !! (length [1; 1; 1; 5; 3; 7] - length [5; 1; 7] + 1)%nat = Some 0
       /\ forall j, (j < length [1; 1; 1; 5; 3; 7] - length [5; 1; 7])%nat ->
                    offsets !! j = Some 0.
Proof.
  split; [cbn; lia|]. split; [reflexivity|]. split; [vm_compute; discriminate|].
  split; [cbn; lia|]. split; [reflexivity|].
  apply (unit_dim_offset_zero [1; 1; 1; 5; 3; 7] [5; 1; 7] 8 true 1);
    [cbn; lia | reflexivity | vm_compute; discriminate | cbn; lia | reflexivity].
Defined.

Lemma check_descriptor_outcome_witness :
  [0; 2; 1] <> []
  /\ length [0; 2; 1] = length [2; 3; 4]
  /\ Forall (fun x => x < vec_size [2; 3; 4]) [0; 2; 1]
  /\ check_descriptor [2; 3; 4] [0; 2; 1] = Ok tt
  /\ length [0; 1] <> length [2; 3; 4]
  /\ check_descriptor [2; 3; 4] [0; 1] = Throw ShapeLayoutLength
  /\ Exists (fun x => vec_size [2; 3; 4] <= x) [0; 3; 1]
  /\ check_descriptor [2; 3; 4] [0; 3; 1] = Throw MaxLayoutIndex.
Proof.
  assert (Hall : Forall (fun x => x < vec_size [2; 3; 4]) [0; 2; 1])
    by (apply (bool_decide_unpack _); vm_compute; exact I).
  assert (Hex : Exists (fun x => vec_size [2; 3; 4] <= x) [0; 3; 1])
    by (apply (bool_decide_unpack _); vm_compute; exact I).
  split; [discriminate|]. split; [reflexivity|]. split; [exact Hall|]. split.
  { apply (proj1 (check_descriptor_outcome [2; 3; 4] [0; 2; 1])).
    split; [discriminate|]. split; [reflexivity | exact Hall]. }
  split; [discriminate|]. split.
  { apply (proj1 (proj2 (check_descriptor_outcome [2; 3; 4] [0; 1]))). discriminate. }
  split; [exact Hex|].
  apply (proj1 (proj2 (proj2 (check_descriptor_outcome [2; 3; 4] [0; 3; 1])))).
  split; [reflexivity | exact Hex].
Defined.

Lemma classify_buffers_witness :
  buffer_ids (region kernel_shared_buffer) = [7; 7; 8]
  /\ buffer_ids (exprs_of mem_access (fst (classify ∅ (region kernel_shared_buffer))))
     = [7; 8]
  /\ size (snd (classify ∅ (region kernel_shared_buffer))) = 2%nat
  /\ (7 ∈ buffer_ids (exprs_of mem_access (fst (classify ∅ (region kernel_shared_buffer)))))
  /\ length (exprs_of general (fst (classify ∅ (region kernel_shared_buffer)))) = 1%nat.
Proof.
  destruct (classify_buffers (region kernel_shared_buffer))
    as (_ & _ & Hin & Hsize & _ & Hgen).
  split; [reflexivity|]. split; [vm_compute; reflexivity|]. split.
  { rewrite Hsize. vm_compute. reflexivity. }
  split.
  { apply Hin. apply (bool_decide_unpack _). vm_compute. exact I. }
  rewrite Hgen. vm_compute. reflexivity.
Defined.

(** * The code of init_data_pointers, instruction by instruction *)

Lemma wrap_disp_scaled (off idx : Z) :
  wrap (off + wrap (idx * sizeof_void_ptr)) = wrap (off + 8 * idx).
Proof.
  unfold wrap, sizeof_void_ptr. rewrite Zplus_mod_idemp_r. f_equal. lia.
Qed.

Lemma accumulation_instrs (master_shape : list Z) (reg_indexes pointer reg_tmp : Reg64)
    (offsets : list Z) :
  Forall (accumulation_instr reg_indexes pointer reg_tmp)
    (accumulation master_shape reg_indexes pointer reg_tmp offsets).
Proof.
  unfold accumulation. generalize (zip master_shape offsets). intros l.
  assert (H : forall g : nat -> nat,
            Forall (accumulation_instr reg_indexes pointer reg_tmp)
              (mjoin (imap (fun j mo => offset_step reg_indexes pointer reg_tmp (g j)
                                          (fst mo) (snd mo)) l))).
  { induction l as [|[m o] l IH]; intros g; [constructor|].
    rewrite imap_cons. cbn [mjoin list_join]. apply Forall_app. split.
    - unfold offset_step. cbn [fst snd]. destruct (_ && _); [|constructor].
      constructor; [left; by eexists|].
      constructor; [right; left; by eexists|].
      constructor; [by right; right | constructor].
    - apply (IH (g ∘ S)). }
  apply (H id).
Qed.

Lemma init_ptr_with_offset_code (self : jit_kernel_emitter)
    (reg_indexes pointer reg_tmp : Reg64) (offsets : list Z) :
  master_shape self <> [] ->
  vec_size (master_shape self) <= vector_max_size ->
  vec_size offsets = vec_size (master_shape self) - 1 ->
  init_ptr_with_offset self (wrap (vec_size (master_shape self) - 1))
    reg_indexes pointer offsets reg_tmp
  = Ok (accumulation (master_shape self) reg_indexes pointer reg_tmp offsets).
Proof.
  intros Hne Hmax Hlen. unfold init_ptr_with_offset, accumulation, vec_size in *.
  assert ((0 < length (master_shape self))%nat)
    by (destruct (master_shape self); [done | cbn; lia]).
  rewrite vector_max_size_eq in Hmax.
  rewrite wrap_small by (rewrite size_t_modulus_eq; lia).
  change 0 with (Z.of_nat 0).
  rewrite init_ptr_loop_steps by (rewrite ?size_t_modulus_eq; lia).
  by rewrite drop_0, take_ge by (rewrite length_zip; lia).
Qed.

Lemma buffers_loop_code (GET_OFF : call_args_field -> Z) (reg_const_params : Reg64)
    (data_ptr_regs : list Reg64) (num_params : nat) :
  vec_size data_ptr_regs < size_t_modulus ->
  forall (cnt i : nat),
    (num_params + i + cnt <= length data_ptr_regs)%nat ->
    buffers_loop GET_OFF reg_const_params data_ptr_regs (Z.of_nat num_params) cnt
      (Z.of_nat i)
    = Ok (buffer_loads GET_OFF reg_const_params
            (take cnt (drop (num_params + i) data_ptr_regs))).
Proof.
  intros Hsmall. unfold vec_size in Hsmall.
  induction cnt as [|cnt IH]; intros i Hi.
  - by rewrite take_0.
  - destruct (lookup_lt_is_Some_2 data_ptr_regs (num_params + i)) as [r Hr]; [lia|].
    rewrite (drop_S _ _ _ Hr). cbn [take]. cbn [buffers_loop].
    rewrite (wrap_small (Z.of_nat num_params + Z.of_nat i)) by lia.
    replace (Z.of_nat num_params + Z.of_nat i) with (Z.of_nat (num_params + i)) by lia.
    rewrite (vec_get_lookup _ _ _ Hr). cbn [mbind result_bind].
    replace (Z.of_nat i + 1) with (Z.of_nat (S i)) by lia.
    rewrite (IH (S i)) by lia. cbn [mbind result_bind].
    by rewrite Nat.add_succ_r.
Qed.

Lemma pointers_loop_code (GET_OFF : call_args_field -> Z) (self : jit_kernel_emitter)
    (reg_indexes reg_const_params : Reg64) (data_ptr_regs : list Reg64)
    (data_offsets : list (list Z)) (reg_tmp : Reg64) :
  master_shape self <> [] ->
  vec_size (master_shape self) <= vector_max_size ->
  Forall (fun offsets => vec_size offsets = vec_size (master_shape self) - 1)
    data_offsets ->
  forall (cnt i : nat),
    (i + cnt <= length data_offsets)%nat ->
    (i + cnt <= length data_ptr_regs)%nat ->
    pointers_loop GET_OFF self (wrap (vec_size (master_shape self) - 1))
      reg_indexes reg_const_params data_ptr_regs data_offsets reg_tmp cnt (Z.of_nat i)
    = Ok (concat (imap (fun k ro => pointer_code GET_OFF self reg_indexes
                                      reg_const_params (Z.of_nat (i + k)) (fst ro)
                                      reg_tmp (snd ro))
                    (take cnt (drop i (zip data_ptr_regs data_offsets))))).
Proof.
  intros Hne Hmax Hall. induction cnt as [|cnt IH]; intros i Ho Hr.
  - by rewrite take_0.
  - destruct (lookup_lt_is_Some_2 data_ptr_regs i) as [r Hri]; [lia|].
    destruct (lookup_lt_is_Some_2 data_offsets i) as [offsets Hoi]; [lia|].
    assert (Hzip : zip data_ptr_regs data_offsets !! i = Some (r, offsets))
      by (by rewrite lookup_zip_with, Hri, Hoi).
    rewrite (drop_S _ _ _ Hzip). cbn [take]. rewrite imap_cons. cbn [concat fst snd].
    cbn [pointers_loop].
    rewrite (vec_get_lookup _ _ _ Hri). cbn [mbind result_bind].
    rewrite (vec_get_lookup _ _ _ Hoi). cbn [mbind result_bind].
    rewrite (init_ptr_with_offset_code self reg_indexes r reg_tmp offsets Hne Hmax)
      by (by apply (Forall_lookup_1 _ _ _ _ Hall Hoi)).
    cbn [mbind result_bind].
    replace (Z.of_nat i + 1) with (Z.of_nat (S i)) by lia.
    rewrite (IH (S i)) by lia. cbn [mbind result_bind].
    rewrite (imap_ext _ ((fun k ro => pointer_code GET_OFF self reg_indexes
                                        reg_const_params (Z.of_nat (i + k)) (fst ro)
                                        reg_tmp (snd ro)) ∘ S))
      by (intros k ro _; cbn; by rewrite Nat.add_succ_r).
    unfold pointer_code at 2, tensor_entry. rewrite Nat.add_0_r.
    case_bool_decide.
    + by rewrite wrap_disp_scaled.
    + by rewrite wrap_disp.
Qed.

Lemma data_offsets_loop_inv (self : jit_kernel_emitter) (offset_rank : Z) :
  forall (cnt i : nat) (data_offsets : list (list Z)),
    data_offsets_loop self offset_rank cnt (Z.of_nat i) = Ok data_offsets ->
    length data_offsets = cnt
    /\ forall (k : nat) shape layout data_size,
         (k < cnt)%nat ->
         io_shapes self !! (i + k)%nat = Some shape ->
         io_data_layouts self !! (i + k)%nat = Some layout ->
         io_data_sizes self !! (i + k)%nat = Some data_size ->
         exists offsets,
           data_offsets !! k = Some offsets
           /\ offset_calculation offset_rank shape layout data_size
                (bool_decide (Z.of_nat (i + k) < num_inputs self)) = Ok offsets.
Proof.
  induction cnt as [|cnt IH]; intros i data_offsets H.
  - injection H as <-. split; [done|]. intros; lia.
  - cbn [data_offsets_loop] in H.
    apply bind_Ok in H as (shape & Hshape & H).
    apply bind_Ok in H as (layout & Hlayout & H).
    apply bind_Ok in H as (data_size & Hsize & H).
    apply bind_Ok in H as (offsets & Hoffsets & H).
    apply bind_Ok in H as (rest & Hrest & [= <-]).
    replace (Z.of_nat i + 1) with (Z.of_nat (S i)) in Hrest by lia.
    apply IH in Hrest as [Hlen Hrest].
    apply vec_get_Ok in Hshape as [_ Hshape].
    apply vec_get_Ok in Hlayout as [_ Hlayout].
    apply vec_get_Ok in Hsize as [_ Hsize].
    rewrite Nat2Z.id in Hshape, Hlayout, Hsize.
    split; [cbn; lia|].
    intros [|k] shape' layout' data_size' Hk Hs Hl Hd.
    + rewrite Nat.add_0_r in *. exists offsets. split; [done|]. congruence.
    + replace (i + S k)%nat with (S i + k)%nat in * by lia.
      apply (Hrest k shape' layout' data_size'); (done || lia).
Qed.

Lemma tensors_ok_master_shape (self : jit_kernel_emitter) :
  tensors_ok self ->
  1 <= num_inputs self + num_outputs self ->
  master_shape self <> [].
Proof.
  intros (_ & _ & Hshapes & _ & _ & Hall) Hn. unfold vec_size in Hshapes.
  destruct (io_shapes self) as [|shape shapes]; [cbn in Hshapes; lia|].
  apply Forall2_cons_inv_l in Hall as (layout & layouts & (Hs & Hrank & _) & _).
  intros Hnil. rewrite Hnil in Hrank. destruct shape; [done | cbn in Hrank; lia].
Qed.

Lemma imap_take_snoc {A B : Type} (f : nat -> A -> B) (l : list A) (m : nat) (x : A) :
  length l = S m ->
  l !! m = Some x ->
  imap f l = imap f (take m l) ++ [f m x].
Proof.
  intros Hlen Hx. rewrite <- (take_drop m l) at 1. rewrite imap_app.
  rewrite (drop_S _ _ _ Hx), drop_ge by lia. cbn [imap].
  rewrite length_take, Nat.add_0_r. do 3 f_equal. lia.
Qed.

(** The code of the starved path: the loads of the buffers, the tensors
    before the last with the register of the last tensor as scratch, and the
    last tensor, loaded from the output array, with the parameter-block
    register as scratch. *)
Lemma init_data_pointers_starved_code (GET_OFF : call_args_field -> Z)
    (self : jit_kernel_emitter) (reg_indexes reg_const_params : Reg64)
    (data_ptr_regs : list Reg64) :
  tensors_ok self ->
  registers_ok self reg_indexes reg_const_params data_ptr_regs ->
  no_spare_gpr self ->
  1 <= num_outputs self ->
  exists data_offsets r_last last_offsets,
    data_offsets_of self = Ok data_offsets
    /\ length data_offsets = Z.to_nat (num_inputs self + num_outputs self)
    /\ data_ptr_regs !! Z.to_nat (num_inputs self + num_outputs self - 1) = Some r_last
    /\ data_offsets !! Z.to_nat (num_inputs self + num_outputs self - 1)
       = Some last_offsets
    /\ init_data_pointers GET_OFF self reg_indexes reg_const_params data_ptr_regs
       = Ok (buffer_loads GET_OFF reg_const_params
               (drop (Z.to_nat (num_inputs self + num_outputs self)) data_ptr_regs)
             ++ concat (imap (fun k ro => pointer_code GET_OFF self reg_indexes
                                            reg_const_params (Z.of_nat k) (fst ro)
                                            r_last (snd ro))
                          (take (Z.to_nat (num_inputs self + num_outputs self - 1))
                             (zip data_ptr_regs data_offsets)))
             ++ pointer_code GET_OFF self reg_indexes reg_const_params
                  (num_inputs self + num_outputs self - 1) r_last reg_const_params
                  last_offsets).
Proof.
  intros Htensors Hregs Hstarved Hout.
  pose proof Htensors as (Hni & Hno & Hshapes & Hsizes & Hmax & Hall).
  destruct Hregs as (Hnb & Hlen & Hsmall & Hnodup & Hri & Hrc & Hne).
  assert (Hmaster : master_shape self <> [])
    by (apply tensors_ok_master_shape; [done | lia]).
  set (n := num_inputs self + num_outputs self) in *.
  unfold vec_size in Hshapes, Hlen.
  unfold data_offsets_of, init_data_pointers. cbv zeta. fold n.
  unfold vec_size in Hsmall. rewrite (wrap_small n) by lia.
  destruct (data_offsets_loop_ok self Htensors (Z.to_nat n) 0)
    as (data_offsets & Hdo & Hdo_len & Hdo_all); [lia|].
  change (Z.of_nat 0) with 0 in Hdo. rewrite Hdo. cbn [mbind result_bind].
  rewrite (proj1 (no_spare_gpr_find self) Hstarved).
  rewrite (bool_decide_eq_true_2 (None = None)) by done.
  rewrite (wrap_small (n - 1)) by lia.
  destruct (lookup_lt_is_Some_2 data_ptr_regs (Z.to_nat (n - 1))) as [r_last Hlast]; [lia|].
  assert (Hn1 : 0 <= n - 1) by lia.
  rewrite (vec_get_lookup_Z _ _ _ Hn1 Hlast). cbn [mbind result_bind].
  pose proof (buffers_loop_code GET_OFF reg_const_params data_ptr_regs (Z.to_nat n)
                Hsmall (Z.to_nat (num_unique_buffers self)) 0) as Hb.
  rewrite Z2Nat.id in Hb by lia. change (Z.of_nat 0) with 0 in Hb.
  rewrite Hb by lia. cbn [mbind result_bind].
  rewrite Nat.add_0_r, take_ge by (rewrite length_drop; lia).
  pose proof (pointers_loop_code GET_OFF self reg_indexes reg_const_params data_ptr_regs
                data_offsets r_last Hmaster Hmax Hdo_all (Z.to_nat (n - 1)) 0) as Hp.
  change (Z.of_nat 0) with 0 in Hp. rewrite Hp by lia. cbn [mbind result_bind].
  destruct (lookup_lt_is_Some_2 data_offsets (Z.to_nat (n - 1))) as [offsets Hoffs]; [lia|].
  rewrite (vec_get_lookup_Z _ _ _ Hn1 Hoffs). cbn [mbind result_bind].
  rewrite (init_ptr_with_offset_code self reg_indexes r_last reg_const_params offsets
             Hmaster Hmax)
    by (by apply (Forall_lookup_1 _ _ _ _ Hdo_all Hoffs)).
  cbn [mbind result_bind].
  exists data_offsets, r_last, offsets.
  split; [done|]. split; [done|]. split; [done|]. split; [done|].
  rewrite drop_0. cbn [Nat.add]. do 3 f_equal.
  unfold pointer_code, tensor_entry.
  rewrite bool_decide_eq_false_2 by lia. by rewrite wrap_disp.
Qed.

(** The code of the regular path: the loads of the buffers, then every
    tensor with the spare register as scratch. *)
Lemma init_data_pointers_spare_code (GET_OFF : call_args_field -> Z)
    (self : jit_kernel_emitter) (reg_indexes reg_const_params : Reg64)
    (data_ptr_regs : list Reg64) (spare : Z) :
  tensors_ok self ->
  registers_ok self reg_indexes reg_const_params data_ptr_regs ->
  find (fun reg => bool_decide (reg <> reg_indexes_idx self)
                   && bool_decide (reg <> reg_const_params_idx self))
    (gp_regs_pool self) = Some spare ->
  1 <= num_inputs self + num_outputs self ->
  exists data_offsets,
    data_offsets_of self = Ok data_offsets
    /\ init_data_pointers GET_OFF self reg_indexes reg_const_params data_ptr_regs
       = Ok (data_pointers_code GET_OFF self reg_indexes reg_const_params data_ptr_regs
               data_offsets (fun _ => Reg64_of_idx spare)).
Proof.
  intros Htensors Hregs Hfind Hn.
  pose proof Htensors as (Hni & Hno & Hshapes & Hsizes & Hmax & Hall).
  destruct Hregs as (Hnb & Hlen & Hsmall & Hnodup & Hri & Hrc & Hne).
  assert (Hmaster : master_shape self <> [])
    by (by apply tensors_ok_master_shape).
  set (n := num_inputs self + num_outputs self) in *.
  unfold vec_size in Hshapes, Hlen.
  unfold data_offsets_of, init_data_pointers. cbv zeta. fold n.
  unfold vec_size in Hsmall. rewrite (wrap_small n) by lia.
  destruct (data_offsets_loop_ok self Htensors (Z.to_nat n) 0)
    as (data_offsets & Hdo & Hdo_len & Hdo_all); [lia|].
  change (Z.of_nat 0) with 0 in Hdo. rewrite Hdo. cbn [mbind result_bind].
  rewrite Hfind. cbn [mbind result_bind].
  rewrite (bool_decide_eq_false_2 (Some spare = None)) by done.
  pose proof (buffers_loop_code GET_OFF reg_const_params data_ptr_regs (Z.to_nat n)
                Hsmall (Z.to_nat (num_unique_buffers self)) 0) as Hb.
  rewrite Z2Nat.id in Hb by lia. change (Z.of_nat 0) with 0 in Hb.
  rewrite Hb by lia. cbn [mbind result_bind].
  rewrite Nat.add_0_r, take_ge by (rewrite length_drop; lia).
  rewrite Z.sub_0_r, (wrap_small n) by lia.
  pose proof (pointers_loop_code GET_OFF self reg_indexes reg_const_params data_ptr_regs
                data_offsets (Reg64_of_idx spare) Hmaster Hmax Hdo_all (Z.to_nat n) 0)
    as Hp.
  change (Z.of_nat 0) with 0 in Hp. rewrite Hp by lia. cbn [mbind result_bind].
  exists data_offsets. split; [done|].
  rewrite drop_0, take_ge by (rewrite length_zip; lia). cbn [Nat.add].
  unfold data_pointers_code. by rewrite Hdo_len, app_nil_r.
Qed.

(** * The reorder within the offsets of each tensor (claim C3) *)

(** C3: the offsets init_data_pointers computes for a tensor with a
    non-empty layout permutation are those of its reordered strides (without
    the last entry, behind the zeros of the padding), and the direction of
    the reorder follows the role of the tensor, tensor t being an input when
    t < num_inputs: for an input reordered[i] = stride[layout[i]] for every
    i, for an output reordered[layout[i]] = stride[i] for every i.  The
    offsets are computed for every emitter whose tensors have a rank between
    1 and that of the master shape and a checked layout. *)
Theorem reorder_direction_by_role (self : jit_kernel_emitter) :
  vec_size (master_shape self) <= vector_max_size ->
  (tensors_ok self ->
   vec_size (io_shapes self) < size_t_modulus ->
   exists data_offsets,
     data_offsets_of self = Ok data_offsets
     /\ length data_offsets = length (io_shapes self))
  /\ forall (data_offsets : list (list Z)) (t : nat) (shape layout : list Z)
            (data_size : Z),
       data_offsets_of self = Ok data_offsets ->
       (t < length data_offsets)%nat ->
       io_shapes self !! t = Some shape ->
       io_data_layouts self !! t = Some layout ->
       io_data_sizes self !! t = Some data_size ->
       layout <> [] ->
       length layout = length shape ->
       is_permutation layout ->
       exists strides reordered,
         raw_strides shape data_size = Ok strides
         /\ length reordered = length strides
         /\ (forall (i : nat) (l : Z), layout !! i = Some l ->
               if bool_decide (Z.of_nat t < num_inputs self)
               then reordered !! i = strides !! Z.to_nat l
               else reordered !! Z.to_nat l = strides !! i)
         /\ data_offsets !! t
            = Some (replicate (length (master_shape self) - length shape) 0
                    ++ removelast reordered).
Proof.
  intros Hmax. split.
  - intros Htensors Hsmall.
    pose proof Htensors as (Hni & Hno & Hshapes & _).
    unfold vec_size in Hshapes, Hsmall.
    destruct (data_offsets_loop_ok self Htensors (length (io_shapes self)) 0)
      as (data_offsets & Hdo & Hlen & _); [lia|].
    exists data_offsets. unfold data_offsets_of.
    rewrite (wrap_small (num_inputs self + num_outputs self)) by lia.
    rewrite <- Hshapes, Nat2Z.id. by split.
  - intros data_offsets t shape layout data_size Hdo Ht Hs Hl Hd Hne Hll Hperm.
    unfold data_offsets_of in Hdo. change 0 with (Z.of_nat 0) in Hdo.
    destruct (data_offsets_loop_inv self _ _ 0 data_offsets Hdo) as [Hlen Hinv].
    destruct (Hinv t shape layout data_size) as (offsets & Hoffsets & Hcalc);
      [lia | done..|].
    cbn [Nat.add] in Hcalc.
    apply offset_calculation_padded in Hcalc as (strides' & Hre & Hrank & ->); [|done].
    unfold reordered_strides_of in Hre. apply bind_Ok in Hre as (raw & Hraw & Hre).
    assert (Hlen' : length layout = length raw)
      by (by rewrite (raw_strides_length _ _ _ Hraw)).
    destruct (reorder_strides_spec raw layout
                (bool_decide (Z.of_nat t < num_inputs self)) Hlen' Hperm)
      as (reordered & Hrun & Hlen'' & Hdir).
    destruct layout as [|l0 layout']; [done|].
    rewrite Hrun in Hre. injection Hre as <-.
    exists raw, reordered. split; [done|]. split; [done|]. split; [|done].
    intros i l Hi. specialize (Hdir i l Hi). by destruct (bool_decide _).
Qed.

Lemma reorder_direction_by_role_witness :
  vec_size (master_shape emitter_transposed) <= vector_max_size
  /\ tensors_ok emitter_transposed
  /\ vec_size (io_shapes emitter_transposed) < size_t_modulus
  /\ num_inputs emitter_transposed = 1
  /\ raw_strides [2; 3; 4] 4 = Ok [48; 16; 1]
  /\ data_offsets_of emitter_transposed = Ok [[0; 0; 0; 16; 1]; [0; 0; 0; 1; 48]]
  /\ (exists data_offsets,
        data_offsets_of emitter_transposed = Ok data_offsets
        /\ length data_offsets = length (io_shapes emitter_transposed))
  /\ (exists strides reordered,
        raw_strides [2; 3; 4] 4 = Ok strides
        /\ length reordered = length strides
        /\ (forall (i : nat) (l : Z), [1; 2; 0] !! i = Some l ->
              if bool_decide (Z.of_nat 0 < num_inputs emitter_transposed)
              then reordered !! i = strides !! Z.to_nat l
              else reordered !! Z.to_nat l = strides !! i)
        /\ [[0; 0; 0; 16; 1]; [0; 0; 0; 1; 48]] !! 0%nat
           = Some (replicate (length (master_shape emitter_transposed)
                              - length [2; 3; 4]) 0
                   ++ removelast reordered))
  /\ (exists strides reordered,
        raw_strides [2; 3; 4] 4 = Ok strides
        /\ length reordered = length strides
        /\ (forall (i : nat) (l : Z), [1; 2; 0] !! i = Some l ->
              if bool_decide (Z.of_nat 1 < num_inputs emitter_transposed)
              then reordered !! i = strides !! Z.to_nat l
              else reordered !! Z.to_nat l = strides !! i)
        /\ [[0; 0; 0; 16; 1]; [0; 0; 0; 1; 48]] !! 1%nat
           = Some (replicate (length (master_shape emitter_transposed)
                              - length [2; 3; 4]) 0
                   ++ removelast reordered)).
Proof.
  assert (Hmax : vec_size (master_shape emitter_transposed) <= vector_max_size)
    by (vm_compute; discriminate).
  assert (Hdo : data_offsets_of emitter_transposed
                = Ok [[0; 0; 0; 16; 1]; [0; 0; 0; 1; 48]]) by reflexivity.
  split; [exact Hmax|].
  split; [apply (bool_decide_unpack _); vm_compute; exact I|].
  split; [reflexivity|]. split; [reflexivity|]. split; [reflexivity|].
  split; [exact Hdo|]. split; [|split].
  - apply (proj1 (reorder_direction_by_role emitter_transposed Hmax));
      [apply (bool_decide_unpack _); vm_compute; exact I | reflexivity].
  - apply (proj2 (reorder_direction_by_role emitter_transposed Hmax)
             [[0; 0; 0; 16; 1]; [0; 0; 0; 1; 48]] 0%nat [2; 3; 4] [1; 2; 0] 4);
      [exact Hdo | cbn; lia | reflexivity | reflexivity | reflexivity | discriminate
      | reflexivity | exact is_permutation_1_2_0].
  - apply (proj2 (reorder_direction_by_role emitter_transposed Hmax)
             [[0; 0; 0; 16; 1]; [0; 0; 0; 1; 48]] 1%nat [2; 3; 4] [1; 2; 0] 4);
      [exact Hdo | cbn; lia | reflexivity | reflexivity | reflexivity | discriminate
      | reflexivity | exact is_permutation_1_2_0].
Defined.

(** * The starved path, instruction by instruction (claims C5 and C9) *)

(** C5, as stated, fails on the code.  A starved kernel of eleven inputs and
    an output of rank 7 passes the constructor and the validation, and
    pointer initialisation throws.  A starved kernel of eleven inputs, a
    buffer and no output passes them as well, and pointer initialisation
    returns, but the pointer of its last tensor, input 10, is loaded from
    byte 88 of the parameter block, 8 bytes before the output array, whereas
    its entry, entry 10 of the input array, is at byte 80. *)
Lemma starved_initialization_can_fail :
  (exists emitter gpr_map_pool vec_map_pool,
     jit_kernel_emitter_ctor rdi rsi (Some kernel_starved_rank_7)
       = Ok (emitter, gpr_map_pool, vec_map_pool)
     /\ gp_regs_pool emitter = [7; 6]
     /\ no_spare_gpr emitter
     /\ validate_arguments emitter [] [] = Ok tt
     /\ master_shape emitter = [1; 1; 1; 2; 3; 4]
     /\ io_shapes emitter !! 11%nat = Some [1; 1; 1; 1; 2; 3; 4]
     /\ init_data_pointers GET_OFF_12 emitter rdi rsi
          (transform_idxs_to_regs (data_ptr_regs_idx emitter)) = Throw LengthError)
  /\ (exists emitter gpr_map_pool vec_map_pool code,
        jit_kernel_emitter_ctor rdi rsi (Some kernel_starved_inputs_only)
          = Ok (emitter, gpr_map_pool, vec_map_pool)
        /\ gp_regs_pool emitter = [7; 6]
        /\ no_spare_gpr emitter
        /\ validate_arguments emitter [] [] = Ok tt
        /\ num_inputs emitter = 11
        /\ num_outputs emitter = 0
        /\ num_unique_buffers emitter = 1
        /\ transform_idxs_to_regs (data_ptr_regs_idx emitter)
           = [0; 1; 2; 3; 8; 9; 10; 11; 12; 13; 14; 15]
        /\ init_data_pointers GET_OFF_12 emitter rdi rsi
             (transform_idxs_to_regs (data_ptr_regs_idx emitter)) = Ok code
        /\ base_pointer_loads code
           = [(15, 192); (0, 0); (1, 8); (2, 16); (3, 24); (8, 32); (9, 40);
              (10, 48); (11, 56); (12, 64); (13, 72); (14, 88)]
        /\ tensor_entry GET_OFF_12 emitter 10 = 80).
Proof.
  split.
  - eexists _, _, _. split; [vm_compute; reflexivity|].
    split; [vm_compute; reflexivity|].
    split; [apply (bool_decide_unpack _); vm_compute; exact I|].
    split; [vm_compute; reflexivity|]. split; [vm_compute; reflexivity|].
    split; vm_compute; reflexivity.
  - eexists _, _, _, _. split; [vm_compute; reflexivity|].
    split; [vm_compute; reflexivity|].
    split; [apply (bool_decide_unpack _); vm_compute; exact I|].
    split; [vm_compute; reflexivity|]. split; [reflexivity|]. split; [reflexivity|].
    split; [reflexivity|].
    split; [vm_compute; reflexivity|]. split; [vm_compute; reflexivity|].
    split; vm_compute; reflexivity.
Qed.

(** C5 (amended): when no spare general-purpose register survives
    allocation, there is at least one output, and every tensor has a rank
    between 1 and that of the master shape and a checked layout, pointer
    initialisation returns the code of every tensor: the loads of the
    buffers; then, for each tensor but the last, the load of its base pointer
    from its own entry of the parameter block and the accumulation of its
    offsets with the last tensor's register as scratch; then the load of the
    last tensor's base pointer from its own entry and the accumulation of its
    offsets with the parameter-block register as scratch.  No instruction
    before that last load writes the parameter-block register and none after
    it loads through it; each scratch register differs from the tensor's own
    pointer register and from the index-vector register. *)
Theorem starved_scratch_registers (GET_OFF : call_args_field -> Z)
    (self : jit_kernel_emitter) (reg_indexes reg_const_params : Reg64)
    (data_ptr_regs : list Reg64) :
  tensors_ok self ->
  registers_ok self reg_indexes reg_const_params data_ptr_regs ->
  no_spare_gpr self ->
  1 <= num_outputs self ->
  exists data_offsets blocks r_last last_offsets,
    data_offsets_of self = Ok data_offsets
    /\ data_ptr_regs !! Z.to_nat (num_inputs self + num_outputs self - 1) = Some r_last
    /\ data_offsets !! Z.to_nat (num_inputs self + num_outputs self - 1)
       = Some last_offsets
    /\ init_data_pointers GET_OFF self reg_indexes reg_const_params data_ptr_regs
       = Ok (buffer_loads GET_OFF reg_const_params
               (drop (Z.to_nat (num_inputs self + num_outputs self)) data_ptr_regs)
             ++ concat blocks
             ++ pointer_code GET_OFF self reg_indexes reg_const_params
                  (num_inputs self + num_outputs self - 1) r_last reg_const_params
                  last_offsets)
    /\ length blocks = Z.to_nat (num_inputs self + num_outputs self - 1)
    /\ (forall (k : nat) block, blocks !! k = Some block ->
          exists r offsets,
            data_ptr_regs !! k = Some r
            /\ data_offsets !! k = Some offsets
            /\ block = pointer_code GET_OFF self reg_indexes reg_const_params
                         (Z.of_nat k) r r_last offsets
            /\ r_last <> r)
    /\ r_last <> reg_indexes
    /\ reg_const_params <> r_last
    /\ reg_const_params <> reg_indexes
    /\ Forall (fun ins => written ins <> Some reg_const_params)
         (buffer_loads GET_OFF reg_const_params
            (drop (Z.to_nat (num_inputs self + num_outputs self)) data_ptr_regs)
          ++ concat blocks)
    /\ Forall (fun ins => loads_from ins <> Some reg_const_params)
         (accumulation (master_shape self) reg_indexes r_last reg_const_params
            last_offsets).
Proof.
  intros Htensors Hregs Hstarved Hout.
  destruct (init_data_pointers_starved_code GET_OFF self reg_indexes reg_const_params
              data_ptr_regs Htensors Hregs Hstarved Hout)
    as (data_offsets & r_last & last_offsets & Hdo & Hdo_len & Hlast & Hoffs & Hrun).
  destruct Htensors as (Hni & Hno & _).
  destruct Hregs as (Hnb & Hsize & Hsmall & Hnodup & Hri & Hrc & Hne).
  set (n := num_inputs self + num_outputs self) in *.
  unfold vec_size in Hsize.
  assert (Hlast_in : r_last ∈ data_ptr_regs) by by apply list_elem_of_lookup_2 in Hlast.
  set (blocks := imap (fun k ro => pointer_code GET_OFF self reg_indexes
                                     reg_const_params (Z.of_nat k) (fst ro) r_last
                                     (snd ro))
                   (take (Z.to_nat (n - 1)) (zip data_ptr_regs data_offsets))) in *.
  assert (Hblocks : forall (k : nat) block, blocks !! k = Some block ->
            exists r offsets,
              data_ptr_regs !! k = Some r
              /\ data_offsets !! k = Some offsets
              /\ block = pointer_code GET_OFF self reg_indexes reg_const_params
                           (Z.of_nat k) r r_last offsets
              /\ (k < Z.to_nat (n - 1))%nat).
  { intros k block Hk. unfold blocks in Hk. rewrite list_lookup_imap in Hk.
    destruct (take _ _ !! k) as [[r offsets]|] eqn:E; [|done].
    injection Hk as <-. pose proof (lookup_lt_Some _ _ _ E) as Hlt.
    rewrite length_take in Hlt.
    rewrite lookup_take_lt in E by lia. rewrite lookup_zip_with in E.
    destruct (data_ptr_regs !! k) as [r'|]; [|done].
    destruct (data_offsets !! k) as [o'|]; [|done].
    injection E as -> ->. exists r, offsets. split_and!; (done || lia). }
  exists data_offsets, blocks, r_last, last_offsets.
  split; [done|]. split; [done|]. split; [done|]. split; [done|]. split.
  { unfold blocks. rewrite length_imap, length_take, length_zip. lia. }
  split.
  { intros k block Hk. destruct (Hblocks k block Hk) as (r & offsets & Hr & Ho & -> & Hlt).
    exists r, offsets. split; [done|]. split; [done|]. split; [done|].
    intros <-. pose proof (NoDup_lookup _ _ _ _ Hnodup Hr Hlast). lia. }
  split; [by intros ->|]. split; [by intros <-|]. split; [by intros <-|]. split.
  - apply Forall_app. split.
    + unfold buffer_loads. apply Forall_fmap, Forall_forall. intros r Hr. cbn.
      intros [= ->]. by apply subseteq_drop in Hr.
    + apply Forall_concat_lookup. intros k block Hk.
      destruct (Hblocks k block Hk) as (r & offsets & Hr & _ & -> & _).
      apply list_elem_of_lookup_2 in Hr.
      constructor; [cbn; by intros [= ->]|].
      eapply Forall_impl; [apply accumulation_instrs|]. intros ins Hins.
      apply accumulation_instr_written in Hins as [-> | ->]; by intros [= <-].
  - eapply Forall_impl; [apply accumulation_instrs|]. intros ins Hins.
    apply accumulation_instr_loads_from in Hins as [-> | ->]; [done|].
    by intros [= ->].
Qed.

Lemma starved_scratch_registers_witness :
  exists emitter gpr_map_pool vec_map_pool,
    jit_kernel_emitter_ctor rdi rsi (Some kernel_starved)
      = Ok (emitter, gpr_map_pool, vec_map_pool)
    /\ tensors_ok emitter
    /\ registers_ok emitter rdi rsi (transform_idxs_to_regs (data_ptr_regs_idx emitter))
    /\ no_spare_gpr emitter
    /\ 1 <= num_outputs emitter
    /\ exists data_offsets blocks r_last last_offsets,
         data_offsets_of emitter = Ok data_offsets
         /\ transform_idxs_to_regs (data_ptr_regs_idx emitter)
              !! Z.to_nat (num_inputs emitter + num_outputs emitter - 1) = Some r_last
         /\ data_offsets !! Z.to_nat (num_inputs emitter + num_outputs emitter - 1)
            = Some last_offsets
         /\ init_data_pointers GET_OFF_12 emitter rdi rsi
              (transform_idxs_to_regs (data_ptr_regs_idx emitter))
            = Ok (buffer_loads GET_OFF_12 rsi
                    (drop (Z.to_nat (num_inputs emitter + num_outputs emitter))
                       (transform_idxs_to_regs (data_ptr_regs_idx emitter)))
                  ++ concat blocks
                  ++ pointer_code GET_OFF_12 emitter rdi rsi
                       (num_inputs emitter + num_outputs emitter - 1) r_last rsi
                       last_offsets)
         /\ length blocks = Z.to_nat (num_inputs emitter + num_outputs emitter - 1)
         /\ (forall (k : nat) block, blocks !! k = Some block ->
               exists r offsets,
                 transform_idxs_to_regs (data_ptr_regs_idx emitter) !! k = Some r
                 /\ data_offsets !! k = Some offsets
                 /\ block = pointer_code GET_OFF_12 emitter rdi rsi (Z.of_nat k) r
                              r_last offsets
                 /\ r_last <> r)
         /\ r_last <> rdi
         /\ rsi <> r_last
         /\ rsi <> rdi
         /\ Forall (fun ins => written ins <> Some rsi)
              (buffer_loads GET_OFF_12 rsi
                 (drop (Z.to_nat (num_inputs emitter + num_outputs emitter))
                    (transform_idxs_to_regs (data_ptr_regs_idx emitter)))
               ++ concat blocks)
         /\ Forall (fun ins => loads_from ins <> Some rsi)
              (accumulation (master_shape emitter) rdi r_last rsi last_offsets).
Proof.
  eexists _, _, _. split; [vm_compute; reflexivity|].
  split; [apply (bool_decide_unpack _); vm_compute; exact I|].
  split; [apply (bool_decide_unpack _); vm_compute; exact I|].
  split; [apply (bool_decide_unpack _); vm_compute; exact I|].
  split; [vm_compute; discriminate|].
  apply (starved_scratch_registers GET_OFF_12 _ rdi rsi).
  - apply (bool_decide_unpack _). vm_compute. exact I.
  - apply (bool_decide_unpack _). vm_compute. exact I.
  - apply (bool_decide_unpack _). vm_compute. exact I.
  - vm_compute. discriminate.
Defined.

(** C9, as stated, fails on the code: with twelve inputs, no output and the
    input and output arrays of twelve pointers each, the index
    i - num_inputs of the last tensor, input 11, underflows, and the load
    reads byte 88 of the parameter block, 8 bytes before the output array:
    that is entry 11 of the input array, the tensor's own entry. *)
Lemma starved_inputs_only_reads_own_entry :
  exists emitter gpr_map_pool vec_map_pool code,
    jit_kernel_emitter_ctor rdi rsi (Some kernel_twelve_inputs)
      = Ok (emitter, gpr_map_pool, vec_map_pool)
    /\ gp_regs_pool emitter = [7; 6]
    /\ no_spare_gpr emitter
    /\ num_inputs emitter = 12
    /\ num_outputs emitter = 0
    /\ num_unique_buffers emitter = 0
    /\ transform_idxs_to_regs (data_ptr_regs_idx emitter)
       = [0; 1; 2; 3; 8; 9; 10; 11; 12; 13; 14; 15]
    /\ init_data_pointers GET_OFF_12 emitter rdi rsi
         (transform_idxs_to_regs (data_ptr_regs_idx emitter)) = Ok code
    /\ base_pointer_loads code
       = [(0, 0); (1, 8); (2, 16); (3, 24); (8, 32); (9, 40); (10, 48); (11, 56);
          (12, 64); (13, 72); (14, 80); (15, 88)]
    /\ wrap (11 - num_inputs emitter) = 2 ^ 64 - 1
    /\ wrap (GET_OFF_12 dst_ptrs
             + wrap (wrap (11 - num_inputs emitter) * sizeof_void_ptr)) = 88
    /\ tensor_entry GET_OFF_12 emitter 11 = 88.
Proof.
  eexists _, _, _, _. split; [vm_compute; reflexivity|].
  split; [vm_compute; reflexivity|].
  split; [apply (bool_decide_unpack _); vm_compute; exact I|].
  split; [reflexivity|]. split; [reflexivity|]. split; [reflexivity|].
  split; [vm_compute; reflexivity|]. split; [vm_compute; reflexivity|].
  split; [vm_compute; reflexivity|]. split; [reflexivity|].
  split; vm_compute; reflexivity.
Qed.

(** X17: with at least one output, the code of the starved path is the code
    the same emitter emits once a spare register is put in its pool, but for
    the scratch register: the same loads of the buffers, the same load of
    each tensor's base pointer from the same entry into the same register,
    the same offsets accumulated in the same order; the scratch register is
    the last tensor's register for every tensor but the last and the
    parameter-block register for the last, where the regular path uses the
    spare register throughout. *)
Theorem starved_loads_as_regular (GET_OFF : call_args_field -> Z)
    (self : jit_kernel_emitter) (reg_indexes reg_const_params : Reg64)
    (data_ptr_regs : list Reg64) (spare : Z) :
  tensors_ok self ->
  registers_ok self reg_indexes reg_const_params data_ptr_regs ->
  no_spare_gpr self ->
  1 <= num_outputs self ->
  spare <> reg_indexes_idx self ->
  spare <> reg_const_params_idx self ->
  exists data_offsets r_last,
    data_offsets_of self = Ok data_offsets
    /\ data_ptr_regs !! Z.to_nat (num_inputs self + num_outputs self - 1) = Some r_last
    /\ init_data_pointers GET_OFF self reg_indexes reg_const_params data_ptr_regs
       = Ok (data_pointers_code GET_OFF self reg_indexes reg_const_params data_ptr_regs
               data_offsets
               (fun k => if bool_decide (Z.of_nat k
                                         = num_inputs self + num_outputs self - 1)
                         then reg_const_params else r_last))
    /\ init_data_pointers GET_OFF (with_gp_regs_pool self (spare :: gp_regs_pool self))
         reg_indexes reg_const_params data_ptr_regs
       = Ok (data_pointers_code GET_OFF self reg_indexes reg_const_params data_ptr_regs
               data_offsets (fun _ => Reg64_of_idx spare)).
Proof.
  intros Htensors Hregs Hstarved Hout Hs1 Hs2.
  destruct (init_data_pointers_starved_code GET_OFF self reg_indexes reg_const_params
              data_ptr_regs Htensors Hregs Hstarved Hout)
    as (data_offsets & r_last & last_offsets & Hdo & Hdo_len & Hlast & Hoffs & Hrun).
  exists data_offsets, r_last. split; [done|]. split; [done|].
  pose proof Htensors as (Hni & Hno & _).
  pose proof Hregs as (Hnb & Hsize & _). unfold vec_size in Hsize.
  set (n := num_inputs self + num_outputs self) in *.
  split.
  - rewrite Hrun. f_equal. unfold data_pointers_code. rewrite Hdo_len. f_equal.
    rewrite (imap_take_snoc _ (zip data_ptr_regs data_offsets) (Z.to_nat (n - 1))
               (r_last, last_offsets));
      [| rewrite length_zip; lia | by rewrite lookup_zip_with, Hlast, Hoffs].
    rewrite concat_app. cbn [concat fst snd]. rewrite app_nil_r. f_equal.
    + f_equal. apply imap_ext. intros k ro Hk.
      apply lookup_lt_Some in Hk. rewrite length_take in Hk.
      by rewrite bool_decide_eq_false_2 by lia.
    + rewrite bool_decide_eq_true_2 by lia. by rewrite Z2Nat.id by lia.
  - destruct (init_data_pointers_spare_code GET_OFF
                (with_gp_regs_pool self (spare :: gp_regs_pool self))
                reg_indexes reg_const_params data_ptr_regs spare)
      as (data_offsets' & Hdo' & Hrun'); [exact Htensors | exact Hregs | | cbn; lia |].
    { cbn [find gp_regs_pool with_gp_regs_pool reg_indexes_idx reg_const_params_idx].
      by rewrite !bool_decide_eq_true_2 by done. }
    change (data_offsets_of (with_gp_regs_pool self (spare :: gp_regs_pool self)))
      with (data_offsets_of self) in Hdo'.
    rewrite Hdo in Hdo'. injection Hdo' as <-. exact Hrun'.
Qed.

Lemma starved_loads_as_regular_witness :
  tensors_ok emitter_two_tensors_starved
  /\ registers_ok emitter_two_tensors_starved rdi rsi [0; 1]
  /\ no_spare_gpr emitter_two_tensors_starved
  /\ 1 <= num_outputs emitter_two_tensors_starved
  /\ 15 <> reg_indexes_idx emitter_two_tensors_starved
  /\ 15 <> reg_const_params_idx emitter_two_tensors_starved
  /\ init_data_pointers GET_OFF_12 emitter_two_tensors_starved rdi rsi [0; 1]
     = Ok [ mov_load 0 {| base := 6; disp := 0 |};
            mov_imm 1 48; imul_load 1 {| base := 7; disp := 24 |}; add_reg 0 1;
            mov_imm 1 16; imul_load 1 {| base := 7; disp := 32 |}; add_reg 0 1;
            mov_load 1 {| base := 6; disp := 96 |};
            mov_imm 6 48; imul_load 6 {| base := 7; disp := 24 |}; add_reg 1 6;
            mov_imm 6 16; imul_load 6 {| base := 7; disp := 32 |}; add_reg 1 6 ]
  /\ init_data_pointers GET_OFF_12
       (with_gp_regs_pool emitter_two_tensors_starved
          (15 :: gp_regs_pool emitter_two_tensors_starved)) rdi rsi [0; 1]
     = Ok [ mov_load 0 {| base := 6; disp := 0 |};
            mov_imm 15 48; imul_load 15 {| base := 7; disp := 24 |}; add_reg 0 15;
            mov_imm 15 16; imul_load 15 {| base := 7; disp := 32 |}; add_reg 0 15;
            mov_load 1 {| base := 6; disp := 96 |};
            mov_imm 15 48; imul_load 15 {| base := 7; disp := 24 |}; add_reg 1 15;
            mov_imm 15 16; imul_load 15 {| base := 7; disp := 32 |}; add_reg 1 15 ]
  /\ exists data_offsets r_last,
       data_offsets_of emitter_two_tensors_starved = Ok data_offsets
       /\ [0; 1] !! Z.to_nat (num_inputs emitter_two_tensors_starved
                              + num_outputs emitter_two_tensors_starved - 1)
          = Some r_last
       /\ init_data_pointers GET_OFF_12 emitter_two_tensors_starved rdi rsi [0; 1]
          = Ok (data_pointers_code GET_OFF_12 emitter_two_tensors_starved rdi rsi
                  [0; 1] data_offsets
                  (fun k => if bool_decide
                                 (Z.of_nat k
                                  = num_inputs emitter_two_tensors_starved
                                    + num_outputs emitter_two_tensors_starved - 1)
                            then rsi else r_last))
       /\ init_data_pointers GET_OFF_12
            (with_gp_regs_pool emitter_two_tensors_starved
               (15 :: gp_regs_pool emitter_two_tensors_starved)) rdi rsi [0; 1]
          = Ok (data_pointers_code GET_OFF_12 emitter_two_tensors_starved rdi rsi
                  [0; 1] data_offsets (fun _ => Reg64_of_idx 15)).
Proof.
  assert (Ht : tensors_ok emitter_two_tensors_starved)
    by (apply (bool_decide_unpack _); vm_compute; exact I).
  assert (Hr : registers_ok emitter_two_tensors_starved rdi rsi [0; 1])
    by (apply (bool_decide_unpack _); vm_compute; exact I).
  assert (Hs : no_spare_gpr emitter_two_tensors_starved)
    by (apply (bool_decide_unpack _); vm_compute; exact I).
  assert (Ho : 1 <= num_outputs emitter_two_tensors_starved)
    by (vm_compute; discriminate).
  assert (H1 : 15 <> reg_indexes_idx emitter_two_tensors_starved)
    by (vm_compute; discriminate).
  assert (H2 : 15 <> reg_const_params_idx emitter_two_tensors_starved)
    by (vm_compute; discriminate).
  split; [exact Ht|]. split; [exact Hr|]. split; [exact Hs|]. split; [exact Ho|].
  split; [exact H1|]. split; [exact H2|].
  split; [vm_compute; reflexivity|]. split; [vm_compute; reflexivity|].
  exact (starved_loads_as_regular GET_OFF_12 emitter_two_tensors_starved rdi rsi
           [0; 1] 15 Ht Hr Hs Ho H1 H2).
Defined.
